(** * A shallow embedding of the zombie shooter: engine, entities, director

    The three TypeScript sources are embedded class by class:
    - [engine.ts]   : [Vector2D], [GameEntity], [GameEngine], [InputHandler];
    - [entities.ts] : [Player], [Zombie], [Bullet], [Pickup], [Obstacle];
    - [game.ts]     : [ZombieShooterGame].

    JavaScript numbers are modelled as rationals ([Q]); a decimal literal
    denotes the decimal fraction it is written as, and the four operations
    are exact.  The program computes in binary64, which rounds: the two
    agree wherever every intermediate result is a binary64 number (whole
    numbers and binary fractions of moderate size), and differ by a
    rounding error of some 10^-16 of the result per operation elsewhere.
    An equation between a field and the expression the source assigns to
    it reads the same in both.  A statement that depends on the outcome
    of a comparison of computed numbers is therefore made either for
    inputs on which binary64 is exact, or with a margin that the rounding
    errors cannot bridge.  Objects live in a heap
    and are named by their address, so that the engine's entity list, the
    director's [player] field and every zombie's [target] alias one and the
    same object.  Drawing is modelled by the events it produces, sprites and
    the asset loader are left out. *)

From Stdlib Require Import QArith Qminmax Qround ZArith Lia Lqa Ascii String.
From stdpp Require Import base gmap strings list.

Open Scope Q_scope.

(** ** Numbers *)

(** [a < b] on JavaScript numbers; [a <= b] is [Qle_bool]. *)
Definition Qltb (a b : Q) : bool := negb (Qle_bool b a).

(** The functions of the JavaScript runtime the program calls.  The [n]-th
    call of [Math.random()] returns [Math_random n]. *)
Class JSMath := {
  Math_sqrt : Q -> Q;
  Math_cos : Q -> Q;
  Math_sin : Q -> Q;
  Math_random : nat -> Q
}.

(** An object reference: the address of the object in the heap. *)
Definition ref := nat.

(** ** engine.ts: Vector2D *)

Module Vector2D.

Record t := new { x : Q; y : Q }.

(** [new Vector2D()] *)
Definition zero : t := new 0 0.

Definition add (a b : t) : t := new (x a + x b) (y a + y b).
Definition subtract (a b : t) : t := new (x a - x b) (y a - y b).
Definition multiply (a : t) (scalar : Q) : t := new (x a * scalar) (y a * scalar).

Section WithMath.
Context `{JSMath}.

Definition magnitude (a : t) : Q := Math_sqrt (x a * x a + y a * y a).

Definition normalize (a : t) : t :=
  let mag := magnitude a in
  if Qeq_bool mag 0 then zero else new (x a / mag) (y a / mag).

Definition distance (a b : t) : Q :=
  let dx := x a - x b in
  let dy := y a - y b in
  Math_sqrt (dx * dx + dy * dy).

End WithMath.
End Vector2D.

(** ** engine.ts: GameEntity (the base class) *)

Module GameEntity.

Record t := mk { x : Q; y : Q; width : Q; height : Q; markedForDeletion : bool }.

Definition new (x0 y0 w h : Q) : t := mk x0 y0 w h false.

Definition isMarkedForDeletion (e : t) : bool := markedForDeletion e.
Definition markForDeletion (e : t) : t := mk (x e) (y e) (width e) (height e) true.

Definition set_x (v : Q) (e : t) : t := mk v (y e) (width e) (height e) (markedForDeletion e).
Definition set_y (v : Q) (e : t) : t := mk (x e) v (width e) (height e) (markedForDeletion e).

End GameEntity.

(** ** entities.ts: Bullet *)

Module Bullet.

Record t := mk {
  base : GameEntity.t;
  velocity : Vector2D.t;
  damage : Q;
  lifespan : Q;
  source : string
}.

Definition set_base (b0 : GameEntity.t) (b : t) : t :=
  mk b0 (velocity b) (damage b) (lifespan b) (source b).
Definition set_lifespan (l : Q) (b : t) : t :=
  mk (base b) (velocity b) (damage b) l (source b).

Definition new `{JSMath} (x y : Q) (direction : Vector2D.t) (speed damage0 : Q)
    (source0 : string) : t :=
  mk (GameEntity.new x y 5 5)
     (Vector2D.multiply (Vector2D.normalize direction) speed)
     damage0 2 source0.

Definition update (deltaTime : Q) (b : t) : t :=
  let e := base b in
  let e := GameEntity.set_x (GameEntity.x e + Vector2D.x (velocity b) * deltaTime) e in
  let e := GameEntity.set_y (GameEntity.y e + Vector2D.y (velocity b) * deltaTime) e in
  let b := set_lifespan (lifespan b - deltaTime) (set_base e b) in
  if Qle_bool (lifespan b) 0 then set_base (GameEntity.markForDeletion (base b)) b else b.

Definition getDamage (b : t) : Q := damage b.
Definition getSource (b : t) : string := source b.

End Bullet.

(** ** entities.ts: Player *)

(** The value of an ammo slot: [Infinity], a number, or a value that is
    not a number: a function or object inherited from [Object.prototype],
    or what [+=] and [--] make of one (a string, [NaN]). *)
Inductive AmmoCount := Infinity | Finite (n : Q) | Other.

(** The property names every object literal inherits from
    [Object.prototype] in a browser; [__proto__] is the one accessor among
    them, the others are writable data properties. *)
Definition Object_prototype : list string :=
  ["constructor"; "__defineGetter__"; "__defineSetter__"; "hasOwnProperty";
   "__lookupGetter__"; "__lookupSetter__"; "isPrototypeOf"; "propertyIsEnumerable";
   "toString"; "valueOf"; "__proto__"; "toLocaleString"]%string.

Definition inherited (name : string) : bool :=
  existsb (String.eqb name) Object_prototype.

Module Player.

Record WeaponDamage := { pistol : Q; shotgun : Q; rifle : Q }.

Record t := mk {
  base : GameEntity.t;
  speed : Q;
  health : Q;
  maxHealth : Q;
  direction : Vector2D.t;
  shootCooldown : Q;
  shootCooldownMax : Q;
  weaponType : string;
  ammo : gmap string AmmoCount;
  weaponDamage : WeaponDamage
}.

Definition set_base (v : GameEntity.t) (p : t) : t :=
  mk v (speed p) (health p) (maxHealth p) (direction p) (shootCooldown p)
     (shootCooldownMax p) (weaponType p) (ammo p) (weaponDamage p).
Definition set_health (v : Q) (p : t) : t :=
  mk (base p) (speed p) v (maxHealth p) (direction p) (shootCooldown p)
     (shootCooldownMax p) (weaponType p) (ammo p) (weaponDamage p).
Definition set_direction (v : Vector2D.t) (p : t) : t :=
  mk (base p) (speed p) (health p) (maxHealth p) v (shootCooldown p)
     (shootCooldownMax p) (weaponType p) (ammo p) (weaponDamage p).
Definition set_shootCooldown (v : Q) (p : t) : t :=
  mk (base p) (speed p) (health p) (maxHealth p) (direction p) v
     (shootCooldownMax p) (weaponType p) (ammo p) (weaponDamage p).
Definition set_shootCooldownMax (v : Q) (p : t) : t :=
  mk (base p) (speed p) (health p) (maxHealth p) (direction p) (shootCooldown p)
     v (weaponType p) (ammo p) (weaponDamage p).
Definition set_weaponType (v : string) (p : t) : t :=
  mk (base p) (speed p) (health p) (maxHealth p) (direction p) (shootCooldown p)
     (shootCooldownMax p) v (ammo p) (weaponDamage p).
Definition set_ammo (v : gmap string AmmoCount) (p : t) : t :=
  mk (base p) (speed p) (health p) (maxHealth p) (direction p) (shootCooldown p)
     (shootCooldownMax p) (weaponType p) v (weaponDamage p).

(** The field initialisers and the constructor. *)
Definition new (x y : Q) : t :=
  mk (GameEntity.new x y 40 40) 200 100 100 (Vector2D.new 1 0) 0 0.2 "pistol"
     (<["pistol" := Infinity]> (<["shotgun" := Finite 20]> (<["rifle" := Finite 30]> ∅)))
     {| pistol := 25; shotgun := 15; rifle := 40 |}.

Definition update (deltaTime : Q) (p : t) : t :=
  if Qltb 0 (shootCooldown p) then set_shootCooldown (shootCooldown p - deltaTime) p else p.

(** [this.ammo[name]]: an own slot, else what [Object.prototype] has under
    the name, else [undefined]. *)
Definition slot (p : t) (name : string) : option AmmoCount :=
  match ammo p !! name with
  | Some v => Some v
  | None => if inherited name then Some Other else None
  end.

(** [this.ammo[name] = v] for a value [v] that is not a number: the
    object gets an own slot, except under [__proto__], whose setter ignores
    such a value. *)
Definition set_other (name : string) (p : t) : t :=
  if (name =? "__proto__")%string then p else set_ammo (<[name := Other]> (ammo p)) p.

(** A value that is not a number compares as [NaN]. *)
Definition canShoot (p : t) : bool :=
  Qle_bool (shootCooldown p) 0 &&
  match slot p (weaponType p) with
  | Some Infinity => true
  | Some (Finite n) => Qltb 0 n
  | Some Other => false
  | None => false
  end.

Definition takeDamage (amount : Q) (p : t) : t :=
  let p := set_health (Qmax 0 (health p - amount)) p in
  if Qle_bool (health p) 0 then set_base (GameEntity.markForDeletion (base p)) p else p.

Definition heal (amount : Q) (p : t) : t :=
  set_health (Qmin (maxHealth p) (health p + amount)) p.

(** A number is only ever found in an own slot, which [+=] overwrites. *)
Definition addAmmo (type : string) (amount : Q) (p : t) : t :=
  match slot p type with
  | Some (Finite n) => set_ammo (<[type := Finite (n + amount)]> (ammo p)) p
  | Some Other => set_other type p
  | Some Infinity => p
  | None => p
  end.

Definition switchWeapon (weapon : string) (p : t) : t :=
  match slot p weapon with
  | Some _ =>
      let p := set_weaponType weapon p in
      if (weapon =? "pistol")%string then set_shootCooldownMax 0.4 p
      else if (weapon =? "shotgun")%string then set_shootCooldownMax 0.8 p
      else if (weapon =? "rifle")%string then set_shootCooldownMax 0.15 p
      else p
  | None => p
  end.

Definition getHealth (p : t) : Q := health p.
Definition getMaxHealth (p : t) : Q := maxHealth p.
Definition getWeaponType (p : t) : string := weaponType p.

Section WithMath.
Context `{JSMath}.

Definition move (dir : Vector2D.t) (deltaTime : Q) (p : t) : t :=
  let normalizedDir := Vector2D.normalize dir in
  let e := base p in
  let e := GameEntity.set_x (GameEntity.x e + Vector2D.x normalizedDir * speed p * deltaTime) e in
  let e := GameEntity.set_y (GameEntity.y e + Vector2D.y normalizedDir * speed p * deltaTime) e in
  set_base e p.

Definition setDirection (dir : Vector2D.t) (p : t) : t :=
  set_direction (Vector2D.normalize dir) p.

(** The angle of one shotgun pellet, from the random draw it consumes. *)
Definition spreadAngle (draw : Q) : Q := (draw - 0.5) * 0.5.

Definition spreadDirection (d : Vector2D.t) (angle : Q) : Vector2D.t :=
  Vector2D.new
    (Vector2D.x d * Math_cos angle - Vector2D.y d * Math_sin angle)
    (Vector2D.x d * Math_sin angle + Vector2D.y d * Math_cos angle).

(** The body of the shotgun loop, [count] iterations from draw number [rng]. *)
Fixpoint pellets (count : nat) (rng : nat) (p : t) : list Bullet.t :=
  match count with
  | O => []
  | S count' =>
      Bullet.new
        (GameEntity.x (base p) + GameEntity.width (base p) / 2)
        (GameEntity.y (base p) + GameEntity.height (base p) / 2)
        (spreadDirection (direction p) (spreadAngle (Math_random rng)))
        500 (shotgun (weaponDamage p)) "player"
      :: pellets count' (S rng) p
  end.

(** [shoot()] returns the bullets, the player after the call and the number
    of random draws consumed so far. *)
Definition shoot (rng : nat) (p : t) : list Bullet.t * t * nat :=
  if negb (canShoot p) then ([], p, rng)
  else
    let p := set_shootCooldown (shootCooldownMax p) p in
    let p := match slot p (weaponType p) with
             | Some (Finite n) => set_ammo (<[weaponType p := Finite (n - 1)]> (ammo p)) p
             | Some Other => set_other (weaponType p) p
             | Some Infinity => p
             | None => set_other (weaponType p) p
             end in
    let bulletSpeed := 500 in
    let cx := GameEntity.x (base p) + GameEntity.width (base p) / 2 in
    let cy := GameEntity.y (base p) + GameEntity.height (base p) / 2 in
    if (weaponType p =? "pistol")%string then
      ([Bullet.new cx cy (direction p) bulletSpeed (pistol (weaponDamage p)) "player"], p, rng)
    else if (weaponType p =? "shotgun")%string then
      (pellets 5 rng p, p, (rng + 5)%nat)
    else if (weaponType p =? "rifle")%string then
      ([Bullet.new cx cy (direction p) (bulletSpeed * 1.5) (rifle (weaponDamage p)) "player"], p, rng)
    else ([], p, rng).

End WithMath.
End Player.

(** ** entities.ts: Zombie *)

Module Zombie.

Record t := mk {
  base : GameEntity.t;
  speed : Q;
  health : Q;
  damage : Q;
  target : option ref;
  attackCooldown : Q;
  attackCooldownMax : Q;
  type : string
}.

Definition set_base (v : GameEntity.t) (z : t) : t :=
  mk v (speed z) (health z) (damage z) (target z) (attackCooldown z)
     (attackCooldownMax z) (type z).
Definition set_health (v : Q) (z : t) : t :=
  mk (base z) (speed z) v (damage z) (target z) (attackCooldown z)
     (attackCooldownMax z) (type z).
Definition set_attackCooldown (v : Q) (z : t) : t :=
  mk (base z) (speed z) (health z) (damage z) (target z) v
     (attackCooldownMax z) (type z).

Definition new (x y : Q) (type0 : string) : t :=
  let e := GameEntity.new x y 35 35 in
  if (type0 =? "fast")%string then mk e 150 50 5 None 0 1 type0
  else if (type0 =? "tank")%string then mk e 60 200 20 None 0 1 type0
  else mk e 80 100 10 None 0 1 type0.

Definition setTarget (player : ref) (z : t) : t :=
  mk (base z) (speed z) (health z) (damage z) (Some player) (attackCooldown z)
     (attackCooldownMax z) (type z).

Definition takeDamage (amount : Q) (z : t) : t :=
  let z := set_health (health z - amount) z in
  if Qle_bool (health z) 0 then set_base (GameEntity.markForDeletion (base z)) z else z.

Definition getMaxHealth (z : t) : Q :=
  if (type z =? "fast")%string then 50
  else if (type z =? "tank")%string then 200
  else 100.

(** [update] once [this.target] has been read: [targetAt] is the position of
    the target object, [None] when the reference is unset. *)
Definition update `{JSMath} (deltaTime : Q) (targetAt : option (Q * Q)) (z : t) : t :=
  match targetAt with
  | Some (tx, ty) =>
      let e := base z in
      let dir := Vector2D.normalize
                   (Vector2D.new (tx - GameEntity.x e) (ty - GameEntity.y e)) in
      let e := GameEntity.set_x (GameEntity.x e + Vector2D.x dir * speed z * deltaTime) e in
      let e := GameEntity.set_y (GameEntity.y e + Vector2D.y dir * speed z * deltaTime) e in
      let z := set_base e z in
      if Qltb 0 (attackCooldown z)
      then set_attackCooldown (attackCooldown z - deltaTime) z
      else z
  | None => z
  end.

End Zombie.

(** ** entities.ts: Pickup *)

(** [s.split(sep)] for a one-character separator. *)
Fixpoint split (sep : Ascii.ascii) (s : string) : list string :=
  match s with
  | EmptyString => [EmptyString]
  | String c s' =>
      if Ascii.eqb c sep then EmptyString :: split sep s'
      else match split sep s' with
           | seg :: segs => String c seg :: segs
           | [] => [String c EmptyString]
           end
  end.

Module Pickup.

Record t := mk { base : GameEntity.t; type : string; value : Q }.

Definition set_base (v : GameEntity.t) (k : t) : t := mk v (type k) (value k).

Definition new (x y : Q) (type0 : string) (value0 : Q) : t :=
  mk (GameEntity.new x y 20 20) type0 value0.

Definition getType (k : t) : string := type k.
Definition getValue (k : t) : Q := value k.

(** What [onCollision] does to the player it touches. *)
Definition applyEffect (k : t) (p : Player.t) : Player.t :=
  if (type k =? "health")%string then Player.heal (value k) p
  else if String.prefix "ammo_" (type k) then
    match split "_"%char (type k) !! 1%nat with
    | Some weaponType => Player.addAmmo weaponType (value k) p
    | None => p
    end
  else p.

End Pickup.

(** ** entities.ts: Obstacle *)

Module Obstacle.

Record t := mk { base : GameEntity.t }.

Definition new (x y w h : Q) : t := mk (GameEntity.new x y w h).

(** The push-back [onCollision] applies to a player or a zombie, on the
    base-class fields of the two objects. *)
Definition pushBack (this other : GameEntity.t) : GameEntity.t :=
  let overlapX := Qmin (GameEntity.x this + GameEntity.width this - GameEntity.x other)
                       (GameEntity.x other + GameEntity.width other - GameEntity.x this) in
  let overlapY := Qmin (GameEntity.y this + GameEntity.height this - GameEntity.y other)
                       (GameEntity.y other + GameEntity.height other - GameEntity.y this) in
  if Qltb overlapX overlapY then
    if Qltb (GameEntity.x other) (GameEntity.x this)
    then GameEntity.set_x (GameEntity.x other - overlapX) other
    else GameEntity.set_x (GameEntity.x other + overlapX) other
  else
    if Qltb (GameEntity.y other) (GameEntity.y this)
    then GameEntity.set_y (GameEntity.y other - overlapY) other
    else GameEntity.set_y (GameEntity.y other + overlapY) other.

End Obstacle.

(** ** The heap of entity objects *)

Module Entity.

(** An object together with its class ([instanceof] is a match on it). *)
Inductive t :=
| APlayer (p : Player.t)
| AZombie (z : Zombie.t)
| ABullet (b : Bullet.t)
| APickup (k : Pickup.t)
| AnObstacle (o : Obstacle.t).

Definition baseOf (e : t) : GameEntity.t :=
  match e with
  | APlayer p => Player.base p
  | AZombie z => Zombie.base z
  | ABullet b => Bullet.base b
  | APickup k => Pickup.base k
  | AnObstacle o => Obstacle.base o
  end.

Definition withBase (v : GameEntity.t) (e : t) : t :=
  match e with
  | APlayer p => APlayer (Player.set_base v p)
  | AZombie z => AZombie (Zombie.set_base v z)
  | ABullet b => ABullet (Bullet.set_base v b)
  | APickup k => APickup (Pickup.set_base v k)
  | AnObstacle _ => AnObstacle (Obstacle.mk v)
  end.

(** The heap: the objects by address. *)
#[local] Abbreviation Heap := (list t) (only parsing).

(** [new C(...)]: the object is stored at a fresh address. *)
Definition alloc (e : t) (h : Heap) : ref * Heap := (length h, h ++ [e]).

(** [entity.isMarkedForDeletion()] through a reference. *)
Definition isMarked (h : Heap) (a : ref) : bool :=
  match h !! a with
  | Some e => GameEntity.isMarkedForDeletion (baseOf e)
  | None => false
  end.

(** [entity.onCollision(other)], dispatched on the class of [self]. *)
Definition onCollision (self other : ref) (h : Heap) : Heap :=
  match h !! self, h !! other with
  | Some (APlayer p), Some (AZombie _) =>
      <[self := APlayer (Player.takeDamage 10 p)]> h
  | Some (AZombie z), Some (APlayer _) =>
      if Qle_bool (Zombie.attackCooldown z) 0 then
        let h := match Zombie.target z with
                 | Some t =>
                     match h !! t with
                     | Some (APlayer tp) =>
                         <[t := APlayer (Player.takeDamage (Zombie.damage z) tp)]> h
                     | _ => h
                     end
                 | None => h
                 end in
        <[self := AZombie (Zombie.set_attackCooldown (Zombie.attackCooldownMax z) z)]> h
      else h
  | Some (AZombie z), Some (ABullet b) =>
      if (Bullet.getSource b =? "player")%string
      then <[self := AZombie (Zombie.takeDamage (Bullet.getDamage b) z)]> h
      else h
  | Some (ABullet b), Some (AZombie _) =>
      if (Bullet.source b =? "player")%string
      then <[self := ABullet (Bullet.set_base (GameEntity.markForDeletion (Bullet.base b)) b)]> h
      else h
  | Some (ABullet b), Some (APlayer _) =>
      if (Bullet.source b =? "enemy")%string
      then <[self := ABullet (Bullet.set_base (GameEntity.markForDeletion (Bullet.base b)) b)]> h
      else h
  | Some (APickup k), Some (APlayer p) =>
      let h := <[other := APlayer (Pickup.applyEffect k p)]> h in
      <[self := APickup (Pickup.set_base (GameEntity.markForDeletion (Pickup.base k)) k)]> h
  | Some (AnObstacle o), Some (APlayer p) =>
      <[other := APlayer (Player.set_base (Obstacle.pushBack (Obstacle.base o) (Player.base p)) p)]> h
  | Some (AnObstacle o), Some (AZombie z) =>
      <[other := AZombie (Zombie.set_base (Obstacle.pushBack (Obstacle.base o) (Zombie.base z)) z)]> h
  | Some (AnObstacle o), Some (ABullet b) =>
      <[other := ABullet (Bullet.set_base (GameEntity.markForDeletion (Bullet.base b)) b)]> h
  | _, _ => h
  end.

(** [entity.update(deltaTime)], dispatched on the class of [self]. *)
Definition update `{JSMath} (self : ref) (deltaTime : Q) (h : Heap) : Heap :=
  match h !! self with
  | Some (APlayer p) => <[self := APlayer (Player.update deltaTime p)]> h
  | Some (AZombie z) =>
      let targetAt :=
        match Zombie.target z with
        | Some t =>
            match h !! t with
            | Some e => Some (GameEntity.x (baseOf e), GameEntity.y (baseOf e))
            | None => None
            end
        | None => None
        end in
      <[self := AZombie (Zombie.update deltaTime targetAt z)]> h
  | Some (ABullet b) => <[self := ABullet (Bullet.update deltaTime b)]> h
  | Some (APickup _) => h
  | Some (AnObstacle _) => h
  | None => h
  end.

End Entity.

Export Entity (APlayer, AZombie, ABullet, APickup, AnObstacle).

Abbreviation Heap := (list Entity.t).

(** ** What a frame does to the outside world *)

Inductive Screen := LoadingScreen | TitleScreen | PauseScreen | GameOverScreen | UI.

Inductive Event :=
| OnCollision (self other : ref)       (* self.onCollision(other) was called *)
| Updated (self : ref) (deltaTime : Q) (* self.update(deltaTime) was called *)
| ClearCanvas                          (* ctx.clearRect over the whole canvas *)
| Rendered (self : ref)                (* self.render(ctx) was called *)
| Drawn (s : Screen)                   (* one of the director's screens was drawn *)
| PlaySound (key : string).

(** ** engine.ts: GameEngine *)

Module GameEngine.

Record t := mk {
  lastTimestamp : Q;
  entities : list ref;
  gameLoopId : option nat;
  isPaused : bool
}.

Definition set_lastTimestamp (v : Q) (g : t) : t :=
  mk v (entities g) (gameLoopId g) (isPaused g).
Definition set_entities (v : list ref) (g : t) : t :=
  mk (lastTimestamp g) v (gameLoopId g) (isPaused g).
Definition set_gameLoopId (v : option nat) (g : t) : t :=
  mk (lastTimestamp g) (entities g) v (isPaused g).
Definition set_isPaused (v : bool) (g : t) : t :=
  mk (lastTimestamp g) (entities g) (gameLoopId g) v.

Definition new : t := mk 0 [] None false.

Definition addEntity (entity : ref) (g : t) : t :=
  set_entities (entities g ++ [entity]) g.

(** [indexOf] then [splice(index, 1)]: the first occurrence goes. *)
Fixpoint removeFirst (entity : ref) (l : list ref) : list ref :=
  match l with
  | [] => []
  | a :: l' => if Nat.eqb a entity then l' else a :: removeFirst entity l'
  end.

Definition removeEntity (entity : ref) (g : t) : t :=
  set_entities (removeFirst entity (entities g)) g.

Definition pause (g : t) : t := set_isPaused true g.

(** [now] is the value of [performance.now()]. *)
Definition resume (now : Q) (g : t) : t :=
  if isPaused g then set_lastTimestamp now (set_isPaused false g) else g.

Definition stop (g : t) : t :=
  match gameLoopId g with
  | Some _ => set_gameLoopId None g
  | None => g
  end.

Definition isColliding (entityA entityB : GameEntity.t) : bool :=
  Qltb (GameEntity.x entityA) (GameEntity.x entityB + GameEntity.width entityB) &&
  Qltb (GameEntity.x entityB) (GameEntity.x entityA + GameEntity.width entityA) &&
  Qltb (GameEntity.y entityA) (GameEntity.y entityB + GameEntity.height entityB) &&
  Qltb (GameEntity.y entityB) (GameEntity.y entityA + GameEntity.height entityA).

(** [isColliding] on two references. *)
Definition overlapping (h : Heap) (a b : ref) : bool :=
  match h !! a, h !! b with
  | Some ea, Some eb => isColliding (Entity.baseOf ea) (Entity.baseOf eb)
  | _, _ => false
  end.

(** The body of the inner loop of [checkCollisions] for one pair; next to
    the heap it returns the calls it made, as (receiver, argument). *)
Definition collide (pair : ref * ref) (h : Heap) : Heap * list (ref * ref) :=
  let '(a, b) := pair in
  if overlapping h a b
  then (Entity.onCollision b a (Entity.onCollision a b h), [(a, b); (b, a)])
  else (h, []).

(** The pairs [(entities[i], entities[j])], [i < j], in the order of the two
    nested loops. *)
Fixpoint pairsOf (entities : list ref) : list (ref * ref) :=
  match entities with
  | [] => []
  | a :: rest => map (pair a) rest ++ pairsOf rest
  end.

(** The pairs are handled one after the other, each on the heap the
    previous ones left. *)
Fixpoint collideAll (pairs : list (ref * ref)) (h : Heap) : Heap * list (ref * ref) :=
  match pairs with
  | [] => (h, [])
  | p :: pairs' =>
      let '(h1, calls1) := collide p h in
      let '(h2, calls2) := collideAll pairs' h1 in
      (h2, calls1 ++ calls2)
  end.

Definition checkCollisions (g : t) (h : Heap) : Heap * list (ref * ref) :=
  collideAll (pairsOf (entities g)) h.

Section WithMath.
Context `{JSMath}.

(** The update pass: [entity.update(deltaTime)] for every entity of the list. *)
Fixpoint updateAll (l : list ref) (deltaTime : Q) (h : Heap) : Heap :=
  match l with
  | [] => h
  | a :: l' => updateAll l' deltaTime (Entity.update a deltaTime h)
  end.

(** [update] as the class defines it: collisions, update pass, prune. *)
Definition update (deltaTime : Q) (s : t * Heap) : t * Heap * list Event :=
  let '(g, h) := s in
  let '(h, calls) := checkCollisions g h in
  let h' := updateAll (entities g) deltaTime h in
  let g' := set_entities (filter (fun a => Entity.isMarked h' a = false) (entities g)) g in
  (g', h',
   map (fun c => OnCollision (fst c) (snd c)) calls
   ++ map (fun a => Updated a deltaTime) (entities g)).

End WithMath.

Definition render (g : t) : list Event :=
  ClearCanvas :: map Rendered (entities g).

(** [gameLoop(timestamp)] over a state [S] that holds the engine.  [handle] is
    what [requestAnimationFrame] returns.  The [update] method is looked up
    on the engine object at the call, so it is a parameter here: the class's
    own [update] at first, the director's replacement after
    [setupEventListeners]. *)
Definition gameLoop {S : Type} (engineOf : S -> t) (withEngine : t -> S -> S)
    (update : Q -> S -> S) (render : S -> S)
    (handle : nat) (timestamp : Q) (s : S) : S :=
  let s := withEngine (set_gameLoopId (Some handle) (engineOf s)) s in
  if isPaused (engineOf s) then s
  else
    let deltaTime := (timestamp - lastTimestamp (engineOf s)) / 1000 in
    let s := withEngine (set_lastTimestamp timestamp (engineOf s)) s in
    render (update deltaTime s).

End GameEngine.

(** ** engine.ts: InputHandler *)

Module InputHandler.

Record t := mk {
  keys : gmap string bool;
  mousePosition : Vector2D.t;
  mouseButtons : gmap nat bool
}.

Definition new : t := mk ∅ Vector2D.zero ∅.

(** The listeners the constructor installs. *)
Definition keydown (key : string) (i : t) : t :=
  mk (<[key := true]> (keys i)) (mousePosition i) (mouseButtons i).
Definition keyup (key : string) (i : t) : t :=
  mk (<[key := false]> (keys i)) (mousePosition i) (mouseButtons i).
Definition mousemove (x y : Q) (i : t) : t :=
  mk (keys i) (Vector2D.new x y) (mouseButtons i).
Definition mousedown (button : nat) (i : t) : t :=
  mk (keys i) (mousePosition i) (<[button := true]> (mouseButtons i)).
Definition mouseup (button : nat) (i : t) : t :=
  mk (keys i) (mousePosition i) (<[button := false]> (mouseButtons i)).

Definition isKeyDown (key : string) (i : t) : bool :=
  match keys i !! key with Some true => true | _ => false end.
Definition isMouseButtonDown (button : nat) (i : t) : bool :=
  match mouseButtons i !! button with Some true => true | _ => false end.
Definition getMousePosition (i : t) : Vector2D.t := mousePosition i.
Definition resetMouseButton (button : nat) (i : t) : t :=
  mk (keys i) (mousePosition i) (<[button := false]> (mouseButtons i)).

End InputHandler.

(** ** game.ts: ZombieShooterGame *)

Inductive GameState := loading | title | playing | paused | gameOver.

Module ZombieShooterGame.

Record t := mk {
  engine : GameEngine.t;
  input : InputHandler.t;
  player : option ref;
  score : Q;
  wave : Z;
  zombiesRemaining : Z;
  spawnCooldown : Q;
  gameState : GameState;
  waveDelay : Q;
  waveTimer : Q;
  pickupSpawnTimer : Q;
  pickupSpawnInterval : Q;
  mapWidth : Q;
  mapHeight : Q;
  obstacles : list ref
}.

Definition set_engine (v : GameEngine.t) (g : t) : t :=
  mk v (input g) (player g) (score g) (wave g) (zombiesRemaining g) (spawnCooldown g)
     (gameState g) (waveDelay g) (waveTimer g) (pickupSpawnTimer g)
     (pickupSpawnInterval g) (mapWidth g) (mapHeight g) (obstacles g).
Definition set_input (v : InputHandler.t) (g : t) : t :=
  mk (engine g) v (player g) (score g) (wave g) (zombiesRemaining g) (spawnCooldown g)
     (gameState g) (waveDelay g) (waveTimer g) (pickupSpawnTimer g)
     (pickupSpawnInterval g) (mapWidth g) (mapHeight g) (obstacles g).
Definition set_player (v : option ref) (g : t) : t :=
  mk (engine g) (input g) v (score g) (wave g) (zombiesRemaining g) (spawnCooldown g)
     (gameState g) (waveDelay g) (waveTimer g) (pickupSpawnTimer g)
     (pickupSpawnInterval g) (mapWidth g) (mapHeight g) (obstacles g).
Definition set_score (v : Q) (g : t) : t :=
  mk (engine g) (input g) (player g) v (wave g) (zombiesRemaining g) (spawnCooldown g)
     (gameState g) (waveDelay g) (waveTimer g) (pickupSpawnTimer g)
     (pickupSpawnInterval g) (mapWidth g) (mapHeight g) (obstacles g).
Definition set_wave (v : Z) (g : t) : t :=
  mk (engine g) (input g) (player g) (score g) v (zombiesRemaining g) (spawnCooldown g)
     (gameState g) (waveDelay g) (waveTimer g) (pickupSpawnTimer g)
     (pickupSpawnInterval g) (mapWidth g) (mapHeight g) (obstacles g).
Definition set_zombiesRemaining (v : Z) (g : t) : t :=
  mk (engine g) (input g) (player g) (score g) (wave g) v (spawnCooldown g)
     (gameState g) (waveDelay g) (waveTimer g) (pickupSpawnTimer g)
     (pickupSpawnInterval g) (mapWidth g) (mapHeight g) (obstacles g).
Definition set_spawnCooldown (v : Q) (g : t) : t :=
  mk (engine g) (input g) (player g) (score g) (wave g) (zombiesRemaining g) v
     (gameState g) (waveDelay g) (waveTimer g) (pickupSpawnTimer g)
     (pickupSpawnInterval g) (mapWidth g) (mapHeight g) (obstacles g).
Definition set_gameState (v : GameState) (g : t) : t :=
  mk (engine g) (input g) (player g) (score g) (wave g) (zombiesRemaining g) (spawnCooldown g)
     v (waveDelay g) (waveTimer g) (pickupSpawnTimer g)
     (pickupSpawnInterval g) (mapWidth g) (mapHeight g) (obstacles g).
Definition set_waveTimer (v : Q) (g : t) : t :=
  mk (engine g) (input g) (player g) (score g) (wave g) (zombiesRemaining g) (spawnCooldown g)
     (gameState g) (waveDelay g) v (pickupSpawnTimer g)
     (pickupSpawnInterval g) (mapWidth g) (mapHeight g) (obstacles g).
Definition set_pickupSpawnTimer (v : Q) (g : t) : t :=
  mk (engine g) (input g) (player g) (score g) (wave g) (zombiesRemaining g) (spawnCooldown g)
     (gameState g) (waveDelay g) (waveTimer g) v
     (pickupSpawnInterval g) (mapWidth g) (mapHeight g) (obstacles g).
Definition set_obstacles (v : list ref) (g : t) : t :=
  mk (engine g) (input g) (player g) (score g) (wave g) (zombiesRemaining g) (spawnCooldown g)
     (gameState g) (waveDelay g) (waveTimer g) (pickupSpawnTimer g)
     (pickupSpawnInterval g) (mapWidth g) (mapHeight g) v.

(** The field initialisers and the constructor, for a canvas of the given
    size, before [init] has run. *)
Definition new (canvasWidth canvasHeight : Q) : t :=
  mk GameEngine.new InputHandler.new None 0 1 0 0 loading 5 0 0 15
     canvasWidth canvasHeight [].

(** The whole program state: the objects, the director (which holds the
    engine and the input handler), the number of [Math.random()] calls made
    so far, and everything drawn or played so far. *)
Record World := mkWorld {
  heap : Heap;
  game : t;
  rng : nat;
  trace : list Event
}.

Definition set_heap (v : Heap) (w : World) : World := mkWorld v (game w) (rng w) (trace w).
Definition set_game (v : t) (w : World) : World := mkWorld (heap w) v (rng w) (trace w).
Definition set_rng (v : nat) (w : World) : World := mkWorld (heap w) (game w) v (trace w).
Definition emit (evs : list Event) (w : World) : World :=
  mkWorld (heap w) (game w) (rng w) (trace w ++ evs).

Definition engineOf (w : World) : GameEngine.t := engine (game w).
Definition withEngine (v : GameEngine.t) (w : World) : World := set_game (set_engine v (game w)) w.

(** [this.engine.addEntity(new C(...))] *)
Definition spawn (e : Entity.t) (w : World) : ref * World :=
  let '(a, h) := Entity.alloc e (heap w) in
  (a, withEngine (GameEngine.addEntity a (engineOf w)) (set_heap h w)).

(** [this.assets.playSound(key, ...)] *)
Definition playSound (key : string) (w : World) : World := emit [PlaySound key] w.

Definition startWave (w : World) : World :=
  let g := game w in
  let baseZombies := 5%Z in
  let zombiesPerWave := Qfloor (inject_Z baseZombies + inject_Z (wave g) * 2) in
  set_game (set_spawnCooldown 0 (set_zombiesRemaining zombiesPerWave g)) w.

Section WithMath.
Context `{JSMath}.

(** One [Math.random()] call. *)
Definition random (w : World) : Q * World := (Math_random (rng w), set_rng (S (rng w)) w).

(** [new Obstacle(...)], added to the engine and pushed on [this.obstacles]. *)
Definition placeObstacle (x y width height : Q) (w : World) : World :=
  let '(a, w) := spawn (AnObstacle (Obstacle.new x y width height)) w in
  set_game (set_obstacles (obstacles (game w) ++ [a]) (game w)) w.

(** The loop that adds the random obstacles, [count] iterations. *)
Fixpoint randomObstacles (count : nat) (wallThickness : Q) (w : World) : World :=
  match count with
  | O => w
  | S count' =>
      let g := game w in
      let '(r1, w) := random w in
      let width := r1 * 80 + 40 in
      let '(r2, w) := random w in
      let height := r2 * 80 + 40 in
      let '(r3, w) := random w in
      let x := r3 * (mapWidth g - width - 2 * wallThickness) + wallThickness in
      let '(r4, w) := random w in
      let y := r4 * (mapHeight g - height - 2 * wallThickness) + wallThickness in
      let playerBuffer := 100 in
      let playerCenterX := mapWidth g / 2 in
      let playerCenterY := mapHeight g / 2 in
      if Qltb (playerCenterX - playerBuffer) x && Qltb x (playerCenterX + playerBuffer) &&
         Qltb (playerCenterY - playerBuffer) y && Qltb y (playerCenterY + playerBuffer)
      then randomObstacles count' wallThickness w
      else randomObstacles count' wallThickness (placeObstacle x y width height w)
  end.

Definition createObstacles (w : World) : World :=
  let w := set_game (set_obstacles [] (game w)) w in
  let g := game w in
  let wallThickness := 20 in
  let w := placeObstacle 0 0 (mapWidth g) wallThickness w in
  let w := placeObstacle 0 (mapHeight g - wallThickness) (mapWidth g) wallThickness w in
  let w := placeObstacle 0 0 wallThickness (mapHeight g) w in
  let w := placeObstacle (mapWidth g - wallThickness) 0 wallThickness (mapHeight g) w in
  randomObstacles 5 wallThickness w.

Definition startGame (w : World) : World :=
  let g := game w in
  let g := set_pickupSpawnTimer 0 (set_waveTimer 0 (set_wave 1 (set_score 0 g))) in
  let g := set_engine (GameEngine.set_entities [] (engine g)) g in
  let w := set_game g w in
  let '(p, w) := spawn (APlayer (Player.new (mapWidth g / 2 - 20) (mapHeight g / 2 - 20))) w in
  let w := set_game (set_player (Some p) (game w)) w in
  let w := createObstacles w in
  let w := startWave w in
  set_game (set_gameState playing (game w)) w.

(** A method call on the player object behind a reference. *)
Definition onPlayer (f : Player.t -> Player.t) (a : ref) (w : World) : World :=
  match heap w !! a with
  | Some (APlayer p) => set_heap (<[a := APlayer (f p)]> (heap w)) w
  | _ => w
  end.

(** [for (const bullet of bullets) this.engine.addEntity(bullet)] *)
Fixpoint addBullets (bullets : list Bullet.t) (w : World) : World :=
  match bullets with
  | [] => w
  | b :: bullets' => addBullets bullets' (snd (spawn (ABullet b) w))
  end.

Definition handlePlayerInput (deltaTime : Q) (w : World) : World :=
  match player (game w) with
  | None => w
  | Some a =>
      let i := input (game w) in
      let down k := InputHandler.isKeyDown k i in
      let my := if down "w" || down "ArrowUp" then -1 else 0 in
      let my := if down "s" || down "ArrowDown" then 1 else my in
      let mx := if down "a" || down "ArrowLeft" then -1 else 0 in
      let mx := if down "d" || down "ArrowRight" then 1 else mx in
      let w := if negb (Qeq_bool mx 0) || negb (Qeq_bool my 0)
               then onPlayer (Player.move (Vector2D.new mx my) deltaTime) a w
               else w in
      let mousePos := InputHandler.getMousePosition i in
      let aim (p : Player.t) :=
        let e := Player.base p in
        let playerCenterX := GameEntity.x e + GameEntity.width e / 2 in
        let playerCenterY := GameEntity.y e + GameEntity.height e / 2 in
        Player.setDirection
          (Vector2D.new (Vector2D.x mousePos - playerCenterX)
                        (Vector2D.y mousePos - playerCenterY)) p in
      let w := onPlayer aim a w in
      let w :=
        match heap w !! a with
        | Some (APlayer p) =>
            if InputHandler.isMouseButtonDown 0 i && Player.canShoot p then
              let '(bullets, p, n) := Player.shoot (rng w) p in
              let w := set_rng n (set_heap (<[a := APlayer p]> (heap w)) w) in
              let w := addBullets bullets w in
              let weaponType := Player.getWeaponType p in
              let w := if (weaponType =? "pistol")%string then playSound "shoot_pistol" w
                       else if (weaponType =? "shotgun")%string then playSound "shoot_shotgun" w
                       else if (weaponType =? "rifle")%string then playSound "shoot_rifle" w
                       else w in
              set_game (set_input (InputHandler.resetMouseButton 0 (input (game w))) (game w)) w
            else w
        | _ => w
        end in
      if down "1" then onPlayer (Player.switchWeapon "pistol") a w
      else if down "2" then onPlayer (Player.switchWeapon "shotgun") a w
      else if down "3" then onPlayer (Player.switchWeapon "rifle") a w
      else w
  end.

Definition spawnZombie (w : World) : World :=
  match player (game w) with
  | None => w
  | Some thePlayer =>
      let g := game w in
      let '(rand, w) := random w in
      let zombieType :=
        if (3 <=? wave g)%Z && Qltb rand 0.2 then "fast"
        else if (5 <=? wave g)%Z && Qltb rand 0.1 then "tank"
        else "normal" in
      let '(r, w) := random w in
      let spawnSide := Qfloor (r * 4) in
      let buffer := 50 in
      let '(x, y, w) :=
        match spawnSide with
        | 0%Z => let '(r, w) := random w in (r * mapWidth g, - buffer, w)
        | 1%Z => let '(r, w) := random w in (mapWidth g + buffer, r * mapHeight g, w)
        | 2%Z => let '(r, w) := random w in (r * mapWidth g, mapHeight g + buffer, w)
        | 3%Z => let '(r, w) := random w in (- buffer, r * mapHeight g, w)
        | _ => (0, 0, w)
        end in
      let zombie := Zombie.setTarget thePlayer (Zombie.new x y zombieType) in
      snd (spawn (AZombie zombie) w)
  end.

Definition updateZombieSpawning (deltaTime : Q) (w : World) : World :=
  let g := game w in
  if Qltb 0 (spawnCooldown g) then
    set_game (set_spawnCooldown (spawnCooldown g - deltaTime) g) w
  else if (0 <? zombiesRemaining g)%Z then
    let w := spawnZombie w in
    let g := game w in
    let g := set_zombiesRemaining (zombiesRemaining g - 1) g in
    set_game (set_spawnCooldown (1.5 - Qmin 1.3 (inject_Z (wave g) * 0.1)) g) w
  else w.

(** The test of the pickup placement loop against one obstacle. *)
Definition pickupOverlaps (h : Heap) (x y : Q) (obstacle : ref) : bool :=
  match h !! obstacle with
  | Some o =>
      let e := Entity.baseOf o in
      Qltb x (GameEntity.x e + GameEntity.width e) && Qltb (GameEntity.x e) (x + 20) &&
      Qltb y (GameEntity.y e + GameEntity.height e) && Qltb (GameEntity.y e) (y + 20)
  | None => false
  end.

(** The placement loop with [attemptsLeft = maxAttempts - attempts]; it is
    entered with [validPosition = false]. *)
Fixpoint placePickup (attemptsLeft : nat) (x y : Q) (w : World) : option (Q * Q) * World :=
  match attemptsLeft with
  | O => (None, w)
  | S attemptsLeft' =>
      if existsb (pickupOverlaps (heap w) x y) (obstacles (game w)) then
        let g := game w in
        let wallBuffer := 40 in
        let '(r1, w) := random w in
        let x := r1 * (mapWidth g - 2 * wallBuffer) + wallBuffer in
        let '(r2, w) := random w in
        let y := r2 * (mapHeight g - 2 * wallBuffer) + wallBuffer in
        placePickup attemptsLeft' x y w
      else (Some (x, y), w)
  end.

(** [Math.random()] is below 1, so that the index is one of the array; for
    a draw outside of that contract nothing is spawned here. *)
Definition spawnPickup (w : World) : World :=
  let g := game w in
  let pickupTypes := ["health"; "ammo_pistol"; "ammo_shotgun"; "ammo_rifle"] in
  let '(r, w) := random w in
  let index := Qfloor (r * 4) in
  match (if (0 <=? index)%Z then pickupTypes !! Z.to_nat index else None) with
  | None => w
  | Some type =>
      let value :=
        if (type =? "health")%string then 25
        else if (type =? "ammo_pistol")%string then 15
        else if (type =? "ammo_shotgun")%string then 5
        else if (type =? "ammo_rifle")%string then 10
        else 0 in
      let wallBuffer := 40 in
      let '(r1, w) := random w in
      let x := r1 * (mapWidth g - 2 * wallBuffer) + wallBuffer in
      let '(r2, w) := random w in
      let y := r2 * (mapHeight g - 2 * wallBuffer) + wallBuffer in
      match placePickup 10 x y w with
      | (None, w) => w
      | (Some (x, y), w) => snd (spawn (APickup (Pickup.new x y type value)) w)
      end
  end.

Definition updatePickupSpawning (deltaTime : Q) (w : World) : World :=
  let g := set_pickupSpawnTimer (pickupSpawnTimer (game w) + deltaTime) (game w) in
  let w := set_game g w in
  if Qle_bool (pickupSpawnInterval g) (pickupSpawnTimer g) then
    let w := spawnPickup w in
    set_game (set_pickupSpawnTimer 0 (game w)) w
  else w.

Definition renderUI (w : World) : World := emit [Drawn UI] w.

Definition update (deltaTime : Q) (w : World) : World :=
  match player (game w) with
  | None => w
  | Some thePlayer =>
      let w := handlePlayerInput deltaTime w in
      let w :=
        if (zombiesRemaining (game w) <=? 0)%Z then
          let g := game w in
          let w := set_game (set_waveTimer (waveTimer g + deltaTime) g) w in
          if Qle_bool (waveDelay (game w)) (waveTimer (game w)) then
            let w := set_game (set_wave (wave (game w) + 1) (game w)) w in
            let w := startWave w in
            set_game (set_waveTimer 0 (game w)) w
          else w
        else updateZombieSpawning deltaTime w in
      let w := updatePickupSpawning deltaTime w in
      let w := if Entity.isMarked (heap w) thePlayer
               then set_game (set_gameState gameOver (game w)) w
               else w in
      let w := if InputHandler.isKeyDown "Escape" (input (game w))
               then withEngine (GameEngine.pause (engineOf w))
                               (set_game (set_gameState paused (game w)) w)
               else w in
      renderUI w
  end.

Definition handleTitleScreenInput (w : World) : World :=
  if InputHandler.isMouseButtonDown 0 (input (game w)) then
    let w := startGame w in
    set_game (set_input (InputHandler.resetMouseButton 0 (input (game w))) (game w)) w
  else w.

(** [now] is the value of [performance.now()] that [resume] reads. *)
Definition handlePauseScreenInput (now : Q) (w : World) : World :=
  if InputHandler.isKeyDown "Escape" (input (game w)) then
    withEngine (GameEngine.resume now (engineOf w))
               (set_game (set_gameState playing (game w)) w)
  else if InputHandler.isMouseButtonDown 0 (input (game w)) then
    let w := startGame w in
    let w := withEngine (GameEngine.resume now (engineOf w)) w in
    set_game (set_input (InputHandler.resetMouseButton 0 (input (game w))) (game w)) w
  else w.

Definition handleGameOverScreenInput (w : World) : World :=
  if InputHandler.isMouseButtonDown 0 (input (game w)) then
    let w := startGame w in
    set_game (set_input (InputHandler.resetMouseButton 0 (input (game w))) (game w)) w
  else w.

(** The closure [gameLoop] of [setupEventListeners]. *)
Definition gameLoop (now deltaTime : Q) (w : World) : World :=
  match gameState (game w) with
  | loading => emit [Drawn LoadingScreen] w
  | title => handleTitleScreenInput (emit [Drawn TitleScreen] w)
  | playing => update deltaTime w
  | paused => handlePauseScreenInput now (emit [Drawn PauseScreen] w)
  | gameOver => handleGameOverScreenInput (emit [Drawn GameOverScreen] w)
  end.

(** [originalUpdate]: the engine's own [update], bound to the engine. *)
Definition originalUpdate (deltaTime : Q) (w : World) : World :=
  let '(e, h, evs) := GameEngine.update deltaTime (engineOf w, heap w) in
  emit evs (set_heap h (withEngine e w)).

(** The function [setupEventListeners] stores in [this.engine['update']]. *)
Definition overriddenUpdate (now deltaTime : Q) (w : World) : World :=
  gameLoop now deltaTime (originalUpdate deltaTime w).

Definition engineRender (w : World) : World := emit (GameEngine.render (engineOf w)) w.

(** One animation frame once [setupEventListeners] has run: the engine's
    [gameLoop] with the replaced [update]. *)
Definition frame (handle : nat) (now timestamp : Q) (w : World) : World :=
  GameEngine.gameLoop engineOf withEngine (overriddenUpdate now) engineRender
    handle timestamp w.

(** [init()] once the asset promises have settled: [loaded] tells whether
    all of them resolved.  [engine.start()] runs the first [gameLoop] call
    at once, with the engine's own [update]. *)
Definition init (loaded : bool) (handle : nat) (now : Q) (w : World) : World :=
  if loaded then
    let w := set_game (set_gameState title (game w)) w in
    match GameEngine.gameLoopId (engineOf w) with
    | None =>
        let w := withEngine (GameEngine.set_lastTimestamp now (engineOf w)) w in
        GameEngine.gameLoop engineOf withEngine originalUpdate engineRender handle now w
    | Some _ => w
    end
  else set_game (set_gameState title (game w)) w.

End WithMath.

(** [addScore(points)], the one public method of the class. *)
Definition addScore (points : Q) (w : World) : World :=
  set_game (set_score (score (game w) + points) (game w)) w.

(** The world right after [new ZombieShooterGame(canvas)]. *)
Definition newWorld (canvasWidth canvasHeight : Q) : World :=
  mkWorld [] (new canvasWidth canvasHeight) 0 [].

(** What happens between two states of a running game: a DOM event reaches
    one of the input listeners, or the browser runs an animation frame
    (which it does only while one is requested). *)
Inductive Action :=
| KeyDown (key : string)
| KeyUp (key : string)
| MouseMove (x y : Q)
| MouseDown (button : nat)
| MouseUp (button : nat)
| Frame (handle : nat) (now timestamp : Q).

Definition onInput (f : InputHandler.t -> InputHandler.t) (w : World) : World :=
  set_game (set_input (f (input (game w))) (game w)) w.

Definition step `{JSMath} (a : Action) (w : World) : World :=
  match a with
  | KeyDown k => onInput (InputHandler.keydown k) w
  | KeyUp k => onInput (InputHandler.keyup k) w
  | MouseMove x y => onInput (InputHandler.mousemove x y) w
  | MouseDown b => onInput (InputHandler.mousedown b) w
  | MouseUp b => onInput (InputHandler.mouseup b) w
  | Frame handle now timestamp =>
      match GameEngine.gameLoopId (engineOf w) with
      | Some _ => frame handle now timestamp w
      | None => w
      end
  end.

Definition run `{JSMath} (actions : list Action) (w : World) : World :=
  fold_left (fun w a => step a w) actions w.

End ZombieShooterGame.

(** * Vocabulary of the properties *)

(** The centre of the player, where its bullets start. *)
Definition muzzle (p : Player.t) : Q * Q :=
  (GameEntity.x (Player.base p) + GameEntity.width (Player.base p) / 2,
   GameEntity.y (Player.base p) + GameEntity.height (Player.base p) / 2).

(** What a successful [shoot()] does to the player: the cooldown becomes
    [shootCooldownMax], a finite ammo slot loses one round. *)
Definition fired (p : Player.t) : Player.t :=
  let p := Player.set_shootCooldown (Player.shootCooldownMax p) p in
  match Player.ammo p !! Player.weaponType p with
  | Some (Finite n) =>
      Player.set_ammo (<[Player.weaponType p := Finite (n - 1)]> (Player.ammo p)) p
  | _ => p
  end.

(** The cooldown table of [switchWeapon]. *)
Definition cooldownOf (weapon : string) : option Q :=
  if (weapon =? "pistol")%string then Some 0.4
  else if (weapon =? "shotgun")%string then Some 0.8
  else if (weapon =? "rifle")%string then Some 0.15
  else None.


(** The zombie type [spawnZombie] computes from the wave and its first
    random draw, in the order of its two tests. *)
Definition zombieTypeSpawned (wave : Z) (rand : Q) : string :=
  if (3 <=? wave)%Z && Qltb rand 0.2 then "fast"
  else if (5 <=? wave)%Z && Qltb rand 0.1 then "tank"
  else "normal".

(** The zombie type as the specification words it: the tank test comes
    first, the fast test second, both against the same draw. *)
Definition zombieTypeSpecified (wave : Z) (rand : Q) : string :=
  if (5 <=? wave)%Z && Qltb rand 0.1 then "tank"
  else if (3 <=? wave)%Z && Qltb rand 0.2 then "fast"
  else "normal".

(** A call of one of the two methods that write [health]. *)
Inductive HealthCall := TakeDamage (amount : Q) | Heal (amount : Q).

Definition amountOf (c : HealthCall) : Q :=
  match c with TakeDamage a => a | Heal a => a end.

Definition healthCall (c : HealthCall) (p : Player.t) : Player.t :=
  match c with
  | TakeDamage a => Player.takeDamage a p
  | Heal a => Player.heal a p
  end.

(** A sequence of such calls, first call first. *)
Definition healthCalls (cs : list HealthCall) (p : Player.t) : Player.t :=
  fold_left (fun p c => healthCall c p) cs p.

Definition playerMarked (p : Player.t) : bool :=
  GameEntity.isMarkedForDeletion (Player.base p).

(** Health is within bounds, and a player without health is marked. *)
Definition healthInv (p : Player.t) : Prop :=
  0 <= Player.health p /\ Player.health p <= Player.maxHealth p /\
  (Player.health p <= 0 -> playerMarked p = true).

(** The class of an object. *)
Inductive Kind := KPlayer | KZombie | KBullet | KPickup | KObstacle.

Definition kindOf (e : Entity.t) : Kind :=
  match e with
  | APlayer _ => KPlayer
  | AZombie _ => KZombie
  | ABullet _ => KBullet
  | APickup _ => KPickup
  | AnObstacle _ => KObstacle
  end.

Definition isZombie (k : Kind) : bool :=
  match k with KZombie => true | _ => false end.

(** The classes of the objects of a heap, by address. *)
Definition kinds (h : Heap) : list Kind := map kindOf h.

(** How many zombies have been constructed so far. *)
Definition zombiesBuilt (h : Heap) : nat := length (filter (fun k => isZombie k = true) (kinds h)).

(** From [h] to [h']: every object keeps its class, a mark for deletion
    stays, and objects of the classes [added] have been constructed. *)
Definition grows (h h' : Heap) (added : list Kind) : Prop :=
  kinds h' = kinds h ++ added /\
  forall a, Entity.isMarked h a = true -> Entity.isMarked h' a = true.

(** The director with the fields blanked that the per-frame bookkeeping
    writes all the time: the entity list, the mouse buttons and the pickup
    timer.  Two worlds with the same [steady] part agree on every other
    field of the director, the engine and the input handler. *)
Definition steady (w : ZombieShooterGame.World) : ZombieShooterGame.t :=
  let g := ZombieShooterGame.game w in
  let i := ZombieShooterGame.input g in
  ZombieShooterGame.set_pickupSpawnTimer 0
    (ZombieShooterGame.set_input
       (InputHandler.mk (InputHandler.keys i) (InputHandler.mousePosition i) ∅)
       (ZombieShooterGame.set_engine
          (GameEngine.set_entities [] (ZombieShooterGame.engine g)) g)).

(** How often [self.onCollision(other)] occurs among the calls of a
    collision pass. *)
Definition callsOf (self other : ref) (calls : list (ref * ref)) : nat :=
  length (filter (fun c => c = (self, other)) calls).

(** An engine on its own: the state its methods work on, with the events
    produced so far. *)
Definition EngineState : Type := GameEngine.t * Heap * list Event.

(** [gameLoop] with the [update] and [render] methods of the class. *)
Definition engineFrame `{JSMath} (handle : nat) (timestamp : Q) (s : EngineState) : EngineState :=
  GameEngine.gameLoop
    (fun s : EngineState => fst (fst s))
    (fun g (s : EngineState) => (g, snd (fst s), snd s))
    (fun deltaTime (s : EngineState) =>
       let '(g, h, evs) := GameEngine.update deltaTime (fst s) in
       (g, h, snd s ++ evs))
    (fun s : EngineState => (fst s, snd s ++ GameEngine.render (fst (fst s))))
    handle timestamp s.

(** What goes on around an engine between and during frames: its public
    methods are called, the director replaces the entity list by the empty
    one ([startGame]), objects are written to or constructed by their
    owners, and the browser runs a frame. *)
Inductive EngineOp :=
| AddEntity (entity : ref)
| RemoveEntity (entity : ref)
| ClearEntities
| Pause
| Resume (now : Q)
| WriteHeap (h : Heap)
| Tick (handle : nat) (timestamp : Q).

Definition engineOp `{JSMath} (op : EngineOp) (s : EngineState) : EngineState :=
  let '(g, h, evs) := s in
  match op with
  | AddEntity e => (GameEngine.addEntity e g, h, evs)
  | RemoveEntity e => (GameEngine.removeEntity e g, h, evs)
  | ClearEntities => (GameEngine.set_entities [] g, h, evs)
  | Pause => (GameEngine.pause g, h, evs)
  | Resume now => (GameEngine.resume now g, h, evs)
  | WriteHeap h' => (g, h', evs)
  | Tick handle timestamp => engineFrame handle timestamp s
  end.

Definition engineOps `{JSMath} (ops : list EngineOp) (s : EngineState) : EngineState :=
  fold_left (fun s op => engineOp op s) ops s.


(** From [h] to [h'] the heap grows, by [n] zombies among the new objects. *)
Definition builds (n : nat) (h h' : Heap) : Prop :=
  exists added, grows h h' added /\ length (filter (fun k => isZombie k = true) added) = n.

(** From [w] to [w'] the steady part of the director is the same and the
    heap grows by [n] zombies. *)
Definition evolves (n : nat) (w w' : ZombieShooterGame.World) : Prop :=
  steady w' = steady w /\
  builds n (ZombieShooterGame.heap w) (ZombieShooterGame.heap w').

(** The three steps of [ZombieShooterGame.update] that write the control
    fields of the director, each under a name ([update_steps] states that
    [update] is their composition with the helpers). *)
Definition waveStep `{JSMath} (deltaTime : Q) (w : ZombieShooterGame.World) :
    ZombieShooterGame.World :=
  let game := ZombieShooterGame.game in
  let set_game := ZombieShooterGame.set_game in
  if (ZombieShooterGame.zombiesRemaining (game w) <=? 0)%Z then
    let g := game w in
    let w := set_game (ZombieShooterGame.set_waveTimer
                         (ZombieShooterGame.waveTimer g + deltaTime) g) w in
    if Qle_bool (ZombieShooterGame.waveDelay (game w)) (ZombieShooterGame.waveTimer (game w)) then
      let w := set_game (ZombieShooterGame.set_wave
                           (ZombieShooterGame.wave (game w) + 1) (game w)) w in
      let w := ZombieShooterGame.startWave w in
      set_game (ZombieShooterGame.set_waveTimer 0 (game w)) w
    else w
  else ZombieShooterGame.updateZombieSpawning deltaTime w.

Definition deathCheck (thePlayer : ref) (w : ZombieShooterGame.World) :
    ZombieShooterGame.World :=
  if Entity.isMarked (ZombieShooterGame.heap w) thePlayer
  then ZombieShooterGame.set_game
         (ZombieShooterGame.set_gameState gameOver (ZombieShooterGame.game w)) w
  else w.

Definition pauseCheck (w : ZombieShooterGame.World) : ZombieShooterGame.World :=
  if InputHandler.isKeyDown "Escape" (ZombieShooterGame.input (ZombieShooterGame.game w))
  then ZombieShooterGame.withEngine
         (GameEngine.pause (ZombieShooterGame.engineOf w))
         (ZombieShooterGame.set_game
            (ZombieShooterGame.set_gameState paused (ZombieShooterGame.game w)) w)
  else w.

(** The fields that decide which branch a frame takes. *)
Definition control (w : ZombieShooterGame.World) :
    GameState * option ref * gmap string bool * bool :=
  let g := ZombieShooterGame.game w in
  (ZombieShooterGame.gameState g, ZombieShooterGame.player g,
   InputHandler.keys (ZombieShooterGame.input g),
   GameEngine.isPaused (ZombieShooterGame.engine g)).

(** From [w] to [w'] the control fields are the same and the heap grows. *)
Definition proceeds (w w' : ZombieShooterGame.World) : Prop :=
  control w' = control w /\
  exists n, builds n (ZombieShooterGame.heap w) (ZombieShooterGame.heap w').

(** The bookkeeping of a wave: the wave number, the zombies still to spawn,
    the spawn cooldown, the timer between waves and the number of zombies
    constructed so far. *)
Definition waveObs (w : ZombieShooterGame.World) : Z * Z * Q * Q * nat :=
  let g := ZombieShooterGame.game w in
  (ZombieShooterGame.wave g, ZombieShooterGame.zombiesRemaining g,
   ZombieShooterGame.spawnCooldown g, ZombieShooterGame.waveTimer g,
   zombiesBuilt (ZombieShooterGame.heap w)).

(** The start of a frame that runs: [gameLoop] has stored the handle of the
    next frame and the timestamp. *)
Definition stamped (handle : nat) (timestamp : Q) (w : ZombieShooterGame.World) :
    ZombieShooterGame.World :=
  ZombieShooterGame.withEngine
    (GameEngine.set_lastTimestamp timestamp
       (GameEngine.set_gameLoopId (Some handle) (ZombieShooterGame.engineOf w))) w.

(** The [deltaTime] of a frame. *)
Definition frameDelta (timestamp : Q) (w : ZombieShooterGame.World) : Q :=
  (timestamp - GameEngine.lastTimestamp (ZombieShooterGame.engineOf w)) / 1000.

(** The director is only ever in state [paused] with a paused engine. *)
Definition pausedTogether (w : ZombieShooterGame.World) : Prop :=
  ZombieShooterGame.gameState (ZombieShooterGame.game w) = paused ->
  GameEngine.isPaused (ZombieShooterGame.engineOf w) = true.

(** The states the director is in after each action of a run. *)
Fixpoint history `{JSMath} (actions : list ZombieShooterGame.Action)
    (w : ZombieShooterGame.World) : list GameState :=
  match actions with
  | [] => []
  | a :: actions' =>
      let w' := ZombieShooterGame.step a w in
      ZombieShooterGame.gameState (ZombieShooterGame.game w') :: history actions' w'
  end.

Definition GameState_eqb (a b : GameState) : bool :=
  match a, b with
  | loading, loading | title, title | playing, playing
  | paused, paused | gameOver, gameOver => true
  | _, _ => false
  end.

(** How often a sequence of states goes from [from] to [to]. *)
Fixpoint transitions (from to : GameState) (states : list GameState) : nat :=
  match states with
  | a :: (b :: _) as rest =>
      ((if GameState_eqb a from && GameState_eqb b to then 1 else 0)
       + transitions from to rest)%nat
  | _ => 0%nat
  end.


(** ** Sample inputs *)

(** A runtime to evaluate the model on.  The square root is rounded down
    to an integer; cosine and sine are their Taylor polynomials of degree
    two and one. *)
Definition sqrtDown (q : Q) : Q := inject_Z (Z.sqrt (Qfloor q)).

Definition sampleRuntime (draws : nat -> Q) : JSMath :=
  {| Math_sqrt := sqrtDown;
     Math_cos := fun a => 1 - a * a / 2;
     Math_sin := fun a => a;
     Math_random := draws |}.

(** Draws that go through the hundredths of [0, 1). *)
Definition sampleDraws (n : nat) : Q := Z.of_nat ((n * 37 + 11) mod 100) # 100.

(** A game on a canvas of the given size that has been loaded and started
    by a click on the title screen, after its first frame in state
    [playing]. *)
Definition startedGame (runtime : JSMath) (width height : Q) : ZombieShooterGame.World :=
  @ZombieShooterGame.run runtime
    [ZombieShooterGame.MouseDown 0; ZombieShooterGame.Frame 2 16 16]
    (@ZombieShooterGame.init runtime true 1 0 (ZombieShooterGame.newWorld width height)).

(** [count] frames, one every [period] milliseconds after [start]. *)
Fixpoint frames (count : nat) (handle : nat) (start period : Q) : list ZombieShooterGame.Action :=
  match count with
  | O => []
  | S count' =>
      ZombieShooterGame.Frame handle (start + period) (start + period)
      :: frames count' (S handle) (start + period) period
  end.


(** An engine with three entities, and the objects behind them: a player
    that overlaps an obstacle and a zombie. *)
Definition threeEntities : GameEngine.t :=
  GameEngine.addEntity 2%nat (GameEngine.addEntity 1%nat (GameEngine.addEntity 0%nat GameEngine.new)).

Definition threeObjects : Heap :=
  [APlayer (Player.new 100 100);
   AnObstacle (Obstacle.new 120 90 50 200);
   AZombie (Zombie.new 130 110 "normal")].

(** A bullet of the player inside a zombie, and the engine that holds the two. *)
Definition bulletHitsZombie : Heap :=
  [ABullet (@Bullet.new (sampleRuntime sampleDraws) 10 10 (Vector2D.new 1 0) 500 25 "player");
   AZombie (Zombie.new 8 8 "normal")].

Definition twoEntities : GameEngine.t :=
  GameEngine.addEntity 1%nat (GameEngine.addEntity 0%nat GameEngine.new).

(** Start a game and pause it. *)
Definition pausedRun : list ZombieShooterGame.Action :=
  [ZombieShooterGame.MouseDown 0; ZombieShooterGame.Frame 2 16 16; ZombieShooterGame.KeyDown "Escape"; ZombieShooterGame.Frame 3 32 32].

(** Frames, Escape released and pressed again, a click. *)
Definition resumeAttempt : list ZombieShooterGame.Action :=
  [ZombieShooterGame.Frame 4 48 48; ZombieShooterGame.KeyUp "Escape"; ZombieShooterGame.Frame 5 64 64; ZombieShooterGame.KeyDown "Escape"; ZombieShooterGame.Frame 6 80 80; ZombieShooterGame.MouseDown 0;
   ZombieShooterGame.Frame 7 96 96].

(** A started game whose player has 5 health points left and stands in a
    zombie. *)
Definition lastHit : ZombieShooterGame.World :=
  let runtime := sampleRuntime sampleDraws in
  let w := startedGame runtime 800 600 in
  let w := ZombieShooterGame.onPlayer (Player.takeDamage 95) 0%nat w in
  snd (ZombieShooterGame.spawn (AZombie (Zombie.setTarget 0%nat (Zombie.new 380 280 "normal"))) w).

(** Whether a key is held after a sequence of actions, given whether it
    was held before: the last [keydown] or [keyup] for the key decides. *)
Fixpoint keyHeld (key : string) (actions : list ZombieShooterGame.Action) (held : bool) : bool :=
  match actions with
  | [] => held
  | ZombieShooterGame.KeyDown k :: actions' =>
      keyHeld key actions' (if String.eqb k key then true else held)
  | ZombieShooterGame.KeyUp k :: actions' =>
      keyHeld key actions' (if String.eqb k key then false else held)
  | _ :: actions' => keyHeld key actions' held
  end.

(** The frames a browser runs while nothing else happens: handles and
    timestamps. *)
Definition ticks (frames : list (nat * Q)) : list EngineOp :=
  map (fun f => Tick (fst f) (snd f)) frames.

(** A call of one of the methods of [Player] that read or write the
    weapon and its ammunition; pickups add whole rounds. *)
Inductive PlayerCall :=
| CallShoot
| CallSwitchWeapon (weapon : string)
| CallAddAmmo (type : string) (amount : nat)
| CallUpdate (deltaTime : Q).

(** The call, on a player and the number of random draws made so far. *)
Definition playerCall `{JSMath} (c : PlayerCall) (s : Player.t * nat) : Player.t * nat :=
  match c with
  | CallShoot => (snd (fst (Player.shoot (snd s) (fst s))), snd (Player.shoot (snd s) (fst s)))
  | CallSwitchWeapon weapon => (Player.switchWeapon weapon (fst s), snd s)
  | CallAddAmmo type amount =>
      (Player.addAmmo type (inject_Z (Z.of_nat amount)) (fst s), snd s)
  | CallUpdate deltaTime => (Player.update deltaTime (fst s), snd s)
  end.

Definition playerCalls `{JSMath} (cs : list PlayerCall) (s : Player.t * nat) : Player.t * nat :=
  fold_left (fun s c => playerCall c s) cs s.

(** A slot that holds a whole, non-negative number of rounds. *)
Definition wholeRounds (slot : option AmmoCount) : Prop :=
  exists q k, slot = Some (Finite q) /\ q == inject_Z (Z.of_nat k).

(** One of the three names the ammo object is written with. *)
Definition weaponName (name : string) : Prop :=
  name = "pistol"%string \/ name = "shotgun"%string \/ name = "rifle"%string.

(** The ammunition of a player is in order: the pistol has no count, the
    shotgun and the rifle hold whole rounds, any other slot is under a name
    inherited from [Object.prototype] and holds no number, and the weapon
    in hand is one of the three or such a name. *)
Definition ammoInOrder (p : Player.t) : Prop :=
  Player.ammo p !! "pistol" = Some Infinity /\
  wholeRounds (Player.ammo p !! "shotgun") /\
  wholeRounds (Player.ammo p !! "rifle") /\
  (forall key, is_Some (Player.ammo p !! key) ->
     weaponName key \/
     (inherited key = true /\ key <> "__proto__"%string /\
      Player.ammo p !! key = Some Other)) /\
  (weaponName (Player.weaponType p) \/ inherited (Player.weaponType p) = true).

(** The three slots are the only ones and the weapon in hand is one of the
    three. *)
Definition threeWeapons (p : Player.t) : Prop :=
  (forall key, is_Some (Player.ammo p !! key) -> weaponName key) /\
  weaponName (Player.weaponType p).

(** The call names nothing that [Object.prototype] has. *)
Definition plainCall (c : PlayerCall) : Prop :=
  match c with
  | CallSwitchWeapon weapon => inherited weapon = false
  | CallAddAmmo type _ => inherited type = false
  | _ => True
  end.

(** The rounds the calls ask to add, all slots together. *)
Definition roundsAdded (cs : list PlayerCall) : Z :=
  fold_right (fun c total => match c with
                             | CallAddAmmo _ amount => (Z.of_nat amount + total)%Z
                             | _ => total
                             end) 0%Z cs.

(** Whether the character occurs in the string. *)
Fixpoint hasChar (c : Ascii.ascii) (s : string) : bool :=
  match s with
  | EmptyString => false
  | String c' s' => Ascii.eqb c' c || hasChar c s'
  end.

(** [markForDeletion] on a pickup object. *)
Definition taken (k : Pickup.t) : Pickup.t :=
  Pickup.set_base (GameEntity.markForDeletion (Pickup.base k)) k.

(** The sum of a list of numbers. *)
Definition Qsum (l : list Q) : Q := fold_right Qplus 0 l.

(** A number that is whole and not negative.  On such numbers, as long as
    they stay below 2^53, the sums and differences of binary64 are exact. *)
Definition wholeNumber (q : Q) : Prop := exists n : nat, q == inject_Z (Z.of_nat n).

(** A time that is a whole number of 1024ths of a second: a binary
    fraction, which binary64 adds and subtracts without rounding. *)
Definition binaryFraction (q : Q) : Prop :=
  exists n : nat, q == inject_Z (Z.of_nat n) / 1024.

(** A rectangle whose position and size are whole numbers of at most
    2^50 in magnitude, the size not negative. *)
Definition wholeRectangle (e : GameEntity.t) : Prop :=
  exists x y w h : Z,
    (Z.abs x <= 2 ^ 50 /\ Z.abs y <= 2 ^ 50 /\ 0 <= w <= 2 ^ 50 /\ 0 <= h <= 2 ^ 50)%Z /\
    GameEntity.x e == inject_Z x /\ GameEntity.y e == inject_Z y /\
    GameEntity.width e == inject_Z w /\ GameEntity.height e == inject_Z h.

(** [takeDamage] called on a zombie once for each amount, in order. *)
Definition zombieHits (amounts : list Q) (z : Zombie.t) : Zombie.t :=
  fold_left (fun z amount => Zombie.takeDamage amount z) amounts z.

(** A pickup and a player that has come to its state by some calls, on a
    heap. *)
Definition pickupAndPlayer `{JSMath} (k : Pickup.t) (cs : list PlayerCall) : Heap :=
  [APickup k; APlayer (fst (playerCalls cs (Player.new 0 0, 0%nat)))].

(** [update] called on a bullet once for each frame time, in order. *)
Definition bulletFlight (deltaTimes : list Q) (b : Bullet.t) : Bullet.t :=
  fold_left (fun b deltaTime => Bullet.update deltaTime b) deltaTimes b.

(** Whether the push-back of an obstacle moves the other object along x:
    the smaller overlap is the horizontal one. *)
Definition pushedAlongX (this other : GameEntity.t) : bool :=
  Qltb (Qmin (GameEntity.x this + GameEntity.width this - GameEntity.x other)
             (GameEntity.x other + GameEntity.width other - GameEntity.x this))
       (Qmin (GameEntity.y this + GameEntity.height this - GameEntity.y other)
             (GameEntity.y other + GameEntity.height other - GameEntity.y this)).

(** On one axis, the edge of the other object and its centre are on the
    same side of the obstacle's: the edge before the obstacle's edge and
    the centre not after the obstacle's centre, or the edge not before and
    the centre not before. *)
Definition sameSide (edge size edge' size' : Q) : Prop :=
  if Qltb edge edge' then edge + size / 2 <= edge' + size' / 2
  else edge' + size' / 2 <= edge + size / 2.

Definition pushedOutwards (this other : GameEntity.t) : Prop :=
  if pushedAlongX this other
  then sameSide (GameEntity.x other) (GameEntity.width other)
                (GameEntity.x this) (GameEntity.width this)
  else sameSide (GameEntity.y other) (GameEntity.height other)
                (GameEntity.y this) (GameEntity.height this).

(** The damage a zombie deals on contact: its own when its attack is
    ready, next to the 10 the player takes from the contact itself. *)
Definition contactDamage (z : Zombie.t) : Q :=
  10 + (if Qle_bool (Zombie.attackCooldown z) 0 then Zombie.damage z else 0).

(** The rectangle lies outside of the map, beyond one of its four edges. *)
Definition offMap (g : ZombieShooterGame.t) (e : GameEntity.t) : Prop :=
  GameEntity.x e + GameEntity.width e <= 0 \/
  ZombieShooterGame.mapWidth g <= GameEntity.x e \/
  GameEntity.y e + GameEntity.height e <= 0 \/
  ZombieShooterGame.mapHeight g <= GameEntity.y e.

(** The kinds of pickup the director spawns, each with its value. *)
Definition pickupKinds : list (string * Q) :=
  [("health"%string, 25); ("ammo_pistol"%string, 15);
   ("ammo_shotgun"%string, 5); ("ammo_rifle"%string, 10)].

(** The four walls [createObstacles] builds first, in its order: top,
    bottom, left, right. *)
Definition walls (g : ZombieShooterGame.t) : list Obstacle.t :=
  let mapWidth := ZombieShooterGame.mapWidth g in
  let mapHeight := ZombieShooterGame.mapHeight g in
  [Obstacle.new 0 0 mapWidth 20;
   Obstacle.new 0 (mapHeight - 20) mapWidth 20;
   Obstacle.new 0 0 20 mapHeight;
   Obstacle.new (mapWidth - 20) 0 20 mapHeight].

(** The corner of the obstacle is not within 100 of the centre of the map
    on both axes. *)
Definition cornerOutside (mapWidth mapHeight : Q) (o : Obstacle.t) : Prop :=
  ~ (mapWidth / 2 - 100 < GameEntity.x (Obstacle.base o) /\
     GameEntity.x (Obstacle.base o) < mapWidth / 2 + 100 /\
     mapHeight / 2 - 100 < GameEntity.y (Obstacle.base o) /\
     GameEntity.y (Obstacle.base o) < mapHeight / 2 + 100).

(** The world with the obstacles constructed, added to the engine and
    pushed on the director's list, and [n] random draws made. *)
Definition withObstacles (os : list Obstacle.t) (n : nat) (w : ZombieShooterGame.World) :
    ZombieShooterGame.World :=
  let g := ZombieShooterGame.game w in
  let refs := seq (length (ZombieShooterGame.heap w)) (length os) in
  ZombieShooterGame.mkWorld
    (ZombieShooterGame.heap w ++ map AnObstacle os)
    (ZombieShooterGame.set_obstacles (ZombieShooterGame.obstacles g ++ refs)
       (ZombieShooterGame.set_engine
          (GameEngine.set_entities
             (GameEngine.entities (ZombieShooterGame.engine g) ++ refs)
             (ZombieShooterGame.engine g)) g))
    n (ZombieShooterGame.trace w).

(** From [w] to [w'] no object has been constructed and the input handler
    is as it was. *)
Definition still (w w' : ZombieShooterGame.World) : Prop :=
  length (ZombieShooterGame.heap w') = length (ZombieShooterGame.heap w) /\
  ZombieShooterGame.input (ZombieShooterGame.game w')
  = ZombieShooterGame.input (ZombieShooterGame.game w).

(** [markForDeletion] on a bullet object. *)
Definition spent (b : Bullet.t) : Bullet.t :=
  Bullet.set_base (GameEntity.markForDeletion (Bullet.base b)) b.

(** What is on the canvas after the events: the calls since the last
    [clearRect] over the whole canvas. *)
Definition onCanvas (evs : list Event) : list Event :=
  fold_left (fun shown ev => match ev with ClearCanvas => [] | _ => shown ++ [ev] end) evs [].

(** The screen the director draws in a frame, by its state at the start of
    the frame ([renderUI] at the end of [update] while playing). *)
Definition screenOf (state : GameState) : Screen :=
  match state with
  | loading => LoadingScreen
  | title => TitleScreen
  | playing => UI
  | paused => PauseScreen
  | gameOver => GameOverScreen
  end.

(** From [w] to [w'] events have been added to the trace, none taken away. *)
Definition traceGrows (w w' : ZombieShooterGame.World) : Prop :=
  exists evs, ZombieShooterGame.trace w' = ZombieShooterGame.trace w ++ evs.


(** * Properties *)

(** ** Comparisons *)

Lemma Qltb_lt (a b : Q) : Qltb a b = true <-> a < b.
Proof.
  unfold Qltb. rewrite negb_true_iff. split.
  - intros E. apply Qnot_le_lt. intros L. apply Qle_bool_iff in L. congruence.
  - intros L. destruct (Qle_bool b a) eqn:E; [|reflexivity].
    apply Qle_bool_iff in E. exfalso. exact (Qlt_not_le _ _ L E).
Qed.

Lemma Qltb_ge (a b : Q) : Qltb a b = false <-> b <= a.
Proof.
  unfold Qltb. rewrite negb_false_iff. apply Qle_bool_iff.
Qed.

Lemma Qle_bool_gt (a b : Q) : Qle_bool a b = false <-> b < a.
Proof.
  rewrite <- Qltb_lt. unfold Qltb. rewrite negb_true_iff. reflexivity.
Qed.

Lemma Qltb_swap (a b : Q) : Qltb a b = negb (Qle_bool b a).
Proof. reflexivity. Qed.

(** ** Player.shoot *)

Section Shooting.
Context `{JSMath}.

Lemma canShoot_cooldown (p : Player.t) :
  0 < Player.shootCooldown p -> Player.canShoot p = false.
Proof.
  intros L. unfold Player.canShoot.
  apply Qle_bool_gt in L. rewrite L. reflexivity.
Qed.

Lemma canShoot_empty (p : Player.t) (n : Q) :
  Player.ammo p !! Player.weaponType p = Some (Finite n) -> n == 0 ->
  Player.canShoot p = false.
Proof.
  intros E Z. unfold Player.canShoot, Player.slot. rewrite E.
  assert (Qltb 0 n = false) as ->.
  { apply Qltb_ge. rewrite Z. apply Qle_refl. }
  apply andb_false_r.
Qed.

(** C7: with a running cooldown, or with no round left for the weapon in
    hand, [shoot()] returns the empty list and the player is exactly as it
    was: cooldown, ammunition and every other field.  No random number is
    drawn either. *)
Theorem shoot_refused (p : Player.t) (rng : nat) :
  0 < Player.shootCooldown p \/
  (exists n, Player.ammo p !! Player.weaponType p = Some (Finite n) /\ n == 0) ->
  Player.shoot rng p = ([], p, rng).
Proof.
  intros [L | (n & E & Z)]; unfold Player.shoot.
  - rewrite (canShoot_cooldown p L). reflexivity.
  - rewrite (canShoot_empty p n E Z). reflexivity.
Qed.

Lemma fired_weaponType (p : Player.t) : Player.weaponType (fired p) = Player.weaponType p.
Proof. unfold fired. simpl. destruct (Player.ammo p !! Player.weaponType p) as [[|n|]|]; reflexivity. Qed.

Lemma fired_shootCooldown (p : Player.t) :
  Player.shootCooldown (fired p) = Player.shootCooldownMax p.
Proof. unfold fired. simpl. destruct (Player.ammo p !! Player.weaponType p) as [[|n|]|]; reflexivity. Qed.

Lemma fired_base (p : Player.t) : Player.base (fired p) = Player.base p.
Proof. unfold fired. simpl. destruct (Player.ammo p !! Player.weaponType p) as [[|n|]|]; reflexivity. Qed.



(** A weapon that can shoot has a count of its own, or [Infinity]. *)
Lemma canShoot_slot (p : Player.t) :
  Player.canShoot p = true ->
  Player.slot p (Player.weaponType p) = Player.ammo p !! Player.weaponType p /\
  (Player.ammo p !! Player.weaponType p = Some Infinity \/
   exists n, Player.ammo p !! Player.weaponType p = Some (Finite n) /\ 0 < n).
Proof.
  unfold Player.canShoot, Player.slot. intros C. apply andb_true_iff in C as [_ C].
  destruct (Player.ammo p !! Player.weaponType p) as [[|n|]|].
  - split; [reflexivity | left; reflexivity].
  - split; [reflexivity | right; exists n; split; [reflexivity | apply Qltb_lt; exact C]].
  - discriminate.
  - destruct (inherited (Player.weaponType p)); discriminate.
Qed.

(** A successful [shoot()], branch by branch. *)
Lemma shoot_fired (p : Player.t) (rng : nat) :
  Player.canShoot p = true ->
  Player.shoot rng p =
  if (Player.weaponType p =? "pistol")%string then
    ([Bullet.new (fst (muzzle p)) (snd (muzzle p)) (Player.direction p) 500
        (Player.pistol (Player.weaponDamage p)) "player"], fired p, rng)
  else if (Player.weaponType p =? "shotgun")%string then
    (Player.pellets 5 rng (fired p), fired p, (rng + 5)%nat)
  else if (Player.weaponType p =? "rifle")%string then
    ([Bullet.new (fst (muzzle p)) (snd (muzzle p)) (Player.direction p) (500 * 1.5)
        (Player.rifle (Player.weaponDamage p)) "player"], fired p, rng)
  else ([], fired p, rng).
Proof.
  intros C. unfold Player.shoot. rewrite C. simpl negb. cbv iota.
  destruct (canShoot_slot p C) as [S N].
  change (Player.slot (Player.set_shootCooldown (Player.shootCooldownMax p) p)
            (Player.weaponType (Player.set_shootCooldown (Player.shootCooldownMax p) p)))
    with (Player.slot p (Player.weaponType p)).
  rewrite S. unfold fired, muzzle.
  cbn [Player.ammo Player.weaponType Player.set_shootCooldown].
  destruct N as [N|(n & N & _)]; rewrite N;
    cbn [Player.weaponType Player.set_shootCooldown Player.set_ammo Player.base
         Player.direction Player.weaponDamage fst snd].
  all: destruct (Player.weaponType p =? "pistol")%string; [reflexivity|].
  all: destruct (Player.weaponType p =? "shotgun")%string; [reflexivity|].
  all: destruct (Player.weaponType p =? "rifle")%string; reflexivity.
Qed.

Lemma shoot_player (p : Player.t) (rng : nat) :
  Player.canShoot p = true -> snd (fst (Player.shoot rng p)) = fired p.
Proof.
  intros C. rewrite (shoot_fired p rng C).
  destruct (Player.weaponType p =? "pistol")%string; [reflexivity|].
  destruct (Player.weaponType p =? "shotgun")%string; [reflexivity|].
  destruct (Player.weaponType p =? "rifle")%string; reflexivity.
Qed.

(** Every successful [shoot()] leaves [shootCooldownMax] in the cooldown. *)
Lemma shoot_cooldown (p : Player.t) (rng : nat) :
  Player.canShoot p = true ->
  Player.shootCooldown (snd (fst (Player.shoot rng p))) = Player.shootCooldownMax p.
Proof. intros C. rewrite shoot_player by exact C. apply fired_shootCooldown. Qed.

(** After a switch to one of the three weapons, a successful shot leaves
    that weapon's value in the cooldown. *)
Lemma shoot_after_switch (p : Player.t) (weapon : string) (c : Q) (rng : nat) :
  cooldownOf weapon = Some c ->
  is_Some (Player.ammo p !! weapon) ->
  Player.canShoot (Player.switchWeapon weapon p) = true ->
  let p' := snd (fst (Player.shoot rng (Player.switchWeapon weapon p))) in
  Player.weaponType p' = weapon /\ Player.shootCooldown p' = c.
Proof.
  intros T [a E] C. cbv zeta. rewrite shoot_player by exact C.
  rewrite fired_weaponType, fired_shootCooldown.
  unfold Player.switchWeapon, Player.slot, cooldownOf in *. rewrite E in *.
  destruct (weapon =? "pistol")%string; [injection T as <-; split; reflexivity|].
  destruct (weapon =? "shotgun")%string; [injection T as <-; split; reflexivity|].
  destruct (weapon =? "rifle")%string; [injection T as <-; split; reflexivity|].
  discriminate.
Qed.

(** C3, on the code: a player that has just been constructed holds the
    pistol and can shoot, and its first shot leaves 0.2 in the cooldown, the
    initial [shootCooldownMax], not the 0.4 that [switchWeapon('pistol')]
    sets. *)
Theorem fresh_player_cooldown (x y : Q) (rng : nat) :
  let p := Player.new x y in
  let p' := snd (fst (Player.shoot rng p)) in
  Player.canShoot p = true /\
  Player.weaponType p' = "pistol" /\
  cooldownOf (Player.weaponType p') = Some 0.4 /\
  Player.shootCooldown p' = 0.2 /\
  ~ Player.shootCooldown p' == 0.4.
Proof.
  cbv zeta.
  assert (C : Player.canShoot (Player.new x y) = true) by reflexivity.
  rewrite shoot_player by exact C.
  rewrite fired_weaponType, fired_shootCooldown.
  repeat split. simpl. intros E. discriminate E.
Qed.



Lemma spreadAngle_bounds (draw : Q) :
  0 <= draw -> draw < 1 ->
  -0.25 <= Player.spreadAngle draw /\ Player.spreadAngle draw <= 0.25.
Proof. unfold Player.spreadAngle. intros L U. split; lra. Qed.




End Shooting.

(** ** Zombie.onCollision *)

(** C10: a zombie whose [target] is unset and whose attack cooldown has
    run out collides with a player: nothing but the zombie changes, so the
    player takes no damage from the attack, and the zombie's cooldown is
    back at [attackCooldownMax]. *)
Theorem zombie_without_target (h : Heap) (zombie player : ref)
    (z : Zombie.t) (p : Player.t) :
  h !! zombie = Some (AZombie z) ->
  h !! player = Some (APlayer p) ->
  Zombie.target z = None ->
  Zombie.attackCooldown z <= 0 ->
  let h' := Entity.onCollision zombie player h in
  h' = <[zombie := AZombie (Zombie.set_attackCooldown (Zombie.attackCooldownMax z) z)]> h /\
  h' !! player = Some (APlayer p) /\
  exists z', h' !! zombie = Some (AZombie z') /\
             Zombie.attackCooldown z' = Zombie.attackCooldownMax z.
Proof.
  intros Hz Hp T C. cbv zeta.
  assert (N : zombie <> player) by (intros ->; rewrite Hz in Hp; discriminate).
  unfold Entity.onCollision. rewrite Hz, Hp, T.
  apply Qle_bool_iff in C. rewrite C.
  split; [reflexivity|]. split.
  - rewrite list_lookup_insert_ne by exact N. exact Hp.
  - eexists. split.
    + apply list_lookup_insert_eq. apply lookup_lt_Some in Hz. exact Hz.
    + reflexivity.
Qed.

(** ** spawnZombie *)

Section Spawning.
Context `{JSMath}.
Import ZombieShooterGame.

Lemma Zombie_new_type (x y : Q) (ty : string) : Zombie.type (Zombie.new x y ty) = ty.
Proof.
  unfold Zombie.new.
  destruct (ty =? "fast")%string; [reflexivity|].
  destruct (ty =? "tank")%string; reflexivity.
Qed.

(** [spawnZombie] draws two or three random numbers and adds one zombie,
    which targets the player and has the type computed from the first
    draw. *)
Lemma spawnZombie_spawn (w : World) (thePlayer : ref) :
  player (game w) = Some thePlayer ->
  exists x y n,
    (rng w < n)%nat /\
    spawnZombie w =
    snd (spawn (AZombie (Zombie.setTarget thePlayer
                           (Zombie.new x y (zombieTypeSpawned (wave (game w))
                                                              (Math_random (rng w))))))
               (set_rng n w)).
Proof.
  intros P. unfold spawnZombie. rewrite P. unfold random. cbn [rng set_rng game].
  fold (zombieTypeSpawned (wave (game w)) (Math_random (rng w))).
  destruct (Qfloor (Math_random (S (rng w)) * 4)) as [|[[]|[]|]|];
    cbn [rng set_rng game heap]; do 3 eexists; (split; [|reflexivity]); lia.
Qed.

Lemma spawn_heap (e : Entity.t) (w : World) :
  heap (snd (spawn e w)) = heap w ++ [e].
Proof. reflexivity. Qed.

(** C1, on the code: from wave 5 on, a first draw below 0.1 also passes the
    test for a fast zombie, which [spawnZombie] makes first, so that the
    zombie it adds is a fast one where the specified order gives a tank. *)
Theorem spawnZombie_fast_before_tank (w : World) (thePlayer : ref) :
  player (game w) = Some thePlayer ->
  (5 <= wave (game w))%Z ->
  Math_random (rng w) < 0.1 ->
  zombieTypeSpecified (wave (game w)) (Math_random (rng w)) = "tank" /\
  exists z,
    heap (spawnZombie w) = heap w ++ [AZombie z] /\
    Zombie.type z = "fast".
Proof.
  intros P W R. split.
  - unfold zombieTypeSpecified.
    apply Z.leb_le in W. rewrite W.
    apply Qltb_lt in R. rewrite R. reflexivity.
  - destruct (spawnZombie_spawn w thePlayer P) as (x & y & n & _ & ->).
    eexists. split; [rewrite spawn_heap; reflexivity|].
    cbn [Zombie.setTarget Zombie.type]. rewrite Zombie_new_type.
    unfold zombieTypeSpawned.
    assert ((3 <=? wave (game w))%Z = true) as -> by (apply Z.leb_le; lia).
    assert (Qltb (Math_random (rng w)) 0.2 = true) as ->.
    { apply Qltb_lt. eapply Qlt_trans; [exact R|reflexivity]. }
    reflexivity.
Qed.

(** No wave and no draw make [spawnZombie] choose a tank. *)
Lemma zombieTypeSpawned_never_tank (wave : Z) (rand : Q) :
  zombieTypeSpawned wave rand <> "tank".
Proof.
  unfold zombieTypeSpawned.
  destruct (3 <=? wave)%Z eqn:W3, (Qltb rand 0.2) eqn:R2; cbn [andb]; try discriminate.
  - destruct (5 <=? wave)%Z, (Qltb rand 0.1) eqn:R1; cbn [andb]; try discriminate.
    apply Qltb_lt in R1. apply Qltb_ge in R2. exfalso.
    apply (Qlt_not_le _ _ R1). eapply Qle_trans; [|exact R2]. discriminate.
  - destruct (5 <=? wave)%Z eqn:W5; cbn [andb]; try discriminate.
    apply Z.leb_le in W5. apply Z.leb_gt in W3. lia.
  - destruct (5 <=? wave)%Z eqn:W5; cbn [andb]; try discriminate.
    apply Z.leb_le in W5. apply Z.leb_gt in W3. lia.
Qed.

End Spawning.

(** ** Player health *)

Lemma takeDamage_fields (a : Q) (p : Player.t) :
  Player.health (Player.takeDamage a p) = Qmax 0 (Player.health p - a) /\
  Player.maxHealth (Player.takeDamage a p) = Player.maxHealth p /\
  playerMarked (Player.takeDamage a p) =
    (Qle_bool (Qmax 0 (Player.health p - a)) 0 || playerMarked p).
Proof.
  unfold Player.takeDamage, playerMarked. cbn [Player.health Player.set_health].
  destruct (Qle_bool (Qmax 0 (Player.health p - a)) 0); repeat split.
Qed.

Lemma takeDamage_inv (a : Q) (p : Player.t) :
  0 <= a -> healthInv p -> healthInv (Player.takeDamage a p).
Proof.
  intros A (L & U & M). unfold healthInv.
  destruct (takeDamage_fields a p) as (-> & -> & ->).
  destruct (Q.max_spec 0 (Player.health p - a)) as [[C E] | [C E]];
    rewrite E; repeat split; lra.
Qed.

Lemma heal_inv (a : Q) (p : Player.t) :
  0 <= a -> healthInv p -> healthInv (Player.heal a p).
Proof.
  intros A (L & U & M). unfold healthInv, Player.heal, playerMarked in *.
  cbn [Player.health Player.set_health Player.maxHealth Player.base].
  destruct (Q.min_spec (Player.maxHealth p) (Player.health p + a)) as [[C E] | [C E]];
    rewrite E; repeat split; try lra.
  - intros Z. apply M. lra.
  - intros Z. apply M. lra.
Qed.

Lemma healthCalls_inv (cs : list HealthCall) (p : Player.t) :
  Forall (fun c => 0 <= amountOf c) cs -> healthInv p -> healthInv (healthCalls cs p).
Proof.
  unfold healthCalls. revert p. induction cs as [|c cs IH]; intros p F I; [exact I|].
  inversion F as [|c' cs' A F']; subst. cbn [fold_left]. apply IH; [exact F'|].
  destruct c as [a|a]; cbn [healthCall amountOf] in *.
  - apply takeDamage_inv; assumption.
  - apply heal_inv; assumption.
Qed.

Lemma healthCalls_maxHealth (cs : list HealthCall) (p : Player.t) :
  Player.maxHealth (healthCalls cs p) = Player.maxHealth p.
Proof.
  unfold healthCalls. revert p. induction cs as [|c cs IH]; intros p; [reflexivity|].
  cbn [fold_left]. rewrite IH. destruct c as [a|a]; cbn [healthCall].
  - apply takeDamage_fields.
  - reflexivity.
Qed.

(** The two clamps are one-sided: [takeDamage] only bounds health from
    below and [heal] only from above, so that a negative amount takes the
    health out of the range. *)
Lemma negative_damage_exceeds_maxHealth :
  ~ Player.health (healthCalls [TakeDamage (-50)] (Player.new 0 0)) <= 100.
Proof. vm_compute. intros E. apply E. reflexivity. Qed.

(** ** How the heap evolves *)

Lemma grows_refl (h : Heap) : grows h h [].
Proof. split; [symmetry; apply app_nil_r | auto]. Qed.

Lemma grows_trans (h1 h2 h3 : Heap) (a1 a2 : list Kind) :
  grows h1 h2 a1 -> grows h2 h3 a2 -> grows h1 h3 (a1 ++ a2).
Proof.
  intros [K1 M1] [K2 M2]. split.
  - rewrite K2, K1, app_assoc. reflexivity.
  - auto.
Qed.

Lemma grows_nil_trans (h1 h2 h3 : Heap) (a : list Kind) :
  grows h1 h2 [] -> grows h2 h3 a -> grows h1 h3 a.
Proof. intros G1 G2. apply (grows_trans _ _ _ _ _ G1 G2). Qed.

Lemma grows_trans_nil (h1 h2 h3 : Heap) (a : list Kind) :
  grows h1 h2 a -> grows h2 h3 [] -> grows h1 h3 a.
Proof.
  intros G1 G2. rewrite <- (app_nil_r a). apply (grows_trans _ _ _ _ _ G1 G2).
Qed.

Lemma grows_alloc (h : Heap) (e : Entity.t) : grows h (h ++ [e]) [kindOf e].
Proof.
  split.
  - unfold kinds. rewrite map_app. reflexivity.
  - intros a. unfold Entity.isMarked.
    destruct (h !! a) as [x|] eqn:E; [|discriminate].
    rewrite (lookup_app_l_Some _ _ _ _ E). auto.
Qed.

(** An assignment to fields of one object that leaves a mark in place. *)
Lemma grows_insert (h : Heap) (a : ref) (e e' : Entity.t) :
  h !! a = Some e ->
  kindOf e' = kindOf e ->
  (GameEntity.markedForDeletion (Entity.baseOf e) = true ->
   GameEntity.markedForDeletion (Entity.baseOf e') = true) ->
  grows h (<[a := e']> h) [].
Proof.
  intros E K M. split.
  - unfold kinds. rewrite app_nil_r, list_fmap_insert, K, <- (list_fmap_insert kindOf).
    rewrite (list_insert_id _ _ _ E). reflexivity.
  - intros b. unfold Entity.isMarked, GameEntity.isMarkedForDeletion.
    destruct (decide (a = b)) as [<-|N].
    + rewrite E. rewrite list_lookup_insert_eq by (eapply lookup_lt_Some; exact E). exact M.
    + rewrite list_lookup_insert_ne by exact N. auto.
Qed.

(** No method of an entity class clears the mark of its object. *)
Ltac unfold_methods :=
  unfold Player.takeDamage, Player.heal, Player.addAmmo, Player.update, Player.move,
    Player.setDirection, Player.switchWeapon, Player.set_other, Player.slot,
    Pickup.applyEffect, Obstacle.pushBack,
    Zombie.takeDamage, Zombie.update, Bullet.update, fired in *.

Ltac keeps_mark :=
  intros; unfold_methods;
  repeat (cbn in *; try case_match); auto.

Lemma Player_takeDamage_mark (a : Q) (p : Player.t) :
  playerMarked p = true -> playerMarked (Player.takeDamage a p) = true.
Proof. unfold playerMarked. keeps_mark. Qed.

Lemma applyEffect_mark (k : Pickup.t) (p : Player.t) :
  playerMarked (Pickup.applyEffect k p) = playerMarked p.
Proof.
  unfold Pickup.applyEffect.
  destruct (Pickup.type k =? "health")%string; [reflexivity|].
  destruct (String.prefix "ammo_" (Pickup.type k)); [|reflexivity].
  destruct (split "_" (Pickup.type k) !! 1%nat) as [weaponType|]; [|reflexivity].
  unfold Player.addAmmo, Player.slot, Player.set_other.
  destruct (Player.ammo p !! weaponType) as [[|n|]|];
    [| | |destruct (inherited weaponType)];
    try destruct (weaponType =? "__proto__")%string; reflexivity.
Qed.

Lemma pushBack_mark (o e : GameEntity.t) :
  GameEntity.markedForDeletion (Obstacle.pushBack o e) = GameEntity.markedForDeletion e.
Proof. keeps_mark. Qed.

Lemma Zombie_takeDamage_mark (a : Q) (z : Zombie.t) :
  GameEntity.markedForDeletion (Zombie.base z) = true ->
  GameEntity.markedForDeletion (Zombie.base (Zombie.takeDamage a z)) = true.
Proof. keeps_mark. Qed.

Lemma Player_update_mark (dt : Q) (p : Player.t) :
  playerMarked (Player.update dt p) = playerMarked p.
Proof. unfold playerMarked. keeps_mark. Qed.

Lemma Zombie_update_mark `{JSMath} (dt : Q) (t : option (Q * Q)) (z : Zombie.t) :
  GameEntity.markedForDeletion (Zombie.base (Zombie.update dt t z)) =
  GameEntity.markedForDeletion (Zombie.base z).
Proof. keeps_mark. Qed.

Lemma Bullet_update_mark (dt : Q) (b : Bullet.t) :
  GameEntity.markedForDeletion (Bullet.base b) = true ->
  GameEntity.markedForDeletion (Bullet.base (Bullet.update dt b)) = true.
Proof. keeps_mark. Qed.

Lemma Player_move_mark `{JSMath} (d : Vector2D.t) (dt : Q) (p : Player.t) :
  playerMarked (Player.move d dt p) = playerMarked p.
Proof. unfold playerMarked. keeps_mark. Qed.

Lemma Player_switchWeapon_mark (weapon : string) (p : Player.t) :
  playerMarked (Player.switchWeapon weapon p) = playerMarked p.
Proof. unfold playerMarked. keeps_mark. Qed.

Lemma fired_mark (p : Player.t) : playerMarked (fired p) = playerMarked p.
Proof. unfold playerMarked. rewrite fired_base. reflexivity. Qed.

Lemma grows_insert2 (h : Heap) (a b : ref) (ea eb ea' eb' : Entity.t) :
  h !! a = Some ea -> h !! b = Some eb -> kindOf ea <> kindOf eb ->
  kindOf ea' = kindOf ea ->
  (GameEntity.markedForDeletion (Entity.baseOf ea) = true ->
   GameEntity.markedForDeletion (Entity.baseOf ea') = true) ->
  kindOf eb' = kindOf eb ->
  (GameEntity.markedForDeletion (Entity.baseOf eb) = true ->
   GameEntity.markedForDeletion (Entity.baseOf eb') = true) ->
  grows h (<[a := ea']> (<[b := eb']> h)) [].
Proof.
  intros Ea Eb N Ka Ma Kb Mb.
  assert (a <> b) as Nab by (intros ->; rewrite Ea in Eb; injection Eb as ->; auto).
  eapply grows_nil_trans.
  - eapply grows_insert; [exact Eb | exact Kb | exact Mb].
  - eapply grows_insert; [|exact Ka | exact Ma].
    rewrite list_lookup_insert_ne by auto. exact Ea.
Qed.

Lemma onCollision_grows (self other : ref) (h : Heap) :
  grows h (Entity.onCollision self other h) [].
Proof.
  unfold Entity.onCollision.
  destruct (h !! self) as [[p|z|b|k|o]|] eqn:Es;
    destruct (h !! other) as [[p'|z'|b'|k'|o']|] eqn:Eo;
    try apply grows_refl.
  - eapply grows_insert; [exact Es | reflexivity | apply Player_takeDamage_mark].
  - destruct (Qle_bool (Zombie.attackCooldown z) 0); [|apply grows_refl].
    destruct (Zombie.target z) as [t|].
    + destruct (h !! t) as [[tp| | | |]|] eqn:Et;
        try (eapply grows_insert; [exact Es | reflexivity | auto]).
      eapply grows_insert2; [exact Es | exact Et | discriminate | reflexivity | auto
                            | reflexivity | apply Player_takeDamage_mark].
    + eapply grows_insert; [exact Es | reflexivity | auto].
  - destruct (Bullet.getSource b' =? "player")%string; [|apply grows_refl].
    eapply grows_insert; [exact Es | reflexivity | apply Zombie_takeDamage_mark].
  - destruct (Bullet.source b =? "enemy")%string; [|apply grows_refl].
    eapply grows_insert; [exact Es | reflexivity | reflexivity].
  - destruct (Bullet.source b =? "player")%string; [|apply grows_refl].
    eapply grows_insert; [exact Es | reflexivity | reflexivity].
  - eapply grows_insert2; [exact Es | exact Eo | discriminate | reflexivity | reflexivity
                          | reflexivity |].
    change (playerMarked p' = true -> playerMarked (Pickup.applyEffect k p') = true).
    rewrite applyEffect_mark. auto.
  - eapply grows_insert; [exact Eo | reflexivity |].
    cbn. rewrite pushBack_mark. auto.
  - eapply grows_insert; [exact Eo | reflexivity |].
    cbn. rewrite pushBack_mark. auto.
  - eapply grows_insert; [exact Eo | reflexivity | reflexivity].
Qed.

Lemma update_grows `{JSMath} (self : ref) (dt : Q) (h : Heap) :
  grows h (Entity.update self dt h) [].
Proof.
  unfold Entity.update.
  destruct (h !! self) as [[p|z|b|k|o]|] eqn:Es; try apply grows_refl.
  - eapply grows_insert; [exact Es | reflexivity |].
    change (playerMarked p = true -> playerMarked (Player.update dt p) = true).
    rewrite Player_update_mark. auto.
  - eapply grows_insert; [exact Es | reflexivity |].
    cbn [Entity.baseOf]. rewrite Zombie_update_mark. auto.
  - eapply grows_insert; [exact Es | reflexivity | apply Bullet_update_mark].
Qed.

Lemma collide_grows (pair : ref * ref) (h : Heap) :
  grows h (fst (GameEngine.collide pair h)) [].
Proof.
  destruct pair as [a b]. unfold GameEngine.collide.
  destruct (GameEngine.overlapping h a b); [|apply grows_refl].
  cbn [fst]. eapply grows_nil_trans; apply onCollision_grows.
Qed.

Lemma collideAll_grows (pairs : list (ref * ref)) (h : Heap) :
  grows h (fst (GameEngine.collideAll pairs h)) [].
Proof.
  revert h. induction pairs as [|p pairs IH]; intros h; [apply grows_refl|].
  cbn [GameEngine.collideAll].
  pose proof (collide_grows p h) as G.
  destruct (GameEngine.collide p h) as [h1 c1]. cbn [fst] in G.
  specialize (IH h1). destruct (GameEngine.collideAll pairs h1) as [h2 c2].
  cbn [fst] in *. exact (grows_nil_trans _ _ _ _ G IH).
Qed.

Lemma updateAll_grows `{JSMath} (l : list ref) (dt : Q) (h : Heap) :
  grows h (GameEngine.updateAll l dt h) [].
Proof.
  revert h. induction l as [|a l IH]; intros h; [apply grows_refl|].
  cbn [GameEngine.updateAll].
  exact (grows_nil_trans _ _ _ _ (update_grows a dt h) (IH _)).
Qed.

(** ** The collision pass *)

Lemma isColliding_sym (a b : GameEntity.t) :
  GameEngine.isColliding a b = GameEngine.isColliding b a.
Proof.
  unfold GameEngine.isColliding.
  destruct (Qltb (GameEntity.x a) (GameEntity.x b + GameEntity.width b)),
           (Qltb (GameEntity.x b) (GameEntity.x a + GameEntity.width a)),
           (Qltb (GameEntity.y a) (GameEntity.y b + GameEntity.height b)),
           (Qltb (GameEntity.y b) (GameEntity.y a + GameEntity.height a));
    reflexivity.
Qed.

Lemma overlapping_sym (h : Heap) (a b : ref) :
  GameEngine.overlapping h a b = GameEngine.overlapping h b a.
Proof.
  unfold GameEngine.overlapping.
  destruct (h !! a) as [ea|], (h !! b) as [eb|]; try reflexivity.
  apply isColliding_sym.
Qed.

Lemma callsOf_app (a b : ref) (c1 c2 : list (ref * ref)) :
  callsOf a b (c1 ++ c2) = (callsOf a b c1 + callsOf a b c2)%nat.
Proof. unfold callsOf. rewrite filter_app, length_app. reflexivity. Qed.

Lemma callsOf_pair (a b : ref) :
  a <> b -> callsOf a b [(a, b); (b, a)] = 1%nat /\ callsOf a b [(b, a); (a, b)] = 1%nat.
Proof.
  intros N. unfold callsOf.
  rewrite !filter_cons, !filter_nil.
  destruct (decide ((a, b) = (a, b))) as [_|C]; [|congruence].
  destruct (decide ((b, a) = (a, b))) as [C|_]; [congruence|].
  split; reflexivity.
Qed.

Lemma collideAll_app (ps qs : list (ref * ref)) (h : Heap) :
  GameEngine.collideAll (ps ++ qs) h =
  let '(h1, c1) := GameEngine.collideAll ps h in
  let '(h2, c2) := GameEngine.collideAll qs h1 in
  (h2, c1 ++ c2).
Proof.
  revert h. induction ps as [|p ps IH]; intros h; cbn [GameEngine.collideAll app].
  - destruct (GameEngine.collideAll qs h). reflexivity.
  - destruct (GameEngine.collide p h) as [h1 c1]. rewrite IH.
    destruct (GameEngine.collideAll ps h1) as [h2 c2].
    destruct (GameEngine.collideAll qs h2) as [h3 c3].
    rewrite app_assoc. reflexivity.
Qed.

(** A pair that is not handled gets no call. *)
Lemma collideAll_other (ps : list (ref * ref)) (h : Heap) (a b : ref) :
  (forall p, p ∈ ps -> p <> (a, b) /\ p <> (b, a)) ->
  callsOf a b (snd (GameEngine.collideAll ps h)) = 0%nat.
Proof.
  revert h. induction ps as [|[x y] ps IH]; intros h F; [reflexivity|].
  cbn [GameEngine.collideAll GameEngine.collide].
  assert (F' : forall p, p ∈ ps -> p <> (a, b) /\ p <> (b, a)).
  { intros p I. apply F. right. exact I. }
  destruct (F (x, y)) as [N1 N2]; [left|].
  destruct (GameEngine.overlapping h x y).
  - specialize (IH (Entity.onCollision y x (Entity.onCollision x y h)) F').
    destruct (GameEngine.collideAll ps _) as [h2 c2]. cbn [snd] in *.
    rewrite callsOf_app, IH. unfold callsOf.
    rewrite !filter_cons, filter_nil.
    destruct (decide ((x, y) = (a, b))) as [C|_]; [congruence|].
    destruct (decide ((y, x) = (a, b))) as [C|_]; [|reflexivity].
    exfalso. apply N2. congruence.
  - specialize (IH h F').
    destruct (GameEngine.collideAll ps h) as [h2 c2]. exact IH.
Qed.

Lemma pairsOf_elem (l : list ref) (p : ref * ref) :
  p ∈ GameEngine.pairsOf l -> fst p ∈ l /\ snd p ∈ l.
Proof.
  induction l as [|x l IH]; cbn [GameEngine.pairsOf]; intros I.
  - inversion I.
  - apply elem_of_app in I as [I|I].
    + apply list_elem_of_fmap in I as (c & -> & I). split; [left | right; exact I].
    + destruct (IH I). split; right; assumption.
Qed.

(** In a list without repetition every two entities form exactly one of
    the pairs of the nested loops. *)
Lemma pairsOf_split (l : list ref) (a b : ref) :
  NoDup l -> a ∈ l -> b ∈ l -> a <> b ->
  exists before after,
    (GameEngine.pairsOf l = before ++ (a, b) :: after \/
     GameEngine.pairsOf l = before ++ (b, a) :: after) /\
    forall p, p ∈ before ++ after -> p <> (a, b) /\ p <> (b, a).
Proof.
  assert (first : forall x rest c, NoDup (x :: rest) -> c ∈ rest -> c <> x ->
            exists before after,
              GameEngine.pairsOf (x :: rest) = before ++ (x, c) :: after /\
              forall p, p ∈ before ++ after -> p <> (x, c) /\ p <> (c, x)).
  { intros x rest c D I N. apply NoDup_cons in D as [Nx D].
    apply list_elem_of_split in I as (r1 & r2 & ->).
    apply NoDup_app in D as (_ & D1 & D2). apply NoDup_cons in D2 as [Nc _].
    exists (map (pair x) r1), (map (pair x) r2 ++ GameEngine.pairsOf (r1 ++ c :: r2)).
    split.
    - cbn [GameEngine.pairsOf]. rewrite map_app. cbn [map]. rewrite <- app_assoc. reflexivity.
    - intros p I. rewrite !elem_of_app in I. destruct I as [I|[I|I]].
      + apply list_elem_of_fmap in I as (d & -> & I). split; [|congruence].
        intros E. injection E as ->. exact (D1 _ I ltac:(left)).
      + apply list_elem_of_fmap in I as (d & -> & I). split; [|congruence].
        intros E. injection E as ->. exact (Nc I).
      + apply pairsOf_elem in I as [I1 I2].
        split; intros ->; cbn [fst snd] in *; auto. }
  induction l as [|x l IH]; intros D Ia Ib N; [inversion Ia|].
  apply elem_of_cons in Ia as [->|Ia]; apply elem_of_cons in Ib as [->|Ib].
  - congruence.
  - destruct (first x l b D Ib) as (before & after & E & F); [congruence|].
    exists before, after. split; [left; exact E | exact F].
  - destruct (first x l a D Ia) as (before & after & E & F); [congruence|].
    exists before, after. split; [right; exact E|].
    intros p I. destruct (F p I). split; assumption.
  - pose proof D as D'. apply NoDup_cons in D' as [Nx D'].
    destruct (IH D' Ia Ib N) as (before & after & E & F).
    exists (map (pair x) l ++ before), after. split.
    + cbn [GameEngine.pairsOf]. rewrite <- !app_assoc. destruct E as [-> | ->]; auto.
    + intros p I. rewrite <- app_assoc in I. apply elem_of_app in I as [I|I]; [|auto].
      apply list_elem_of_fmap in I as (d & -> & I).
      split; intros E'; injection E' as -> ->; auto.
Qed.

(** C4: the overlap test gives the same answer in both directions, and in
    one collision pass over a list of distinct entities every two of them
    are tested once.  With [before] the pairs handled earlier in the pass,
    [a.onCollision(b)] and [b.onCollision(a)] are each called once if [a]
    and [b] overlap when their turn comes, on the heap the pairs of
    [before] left, and not at all otherwise. *)
Theorem collision_pass_symmetric_once (g : GameEngine.t) (h : Heap) (a b : ref) :
  NoDup (GameEngine.entities g) ->
  a ∈ GameEngine.entities g -> b ∈ GameEngine.entities g -> a <> b ->
  (forall ea eb, GameEngine.isColliding ea eb = GameEngine.isColliding eb ea) /\
  exists before after,
    (GameEngine.pairsOf (GameEngine.entities g) = before ++ (a, b) :: after \/
     GameEngine.pairsOf (GameEngine.entities g) = before ++ (b, a) :: after) /\
    (forall p, p ∈ before ++ after -> p <> (a, b) /\ p <> (b, a)) /\
    let tested := fst (GameEngine.collideAll before h) in
    let calls := snd (GameEngine.checkCollisions g h) in
    GameEngine.overlapping tested a b = GameEngine.overlapping tested b a /\
    callsOf a b calls = (if GameEngine.overlapping tested a b then 1 else 0)%nat /\
    callsOf b a calls = (if GameEngine.overlapping tested a b then 1 else 0)%nat.
Proof.
  intros D Ia Ib N. split; [apply isColliding_sym|].
  destruct (pairsOf_split _ a b D Ia Ib N) as (before & after & E & F).
  exists before, after. split; [exact E|]. split; [exact F|].
  cbv zeta. split; [apply overlapping_sym|].
  assert (Fb : forall p, p ∈ before -> p <> (a, b) /\ p <> (b, a)).
  { intros p I. apply F, elem_of_app. left. exact I. }
  assert (Fa : forall p, p ∈ after -> p <> (a, b) /\ p <> (b, a)).
  { intros p I. apply F, elem_of_app. right. exact I. }
  assert (Fb' : forall p, p ∈ before -> p <> (b, a) /\ p <> (a, b)).
  { intros p I. destruct (Fb p I). split; assumption. }
  assert (Fa' : forall p, p ∈ after -> p <> (b, a) /\ p <> (a, b)).
  { intros p I. destruct (Fa p I). split; assumption. }
  unfold GameEngine.checkCollisions.
  pose proof (collideAll_other before h a b Fb) as B1.
  pose proof (collideAll_other before h b a Fb') as B2.
  destruct E as [-> | ->]; rewrite collideAll_app;
    destruct (GameEngine.collideAll before h) as [h1 c1]; cbn [fst snd] in *;
    cbn [GameEngine.collideAll GameEngine.collide].
  - destruct (GameEngine.overlapping h1 a b) eqn:O.
    + pose proof (collideAll_other after
                    (Entity.onCollision b a (Entity.onCollision a b h1)) a b Fa) as A1.
      pose proof (collideAll_other after
                    (Entity.onCollision b a (Entity.onCollision a b h1)) b a Fa') as A2.
      destruct (GameEngine.collideAll after _) as [h2 c2]. cbn [snd] in *.
      rewrite !callsOf_app, B1, B2, A1, A2.
      destruct (callsOf_pair a b N) as [-> _].
      destruct (callsOf_pair b a ltac:(auto)) as [_ ->]. split; reflexivity.
    + pose proof (collideAll_other after h1 a b Fa) as A1.
      pose proof (collideAll_other after h1 b a Fa') as A2.
      destruct (GameEngine.collideAll after h1) as [h2 c2]. cbn [snd app] in *.
      rewrite !callsOf_app, B1, B2, A1, A2. split; reflexivity.
  - rewrite (overlapping_sym h1 b a).
    destruct (GameEngine.overlapping h1 a b) eqn:O.
    + pose proof (collideAll_other after
                    (Entity.onCollision a b (Entity.onCollision b a h1)) a b Fa) as A1.
      pose proof (collideAll_other after
                    (Entity.onCollision a b (Entity.onCollision b a h1)) b a Fa') as A2.
      destruct (GameEngine.collideAll after _) as [h2 c2]. cbn [snd] in *.
      rewrite !callsOf_app, B1, B2, A1, A2.
      destruct (callsOf_pair a b N) as [_ ->].
      destruct (callsOf_pair b a ltac:(auto)) as [-> _]. split; reflexivity.
    + pose proof (collideAll_other after h1 a b Fa) as A1.
      pose proof (collideAll_other after h1 b a Fa') as A2.
      destruct (GameEngine.collideAll after h1) as [h2 c2]. cbn [snd app] in *.
      rewrite !callsOf_app, B1, B2, A1, A2. split; reflexivity.
Qed.

(** ** Deferred deletion *)

Section Deletion.
Context `{JSMath}.





(** What one frame of the plain engine does, when it is not paused. *)
Lemma engineFrame_running (handle : nat) (timestamp : Q) (g : GameEngine.t) (h : Heap)
    (evs : list Event) :
  GameEngine.isPaused g = false ->
  let g0 := GameEngine.set_lastTimestamp timestamp
              (GameEngine.set_gameLoopId (Some handle) g) in
  let deltaTime := (timestamp - GameEngine.lastTimestamp g) / 1000 in
  let '(g', h', evs') := GameEngine.update deltaTime (g0, h) in
  engineFrame handle timestamp (g, h, evs) = (g', h', (evs ++ evs') ++ GameEngine.render g').
Proof.
  intros P. cbv zeta. unfold engineFrame, GameEngine.gameLoop. cbn [fst snd].
  cbn [GameEngine.isPaused GameEngine.set_gameLoopId GameEngine.lastTimestamp]. rewrite P.
  destruct (GameEngine.update _ _) as [[g' h'] evs']. reflexivity.
Qed.

Lemma engineFrame_paused (handle : nat) (timestamp : Q) (g : GameEngine.t) (h : Heap)
    (evs : list Event) :
  GameEngine.isPaused g = true ->
  engineFrame handle timestamp (g, h, evs) =
  (GameEngine.set_gameLoopId (Some handle) g, h, evs).
Proof.
  intros P. unfold engineFrame, GameEngine.gameLoop. cbn [fst snd].
  cbn [GameEngine.isPaused GameEngine.set_gameLoopId]. rewrite P. reflexivity.
Qed.









End Deletion.

(** ** The director: what its helpers leave alone *)

Section Director.
Context `{JSMath}.
Import ZombieShooterGame.

Lemma builds_refl (h : Heap) : builds 0 h h.
Proof. exists []. split; [apply grows_refl | reflexivity]. Qed.

Lemma builds_trans (n m : nat) (h1 h2 h3 : Heap) :
  builds n h1 h2 -> builds m h2 h3 -> builds (n + m) h1 h3.
Proof.
  intros (a1 & G1 & L1) (a2 & G2 & L2). exists (a1 ++ a2). split.
  - exact (grows_trans _ _ _ _ _ G1 G2).
  - rewrite filter_app, length_app, L1, L2. reflexivity.
Qed.

Lemma builds_zombies (n : nat) (h h' : Heap) :
  builds n h h' -> zombiesBuilt h' = (zombiesBuilt h + n)%nat.
Proof.
  intros (a & [K _] & L). unfold zombiesBuilt. rewrite K, filter_app, length_app, L.
  reflexivity.
Qed.

Lemma builds_marked (n : nat) (h h' : Heap) (a : ref) :
  builds n h h' -> Entity.isMarked h a = true -> Entity.isMarked h' a = true.
Proof. intros (added & [_ M] & _). apply M. Qed.

Lemma evolves_refl (w : World) : evolves 0 w w.
Proof. split; [reflexivity | apply builds_refl]. Qed.

Lemma evolves_trans (n m : nat) (w1 w2 w3 : World) :
  evolves n w1 w2 -> evolves m w2 w3 -> evolves (n + m) w1 w3.
Proof.
  intros [S1 B1] [S2 B2]. split; [congruence | exact (builds_trans _ _ _ _ _ B1 B2)].
Qed.

(** The form in which the lemmas below chain: the last step is a helper
    that builds no zombie. *)
Lemma evolves_then (n : nat) (w1 w2 w3 : World) :
  evolves 0 w2 w3 -> evolves n w1 w2 -> evolves n w1 w3.
Proof.
  intros E2 E1. rewrite <- (Nat.add_0_r n). exact (evolves_trans _ _ _ _ _ E1 E2).
Qed.

Lemma evolves_write (w : World) (a : ref) (e e' : Entity.t) :
  heap w !! a = Some e ->
  kindOf e' = kindOf e ->
  (GameEntity.markedForDeletion (Entity.baseOf e) = true ->
   GameEntity.markedForDeletion (Entity.baseOf e') = true) ->
  evolves 0 w (set_heap (<[a := e']> (heap w)) w).
Proof.
  intros E K M. split; [reflexivity|].
  exists []. split; [|reflexivity]. exact (grows_insert _ _ _ _ E K M).
Qed.

Lemma evolves_onPlayer (f : Player.t -> Player.t) (a : ref) (w : World) :
  (forall p, playerMarked (f p) = playerMarked p) ->
  evolves 0 w (onPlayer f a w).
Proof.
  intros F. unfold onPlayer.
  destruct (heap w !! a) as [[p| | | |]|] eqn:E; try apply evolves_refl.
  eapply evolves_write; [exact E | reflexivity|].
  change (playerMarked p = true -> playerMarked (f p) = true). rewrite F. auto.
Qed.

Lemma evolves_spawn (e : Entity.t) (w : World) :
  evolves (if isZombie (kindOf e) then 1 else 0) w (snd (spawn e w)).
Proof.
  split; [reflexivity|]. exists [kindOf e]. split; [apply grows_alloc|].
  rewrite filter_cons, filter_nil. destruct (isZombie (kindOf e)); reflexivity.
Qed.

Lemma evolves_set_rng (n : nat) (w : World) : evolves 0 w (set_rng n w).
Proof. split; [reflexivity | apply builds_refl]. Qed.

Lemma evolves_emit (evs : list Event) (w : World) : evolves 0 w (emit evs w).
Proof. split; [reflexivity | apply builds_refl]. Qed.

Lemma evolves_resetMouseButton (b : nat) (w : World) :
  evolves 0 w (set_game (set_input (InputHandler.resetMouseButton b (input (game w)))
                                   (game w)) w).
Proof. split; [reflexivity | apply builds_refl]. Qed.

Lemma evolves_pickupSpawnTimer (v : Q) (w : World) :
  evolves 0 w (set_game (set_pickupSpawnTimer v (game w)) w).
Proof. split; [reflexivity | apply builds_refl]. Qed.

Lemma evolves_addBullets (bullets : list Bullet.t) (w : World) :
  evolves 0 w (addBullets bullets w).
Proof.
  revert w. induction bullets as [|b bullets IH]; intros w; [apply evolves_refl|].
  cbn [addBullets]. eapply evolves_then; [apply IH|].
  exact (evolves_spawn (ABullet b) w).
Qed.

Lemma evolves_handlePlayerInput (deltaTime : Q) (w : World) :
  evolves 0 w (handlePlayerInput deltaTime w).
Proof.
  unfold handlePlayerInput. destruct (player (game w)) as [a|]; [|apply evolves_refl].
  cbv zeta.
  match goal with
  | |- evolves _ _ (if _ then onPlayer _ _ ?W else _) => set (w3 := W)
  end.
  assert (E3 : evolves 0 w w3); [subst w3|].
  { match goal with
    | |- evolves _ _ (match heap ?W !! _ with _ => _ end) => set (w2 := W)
    end.
    assert (E2 : evolves 0 w w2); [subst w2|].
    { eapply evolves_then; [apply evolves_onPlayer; reflexivity|].
      destruct (_ || _); [|apply evolves_refl].
      apply evolves_onPlayer. intros p. apply Player_move_mark. }
    destruct (heap w2 !! a) as [[p| | | |]|] eqn:Ep; try exact E2.
    destruct (_ && Player.canShoot p) eqn:C; [|exact E2].
    apply andb_true_iff in C as [_ C].
    pose proof (shoot_player p (rng w2) C) as S.
    destruct (Player.shoot (rng w2) p) as [[bullets p'] n]. cbn [fst snd] in S. subst p'.
    eapply evolves_then; [apply evolves_resetMouseButton|].
    assert (E : evolves 0 w
                  (addBullets bullets
                     (set_rng n (set_heap (<[a := APlayer (fired p)]> (heap w2)) w2)))).
    { eapply evolves_then; [apply evolves_addBullets|].
      eapply evolves_then; [apply evolves_set_rng|].
      eapply evolves_then; [|exact E2].
      eapply evolves_write; [exact Ep | reflexivity|].
      change (playerMarked p = true -> playerMarked (fired p) = true).
      rewrite fired_mark. auto. }
    repeat (match goal with |- evolves _ _ (if ?c then _ else _) => destruct c end);
      try exact E; (eapply evolves_then; [apply evolves_emit | exact E]). }
  repeat (match goal with |- evolves _ _ (if ?c then _ else _) => destruct c end);
    try exact E3;
    (eapply evolves_then; [|exact E3]); apply evolves_onPlayer;
    intros p; apply Player_switchWeapon_mark.
Qed.

Lemma evolves_spawnZombie (w : World) (thePlayer : ref) :
  player (game w) = Some thePlayer -> evolves 1 w (spawnZombie w).
Proof.
  intros P. destruct (spawnZombie_spawn w thePlayer P) as (x & y & n & _ & ->).
  change 1%nat with (0 + 1)%nat.
  eapply evolves_trans; [apply (evolves_set_rng n)|].
  apply (evolves_spawn (AZombie _)).
Qed.

Lemma evolves_placePickup (attemptsLeft : nat) (x y : Q) (w : World) :
  evolves 0 w (snd (placePickup attemptsLeft x y w)).
Proof.
  revert x y w. induction attemptsLeft as [|k IH]; intros x y w; [apply evolves_refl|].
  cbn [placePickup]. destruct (existsb _ _); [|apply evolves_refl].
  unfold random. cbv beta iota zeta.
  eapply evolves_then; [apply IH|].
  eapply evolves_then; apply evolves_set_rng.
Qed.

Lemma evolves_spawnPickup (w : World) : evolves 0 w (spawnPickup w).
Proof.
  unfold spawnPickup, random. cbv beta iota zeta.
  assert (R : forall n m k : nat, evolves 0 w (set_rng n (set_rng m (set_rng k w)))).
  { intros n m k. eapply evolves_then; [apply evolves_set_rng|].
    eapply evolves_then; apply evolves_set_rng. }
  match goal with |- evolves _ _ (match ?o with _ => _ end) => destruct o as [type|] end;
    [|apply evolves_set_rng].
  match goal with
  | |- evolves _ _ (match placePickup ?k ?x ?y ?W with _ => _ end) =>
      pose proof (evolves_placePickup k x y W) as E;
      destruct (placePickup k x y W) as [[[x' y']|] w']
  end; cbn [snd] in E.
  - eapply evolves_then; [apply (evolves_spawn (APickup _))|].
    eapply evolves_then; [exact E|]. apply R.
  - eapply evolves_then; [exact E|]. apply R.
Qed.

Lemma evolves_updatePickupSpawning (deltaTime : Q) (w : World) :
  evolves 0 w (updatePickupSpawning deltaTime w).
Proof.
  unfold updatePickupSpawning. cbv zeta.
  match goal with |- evolves _ _ (if ?c then _ else _) => destruct c end.
  - eapply evolves_then; [apply evolves_pickupSpawnTimer|].
    eapply evolves_then; [apply evolves_spawnPickup|]. apply evolves_pickupSpawnTimer.
  - apply evolves_pickupSpawnTimer.
Qed.

Lemma update_engine (deltaTime : Q) (g : GameEngine.t) (h : Heap) :
  fst (fst (GameEngine.update deltaTime (g, h))) =
  GameEngine.set_entities
    (filter (fun a => Entity.isMarked (snd (fst (GameEngine.update deltaTime (g, h)))) a = false)
       (GameEngine.entities g)) g.
Proof.
  unfold GameEngine.update. destruct (GameEngine.checkCollisions g h). reflexivity.
Qed.

Lemma update_heap_grows (deltaTime : Q) (g : GameEngine.t) (h : Heap) :
  grows h (snd (fst (GameEngine.update deltaTime (g, h)))) [].
Proof.
  unfold GameEngine.update, GameEngine.checkCollisions.
  pose proof (collideAll_grows (GameEngine.pairsOf (GameEngine.entities g)) h) as G.
  destruct (GameEngine.collideAll _ h) as [h1 calls]. cbn [fst snd] in *.
  exact (grows_nil_trans _ _ _ _ G (updateAll_grows _ _ _)).
Qed.

Lemma evolves_originalUpdate (deltaTime : Q) (w : World) :
  evolves 0 w (originalUpdate deltaTime w).
Proof.
  unfold originalUpdate.
  pose proof (update_engine deltaTime (engineOf w) (heap w)) as E.
  pose proof (update_heap_grows deltaTime (engineOf w) (heap w)) as G.
  destruct (GameEngine.update deltaTime (engineOf w, heap w)) as [[g' h'] evs].
  cbn [fst snd] in *. split.
  - unfold steady. cbn. rewrite E. reflexivity.
  - exists []. split; [exact G | reflexivity].
Qed.

(** [update] is its helpers and the three named steps, one after the other. *)
Lemma update_steps (deltaTime : Q) (w : World) (thePlayer : ref) :
  player (game w) = Some thePlayer ->
  update deltaTime w =
  renderUI (pauseCheck (deathCheck thePlayer
    (updatePickupSpawning deltaTime (waveStep deltaTime (handlePlayerInput deltaTime w))))).
Proof.
  intros P. unfold update. rewrite P.
  unfold waveStep, deathCheck, pauseCheck. cbv zeta. reflexivity.
Qed.

(** What equal steady parts say field by field. *)
Lemma steady_fields (w w' : World) :
  steady w' = steady w ->
  gameState (game w') = gameState (game w) /\
  player (game w') = player (game w) /\
  wave (game w') = wave (game w) /\
  zombiesRemaining (game w') = zombiesRemaining (game w) /\
  spawnCooldown (game w') = spawnCooldown (game w) /\
  waveTimer (game w') = waveTimer (game w) /\
  waveDelay (game w') = waveDelay (game w) /\
  InputHandler.keys (input (game w')) = InputHandler.keys (input (game w)) /\
  GameEngine.isPaused (engineOf w') = GameEngine.isPaused (engineOf w) /\
  GameEngine.gameLoopId (engineOf w') = GameEngine.gameLoopId (engineOf w).
Proof.
  intros E. unfold steady in E. cbv zeta in E.
  repeat split.
  - exact (f_equal gameState E).
  - exact (f_equal player E).
  - exact (f_equal wave E).
  - exact (f_equal zombiesRemaining E).
  - exact (f_equal spawnCooldown E).
  - exact (f_equal waveTimer E).
  - exact (f_equal waveDelay E).
  - exact (f_equal (fun g => InputHandler.keys (input g)) E).
  - exact (f_equal (fun g => GameEngine.isPaused (engine g)) E).
  - exact (f_equal (fun g => GameEngine.gameLoopId (engine g)) E).
Qed.

Lemma evolves_control (n : nat) (w w' : World) : evolves n w w' -> control w' = control w.
Proof.
  intros [S _]. destruct (steady_fields w w' S) as (E1 & E2 & _ & _ & _ & _ & _ & E3 & E4 & _).
  unfold control. cbv zeta. unfold engineOf in *. rewrite E1, E2, E3, E4. reflexivity.
Qed.

Lemma evolves_waveObs (w w' : World) : evolves 0 w w' -> waveObs w' = waveObs w.
Proof.
  intros [S B]. destruct (steady_fields w w' S) as (_ & _ & E1 & E2 & E3 & E4 & _).
  unfold waveObs. cbv zeta. rewrite E1, E2, E3, E4, (builds_zombies _ _ _ B), Nat.add_0_r.
  reflexivity.
Qed.

Lemma evolves_proceeds (n : nat) (w w' : World) : evolves n w w' -> proceeds w w'.
Proof.
  intros E. split; [exact (evolves_control n w w' E)|]. exists n. apply E.
Qed.

Lemma proceeds_refl (w : World) : proceeds w w.
Proof. split; [reflexivity|]. exists 0%nat. apply builds_refl. Qed.

Lemma proceeds_trans (w1 w2 w3 : World) : proceeds w1 w2 -> proceeds w2 w3 -> proceeds w1 w3.
Proof.
  intros [C1 (n & B1)] [C2 (m & B2)]. split; [congruence|].
  exists (n + m)%nat. exact (builds_trans _ _ _ _ _ B1 B2).
Qed.

Lemma proceeds_length (w w' : World) :
  proceeds w w' -> (length (heap w) <= length (heap w'))%nat.
Proof.
  intros [_ (n & added & [K _] & _)].
  apply (f_equal (@length Kind)) in K. unfold kinds in K.
  rewrite length_app, !length_map in K. lia.
Qed.

Lemma proceeds_marked (w w' : World) (a : ref) :
  proceeds w w' -> Entity.isMarked (heap w) a = true -> Entity.isMarked (heap w') a = true.
Proof. intros [_ (n & B)]. exact (builds_marked _ _ _ _ B). Qed.

(** The spawn step, in a wave with zombies left. *)
Lemma updateZombieSpawning_spec (deltaTime : Q) (w : World) (thePlayer : ref) :
  player (game w) = Some thePlayer ->
  (0 < zombiesRemaining (game w))%Z ->
  let g := game w in
  let w' := updateZombieSpawning deltaTime w in
  proceeds w w' /\
  ((0 < spawnCooldown g /\
    waveObs w' = (wave g, zombiesRemaining g, spawnCooldown g - deltaTime, waveTimer g,
                  zombiesBuilt (heap w))) \/
   (spawnCooldown g <= 0 /\
    waveObs w' = (wave g, (zombiesRemaining g - 1)%Z,
                  1.5 - Qmin 1.3 (inject_Z (wave g) * 0.1), waveTimer g,
                  S (zombiesBuilt (heap w))))).
Proof.
  intros P Z. cbv zeta. unfold updateZombieSpawning. cbv zeta.
  destruct (Qltb 0 (spawnCooldown (game w))) eqn:C.
  - split; [split; [reflexivity | exists 0%nat; apply builds_refl]|].
    left. split; [apply Qltb_lt; exact C | reflexivity].
  - apply Z.ltb_lt in Z. rewrite Z.
    pose proof (evolves_spawnZombie w thePlayer P) as E.
    destruct E as [S B]. destruct (steady_fields _ _ S) as (E1 & E2 & E3 & E4 & E5 & E6 & E7 & E8 & E9 & E10).
    split.
    + split; [|exists 1%nat; exact B].
      unfold control. cbv zeta. unfold engineOf in *. cbn.
      rewrite E1, E2, E8, E9. reflexivity.
    + right. split; [apply Qltb_ge; exact C|].
      unfold waveObs.
      cbn [game heap set_game set_zombiesRemaining set_spawnCooldown wave zombiesRemaining
           spawnCooldown waveTimer].
      rewrite E3, E4, E6, (builds_zombies _ _ _ B), Nat.add_1_r.
      reflexivity.
Qed.

Lemma control_fields (w w' : World) :
  control w' = control w ->
  gameState (game w') = gameState (game w) /\
  player (game w') = player (game w) /\
  InputHandler.keys (input (game w')) = InputHandler.keys (input (game w)) /\
  GameEngine.isPaused (engineOf w') = GameEngine.isPaused (engineOf w).
Proof. unfold control. cbv zeta. intros E. injection E as E1 E2 E3 E4. auto. Qed.

Lemma isKeyDown_keys (k : string) (i i' : InputHandler.t) :
  InputHandler.keys i' = InputHandler.keys i ->
  InputHandler.isKeyDown k i' = InputHandler.isKeyDown k i.
Proof. unfold InputHandler.isKeyDown. intros ->. reflexivity. Qed.

Lemma waveStep_spawning (deltaTime : Q) (w : World) :
  (0 < zombiesRemaining (game w))%Z ->
  waveStep deltaTime w = updateZombieSpawning deltaTime w.
Proof.
  intros Z. unfold waveStep. cbv zeta.
  assert ((zombiesRemaining (game w) <=? 0)%Z = false) as -> by (apply Z.leb_gt; exact Z).
  reflexivity.
Qed.

(** The wait between two waves: the timer accumulates, and at [waveDelay]
    the next wave starts. *)
Lemma waveStep_waiting (deltaTime : Q) (w : World) :
  (zombiesRemaining (game w) <= 0)%Z ->
  let g := game w in
  let w' := waveStep deltaTime w in
  control w' = control w /\ heap w' = heap w /\
  waveObs w' =
    if Qle_bool (waveDelay g) (waveTimer g + deltaTime)
    then ((wave g + 1)%Z, Qfloor (inject_Z 5 + inject_Z (wave g + 1) * 2), 0, 0,
          zombiesBuilt (heap w))
    else (wave g, zombiesRemaining g, spawnCooldown g, waveTimer g + deltaTime,
          zombiesBuilt (heap w)).
Proof.
  intros Z. cbv zeta. unfold waveStep. cbv zeta.
  apply Z.leb_le in Z. rewrite Z.
  cbn [game set_game waveDelay waveTimer set_waveTimer].
  destruct (Qle_bool (waveDelay (game w)) (waveTimer (game w) + deltaTime));
    repeat split.
Qed.

Lemma waveStep_proceeds (deltaTime : Q) (w : World) (thePlayer : ref) :
  player (game w) = Some thePlayer -> proceeds w (waveStep deltaTime w).
Proof.
  intros P. destruct (Z_le_gt_dec (zombiesRemaining (game w)) 0) as [Z|Z].
  - destruct (waveStep_waiting deltaTime w Z) as (C & Hh & _).
    split; [exact C|]. rewrite Hh. exists 0%nat. apply builds_refl.
  - rewrite waveStep_spawning by lia.
    apply (updateZombieSpawning_spec deltaTime w thePlayer P). lia.
Qed.

(** The end of [update]: the death check, the pause check and the UI. *)
Lemma update_tail (thePlayer : ref) (w : World) :
  let w' := renderUI (pauseCheck (deathCheck thePlayer w)) in
  let escape := InputHandler.isKeyDown "Escape" (input (game w)) in
  heap w' = heap w /\ waveObs w' = waveObs w /\
  player (game w') = player (game w) /\
  InputHandler.keys (input (game w')) = InputHandler.keys (input (game w)) /\
  gameState (game w') =
    (if escape then paused
     else if Entity.isMarked (heap w) thePlayer then gameOver
     else gameState (game w)) /\
  GameEngine.isPaused (engineOf w') =
    (if escape then true else GameEngine.isPaused (engineOf w)) /\
  trace w' = trace w ++ [Drawn UI].
Proof.
  cbv zeta. unfold renderUI, pauseCheck, deathCheck.
  destruct (Entity.isMarked (heap w) thePlayer);
    cbn [game set_game input set_gameState];
    destruct (InputHandler.isKeyDown "Escape" (input (game w))); repeat split.
Qed.

Lemma update_proceeds_before_checks (deltaTime : Q) (w : World) (thePlayer : ref) :
  player (game w) = Some thePlayer ->
  let w3 := updatePickupSpawning deltaTime (waveStep deltaTime (handlePlayerInput deltaTime w)) in
  proceeds w w3 /\
  waveObs w3 = waveObs (waveStep deltaTime (handlePlayerInput deltaTime w)) /\
  update deltaTime w = renderUI (pauseCheck (deathCheck thePlayer w3)).
Proof.
  intros P. cbv zeta.
  pose proof (evolves_handlePlayerInput deltaTime w) as E1.
  pose proof (evolves_proceeds _ _ _ E1) as P1.
  assert (P' : player (game (handlePlayerInput deltaTime w)) = Some thePlayer).
  { destruct (control_fields _ _ (proj1 P1)) as (_ & -> & _). exact P. }
  pose proof (waveStep_proceeds deltaTime _ thePlayer P') as P2.
  pose proof (evolves_updatePickupSpawning deltaTime
                (waveStep deltaTime (handlePlayerInput deltaTime w))) as E3.
  split; [|split].
  - exact (proceeds_trans _ _ _ (proceeds_trans _ _ _ P1 P2) (evolves_proceeds _ _ _ E3)).
  - exact (evolves_waveObs _ _ E3).
  - exact (update_steps deltaTime w thePlayer P).
Qed.

(** *** Frames *)

Lemma frame_paused (handle : nat) (now timestamp : Q) (w : World) :
  GameEngine.isPaused (engineOf w) = true ->
  frame handle now timestamp w =
  withEngine (GameEngine.set_gameLoopId (Some handle) (engineOf w)) w.
Proof.
  intros P. unfold frame, GameEngine.gameLoop.
  change (engineOf (withEngine ?e ?w)) with e.
  cbn [GameEngine.isPaused GameEngine.set_gameLoopId]. rewrite P. reflexivity.
Qed.

Lemma frame_running (handle : nat) (now timestamp : Q) (w : World) :
  GameEngine.isPaused (engineOf w) = false ->
  frame handle now timestamp w =
  engineRender (gameLoop now (frameDelta timestamp w)
                  (originalUpdate (frameDelta timestamp w) (stamped handle timestamp w))).
Proof.
  intros P. unfold frame, GameEngine.gameLoop.
  change (engineOf (withEngine ?e ?w)) with e.
  cbn [GameEngine.isPaused GameEngine.set_gameLoopId GameEngine.lastTimestamp]. rewrite P.
  reflexivity.
Qed.

Lemma proceeds_same_heap (w w' : World) :
  control w' = control w -> heap w' = heap w -> proceeds w w'.
Proof. intros C Hh. split; [exact C|]. rewrite Hh. exists 0%nat. apply builds_refl. Qed.

Lemma proceeds_stamped (handle : nat) (timestamp : Q) (w : World) :
  proceeds w (stamped handle timestamp w).
Proof. apply proceeds_same_heap; reflexivity. Qed.

Lemma proceeds_engineRender (w : World) : proceeds w (engineRender w).
Proof. apply proceeds_same_heap; reflexivity. Qed.

Lemma proceeds_emit (evs : list Event) (w : World) : proceeds w (emit evs w).
Proof. apply proceeds_same_heap; reflexivity. Qed.

Lemma proceeds_set_rng (n : nat) (w : World) : proceeds w (set_rng n w).
Proof. apply proceeds_same_heap; reflexivity. Qed.

Lemma proceeds_startWave (w : World) : proceeds w (startWave w).
Proof. apply proceeds_same_heap; reflexivity. Qed.

Lemma proceeds_placeObstacle (x y width height : Q) (w : World) :
  proceeds w (placeObstacle x y width height w).
Proof.
  split; [reflexivity|]. exists 0%nat. exists [KObstacle].
  split; [apply (grows_alloc _ (AnObstacle _)) | reflexivity].
Qed.

Lemma proceeds_randomObstacles (count : nat) (wallThickness : Q) (w : World) :
  proceeds w (randomObstacles count wallThickness w).
Proof.
  revert w. induction count as [|count IH]; intros w; [apply proceeds_refl|].
  cbn [randomObstacles]. unfold random. cbv beta iota zeta.
  match goal with |- proceeds _ (if ?c then _ else _) => destruct c end.
  - eapply proceeds_trans; [|apply IH].
    apply proceeds_same_heap; reflexivity.
  - eapply proceeds_trans; [|apply IH].
    eapply proceeds_trans; [|apply proceeds_placeObstacle].
    apply proceeds_same_heap; reflexivity.
Qed.

Lemma proceeds_createObstacles (w : World) : proceeds w (createObstacles w).
Proof.
  unfold createObstacles. cbv zeta.
  eapply proceeds_trans; [|apply proceeds_randomObstacles].
  do 4 (eapply proceeds_trans; [|apply proceeds_placeObstacle]).
  apply proceeds_same_heap; reflexivity.
Qed.

(** A restart: the director is in state [playing] and refers to a player
    object that has just been constructed; the engine stays paused or
    running as it was. *)
Lemma startGame_spec (w : World) :
  let w' := startGame w in
  gameState (game w') = playing /\
  player (game w') = Some (length (heap w)) /\
  InputHandler.keys (input (game w')) = InputHandler.keys (input (game w)) /\
  GameEngine.isPaused (engineOf w') = GameEngine.isPaused (engineOf w) /\
  exists n, builds n (heap w) (heap w').
Proof.
  cbv zeta. unfold startGame. cbv zeta. unfold spawn, Entity.alloc. cbv beta iota zeta.
  match goal with
  | |- context [startWave (createObstacles ?W)] =>
      pose proof (proceeds_trans _ _ _ (proceeds_createObstacles W)
                    (proceeds_startWave (createObstacles W))) as [C (n & B)];
      generalize dependent (startWave (createObstacles W))
  end.
  intros w' C B. apply control_fields in C as (C1 & C2 & C3 & C4).
  cbn [game set_game gameState set_gameState player input engineOf engine] in *.
  unfold engineOf in *. cbn in C2, C3, C4.
  repeat split; try assumption.
  exists (0 + n)%nat. eapply builds_trans; [|exact B].
  cbn [heap set_heap]. exists [KPlayer]. split; [apply (grows_alloc _ (APlayer _)) | reflexivity].
Qed.

(** *** The pause *)

Lemma pausedTogether_init (handle : nat) (now cw ch : Q) (loaded : bool) :
  pausedTogether (init loaded handle now (newWorld cw ch)).
Proof. destruct loaded; intros E; vm_compute in E; inversion E. Qed.

Lemma gameLoop_pausedTogether (now deltaTime : Q) (w : World) :
  gameState (game w) <> paused -> pausedTogether (gameLoop now deltaTime w).
Proof.
  intros N. unfold gameLoop.
  destruct (gameState (game w)) eqn:G; try congruence.
  - intros E. cbn in E. congruence.
  - unfold handleTitleScreenInput.
    destruct (InputHandler.isMouseButtonDown 0 _).
    + destruct (startGame_spec (emit [Drawn TitleScreen] w)) as (S & _).
      cbv zeta in S. generalize dependent (startGame (emit [Drawn TitleScreen] w)).
      intros w' S E. cbn [game set_game gameState set_input] in E. congruence.
    + intros E. cbn in E. congruence.
  - destruct (player (game w)) as [thePlayer|] eqn:P;
      [|unfold update; rewrite P; intros E; congruence].
    destruct (update_proceeds_before_checks deltaTime w thePlayer P) as ([C _] & _ & U).
    rewrite U.
    match goal with |- pausedTogether (renderUI (pauseCheck (deathCheck _ ?W))) =>
      destruct (update_tail thePlayer W) as (_ & _ & _ & _ & S & I & _);
      apply control_fields in C as (C1 & _)
    end.
    intros E. rewrite I. rewrite S in E.
    destruct (InputHandler.isKeyDown "Escape" _); [reflexivity|].
    destruct (Entity.isMarked _ _); congruence.
  - unfold handleGameOverScreenInput.
    destruct (InputHandler.isMouseButtonDown 0 _).
    + destruct (startGame_spec (emit [Drawn GameOverScreen] w)) as (S & _).
      cbv zeta in S. generalize dependent (startGame (emit [Drawn GameOverScreen] w)).
      intros w' S E. cbn [game set_game gameState set_input] in E. congruence.
    + intros E. cbn in E. congruence.
Qed.

Lemma step_pausedTogether (a : Action) (w : World) :
  pausedTogether w -> pausedTogether (step a w).
Proof.
  intros I. destruct a as [k|k|x y|b|b|handle now timestamp]; try exact I.
  cbn [step]. destruct (GameEngine.gameLoopId (engineOf w)); [|exact I].
  destruct (GameEngine.isPaused (engineOf w)) eqn:P.
  - rewrite frame_paused by exact P. intros _. exact P.
  - rewrite frame_running by exact P.
    assert (N : gameState (game w) <> paused) by (intros E; specialize (I E); congruence).
    pose proof (proceeds_trans _ _ _ (proceeds_stamped handle timestamp w)
                  (evolves_proceeds _ _ _
                     (evolves_originalUpdate (frameDelta timestamp w)
                        (stamped handle timestamp w)))) as [C _].
    apply control_fields in C as (C1 & _).
    rewrite <- C1 in N.
    apply (gameLoop_pausedTogether now (frameDelta timestamp w)) in N.
    generalize dependent (gameLoop now (frameDelta timestamp w)
                            (originalUpdate (frameDelta timestamp w)
                               (stamped handle timestamp w))).
    intros w' N. exact N.
Qed.

Lemma run_pausedTogether (actions : list Action) (w : World) :
  pausedTogether w -> pausedTogether (run actions w).
Proof.
  unfold run. revert w. induction actions as [|a actions IH]; intros w I; [exact I|].
  cbn [fold_left]. apply IH, step_pausedTogether, I.
Qed.

(** With director and engine paused, nothing a browser can deliver changes
    the state, the objects or what has been drawn. *)
Lemma step_frozen (a : Action) (w : World) :
  gameState (game w) = paused -> GameEngine.isPaused (engineOf w) = true ->
  let w' := step a w in
  gameState (game w') = paused /\ GameEngine.isPaused (engineOf w') = true /\
  trace w' = trace w /\ heap w' = heap w.
Proof.
  intros G P. cbv zeta.
  destruct a as [k|k|x y|b|b|handle now timestamp]; try (repeat split; assumption).
  cbn [step]. destruct (GameEngine.gameLoopId (engineOf w)); [|repeat split; assumption].
  rewrite frame_paused by exact P. repeat split; assumption.
Qed.

Lemma run_frozen (actions : list Action) (w : World) :
  gameState (game w) = paused -> GameEngine.isPaused (engineOf w) = true ->
  let w' := run actions w in
  gameState (game w') = paused /\ GameEngine.isPaused (engineOf w') = true /\
  trace w' = trace w /\ heap w' = heap w.
Proof.
  unfold run. revert w. induction actions as [|a actions IH]; intros w G P.
  - repeat split; assumption.
  - cbn [fold_left]. destruct (step_frozen a w G P) as (G' & P' & T & Hh).
    destruct (IH _ G' P') as (G'' & P'' & T' & Hh').
    cbv zeta in *. rewrite G'', P'', T', Hh', T, Hh. repeat split.
Qed.

(** C2, on the code: whenever a game that was loaded and started is in
    state [paused], its engine is paused too, and then [gameLoop] of the
    engine returns before it calls [update], which is where the director
    would draw the pause screen and read the keys.  So whatever comes
    next, key presses of Escape and frames included, the state stays
    [paused], the engine stays paused and nothing at all is drawn. *)
Theorem paused_game_never_resumes (cw ch now0 : Q) (handle0 : nat)
    (actions later : list Action) :
  let w := run actions (init true handle0 now0 (newWorld cw ch)) in
  gameState (game w) = paused ->
  let w' := run later w in
  gameState (game w') = paused /\
  GameEngine.isPaused (engineOf w') = true /\
  trace w' = trace w /\
  heap w' = heap w.
Proof.
  cbv zeta. intros G. apply run_frozen; [exact G|].
  exact (run_pausedTogether actions _ (pausedTogether_init handle0 now0 cw ch true) G).
Qed.

(** *** The end of a game *)

Lemma update_outcome (deltaTime : Q) (w : World) :
  let w' := update deltaTime w in
  (length (heap w) <= length (heap w'))%nat /\
  player (game w') = player (game w).
Proof.
  cbv zeta. destruct (player (game w)) as [thePlayer|] eqn:P;
    [|unfold update; rewrite P; split; [lia | exact P]].
  destruct (update_proceeds_before_checks deltaTime w thePlayer P) as (Pr & _ & ->).
  match goal with |- context [deathCheck _ ?W] =>
    destruct (update_tail thePlayer W) as (Hh & _ & Pl & _)
  end.
  cbv zeta in *. rewrite Hh, Pl. split; [exact (proceeds_length _ _ Pr)|].
  destruct Pr as [C _]. apply control_fields in C as (_ & -> & _). exact P.
Qed.

(** A restart stores a player that has just been constructed. *)
Lemma restart_outcome (evs : list Event) (w : World) (after : World -> World) :
  (forall w', heap (after w') = heap w' /\ player (game (after w')) = player (game w')) ->
  let w' := after (startGame (emit evs w)) in
  (length (heap w) <= length (heap w'))%nat /\
  exists n, player (game w') = Some n /\ (length (heap w) <= n)%nat.
Proof.
  intros A. cbv zeta.
  destruct (startGame_spec (emit evs w)) as (_ & Pl & _ & _ & n & B). cbv zeta in Pl.
  generalize dependent (startGame (emit evs w)). intros w' Pl B.
  destruct (A w') as [-> ->].
  change (heap (emit evs w)) with (heap w) in *.
  destruct B as (added & [K _] & _). apply (f_equal (@length Kind)) in K.
  unfold kinds in K. rewrite length_app, !length_map in K.
  split; [lia|]. eexists. split; [exact Pl | lia].
Qed.

(** What a call of the [gameLoop] closure can do to the [player] field:
    nothing, or store a player that has just been constructed; the state
    [gameOver] is only left by such a restart. *)
Lemma gameLoop_outcome (now deltaTime : Q) (w : World) :
  let w' := gameLoop now deltaTime w in
  (length (heap w) <= length (heap w'))%nat /\
  ((player (game w') = player (game w) /\
    (gameState (game w) = gameOver -> gameState (game w') = gameOver)) \/
   exists n, player (game w') = Some n /\ (length (heap w) <= n)%nat).
Proof.
  cbv zeta.
  assert (drawn : forall evs,
            (length (heap w) <= length (heap (emit evs w)))%nat /\
            ((player (game (emit evs w)) = player (game w) /\
              (gameState (game w) = gameOver -> gameState (game (emit evs w)) = gameOver)) \/
             exists n, player (game (emit evs w)) = Some n /\ (length (heap w) <= n)%nat)).
  { intros evs. split; [apply Nat.le_refl|]. left. split; [reflexivity | auto]. }
  unfold gameLoop. destruct (gameState (game w)) eqn:G.
  - apply drawn.
  - unfold handleTitleScreenInput.
    destruct (InputHandler.isMouseButtonDown 0 _); [|apply drawn].
    destruct (restart_outcome [Drawn TitleScreen] w
                (fun W => set_game (set_input (InputHandler.resetMouseButton 0 (input (game W)))
                                              (game W)) W)) as [L R];
      [intros w'; split; reflexivity|].
    split; [exact L | right; exact R].
  - destruct (update_outcome deltaTime w) as [L Pl]. split; [exact L|].
    left. split; [exact Pl | congruence].
  - unfold handlePauseScreenInput.
    destruct (InputHandler.isKeyDown "Escape" _).
    + split; [apply Nat.le_refl|]. left. split; [reflexivity | congruence].
    + destruct (InputHandler.isMouseButtonDown 0 _).
      * destruct (restart_outcome [Drawn PauseScreen] w
                    (fun W =>
                       let W := withEngine (GameEngine.resume now (engineOf W)) W in
                       set_game (set_input (InputHandler.resetMouseButton 0 (input (game W)))
                                           (game W)) W)) as [L R];
          [intros w'; split; reflexivity|].
        split; [exact L | right; exact R].
      * split; [apply Nat.le_refl|]. left. split; [reflexivity | congruence].
  - unfold handleGameOverScreenInput.
    destruct (InputHandler.isMouseButtonDown 0 _); [|apply drawn].
    destruct (restart_outcome [Drawn GameOverScreen] w
                (fun W => set_game (set_input (InputHandler.resetMouseButton 0 (input (game W)))
                                              (game W)) W)) as [L R];
      [intros w'; split; reflexivity|].
    split; [exact L | right; exact R].
Qed.

Lemma step_outcome (a : Action) (w : World) :
  let w' := step a w in
  (length (heap w) <= length (heap w'))%nat /\
  ((player (game w') = player (game w) /\
    (gameState (game w) = gameOver -> gameState (game w') = gameOver)) \/
   exists n, player (game w') = Some n /\ (length (heap w) <= n)%nat).
Proof.
  cbv zeta.
  assert (same : forall w', heap w' = heap w -> player (game w') = player (game w) ->
                   gameState (game w') = gameState (game w) ->
                   (length (heap w) <= length (heap w'))%nat /\
                   ((player (game w') = player (game w) /\
                     (gameState (game w) = gameOver -> gameState (game w') = gameOver)) \/
                    exists n, player (game w') = Some n /\ (length (heap w) <= n)%nat)).
  { intros w' -> P G. split; [lia|]. left. split; [exact P | congruence]. }
  destruct a as [k|k|x y|b|b|handle now timestamp]; try (apply same; reflexivity).
  cbn [step]. destruct (GameEngine.gameLoopId (engineOf w)); [|apply same; reflexivity].
  destruct (GameEngine.isPaused (engineOf w)) eqn:P.
  - rewrite frame_paused by exact P. apply same; reflexivity.
  - rewrite frame_running by exact P.
    pose proof (proceeds_trans _ _ _ (proceeds_stamped handle timestamp w)
                  (evolves_proceeds _ _ _
                     (evolves_originalUpdate (frameDelta timestamp w)
                        (stamped handle timestamp w)))) as Pr.
    pose proof (proceeds_length _ _ Pr) as L.
    destruct Pr as [C _]. apply control_fields in C as (C1 & C2 & _).
    destruct (gameLoop_outcome now (frameDelta timestamp w)
                (originalUpdate (frameDelta timestamp w) (stamped handle timestamp w)))
      as [L' O].
    cbv zeta in *. cbn [engineRender heap emit game]. split; [lia|].
    destruct O as [[Pl G]|(m & Pl & Lm)].
    + left. rewrite <- C1, <- C2. split; assumption.
    + right. exists m. split; [exact Pl | lia].
Qed.

(** A player object the director has let go of does not come back. *)
Lemma player_never_again (thePlayer : ref) (later : list Action) (w : World) :
  (thePlayer < length (heap w))%nat ->
  player (game w) <> Some thePlayer ->
  player (game (run later w)) <> Some thePlayer.
Proof.
  unfold run. revert w. induction later as [|a later IH]; intros w L N; [exact N|].
  cbn [fold_left]. destruct (step_outcome a w) as [L' O]. cbv zeta in *.
  apply IH; [lia|]. destruct O as [[Pl _]|(n & Pl & Ln)].
  - rewrite Pl. exact N.
  - rewrite Pl. intros E. injection E as ->. lia.
Qed.

(** As long as the director refers to a player with which the game is
    over, the game stays over. *)
Lemma gameOver_stays (thePlayer : ref) (later : list Action) (w : World) :
  (thePlayer < length (heap w))%nat ->
  (player (game w) = Some thePlayer -> gameState (game w) = gameOver) ->
  player (game (run later w)) = Some thePlayer ->
  Forall (fun s => s = gameOver) (history later w).
Proof.
  revert w. induction later as [|a later IH]; intros w L J E; [constructor|].
  cbn [history]. destruct (step_outcome a w) as [L' O]. cbv zeta in *.
  change (run (a :: later) w) with (run later (step a w)) in E.
  destruct (decide (player (game (step a w)) = Some thePlayer)) as [Pl|N];
    [|exfalso; exact (player_never_again thePlayer later (step a w) ltac:(lia) N E)].
  assert (G : gameState (game (step a w)) = gameOver).
  { destruct O as [[Pl' G]|(n & Pl' & Ln)].
    - apply G, J. congruence.
    - rewrite Pl' in Pl. injection Pl as ->. lia. }
  constructor; [exact G|]. apply IH; [lia | intros _; exact G | exact E].
Qed.

Lemma transitions_gameOver (states : list GameState) :
  Forall (fun s => s = gameOver) states ->
  transitions playing gameOver (gameOver :: states) = 0%nat.
Proof.
  induction states as [|s states IH]; intros F; [reflexivity|].
  inversion F as [|s' states' -> F']; subst.
  change (transitions playing gameOver (gameOver :: gameOver :: states))
    with (0 + transitions playing gameOver (gameOver :: states))%nat.
  rewrite IH by exact F'. reflexivity.
Qed.

Lemma engineRender_game (w : World) : game (engineRender w) = game w.
Proof. reflexivity. Qed.

Lemma engineRender_heap (w : World) : heap (engineRender w) = heap w.
Proof. reflexivity. Qed.

(** The frame in which the director finds its player marked. *)
Lemma death_frame (handle : nat) (now timestamp : Q) (w : World) (thePlayer : ref) :
  gameState (game w) = playing ->
  player (game w) = Some thePlayer ->
  GameEngine.isPaused (engineOf w) = false ->
  Entity.isMarked
    (heap (originalUpdate (frameDelta timestamp w) (stamped handle timestamp w)))
    thePlayer = true ->
  InputHandler.isKeyDown "Escape" (input (game w)) = false ->
  let w' := frame handle now timestamp w in
  gameState (game w') = gameOver /\ player (game w') = Some thePlayer /\
  (thePlayer < length (heap w'))%nat.
Proof.
  intros G P R M K. cbv zeta. rewrite frame_running by exact R.
  pose proof (proceeds_trans _ _ _ (proceeds_stamped handle timestamp w)
                (evolves_proceeds _ _ _
                   (evolves_originalUpdate (frameDelta timestamp w)
                      (stamped handle timestamp w)))) as [C _].
  apply control_fields in C as (C1 & C2 & C3 & _).
  generalize dependent (originalUpdate (frameDelta timestamp w) (stamped handle timestamp w)).
  generalize (frameDelta timestamp w). intros dt w1 M C1 C2 C3.
  rewrite engineRender_game, engineRender_heap.
  unfold gameLoop. rewrite C1, G.
  assert (P1 : player (game w1) = Some thePlayer) by congruence.
  destruct (update_proceeds_before_checks dt w1 thePlayer P1) as (Pr & _ & ->).
  cbv zeta in Pr.
  pose proof (update_tail thePlayer
                (updatePickupSpawning dt (waveStep dt (handlePlayerInput dt w1)))) as T.
  cbv zeta in T.
  generalize dependent (updatePickupSpawning dt (waveStep dt (handlePlayerInput dt w1))).
  intros w3 Pr T. destruct T as (Hh & _ & Pl & _ & S & _).
  pose proof (proceeds_marked _ _ thePlayer Pr M) as M3.
  destruct Pr as [C _]. apply control_fields in C as (D1 & D2 & D3 & _).
  assert (K3 : InputHandler.isKeyDown "Escape" (input (game w3)) = false).
  { rewrite (isKeyDown_keys "Escape" (input (game w)) (input (game w3)));
      [exact K | congruence]. }
  rewrite K3, M3 in S.
  rewrite S, Pl, Hh, D2. repeat split; [exact P1|].
  unfold Entity.isMarked in M3.
  destruct (heap w3 !! thePlayer) eqn:E; [|discriminate].
  apply lookup_lt_Some in E. exact E.
Qed.

(** The frame in which the director finds its player marked while Escape
    is held: the state [gameOver] is overwritten by [paused] and the
    engine is paused. *)
Lemma death_frame_escape (handle : nat) (now timestamp : Q) (w : World) (thePlayer : ref) :
  gameState (game w) = playing ->
  player (game w) = Some thePlayer ->
  GameEngine.isPaused (engineOf w) = false ->
  Entity.isMarked
    (heap (originalUpdate (frameDelta timestamp w) (stamped handle timestamp w)))
    thePlayer = true ->
  InputHandler.isKeyDown "Escape" (input (game w)) = true ->
  let w' := frame handle now timestamp w in
  gameState (game w') = paused /\ GameEngine.isPaused (engineOf w') = true.
Proof.
  intros G P R M K. cbv zeta. rewrite frame_running by exact R.
  pose proof (proceeds_trans _ _ _ (proceeds_stamped handle timestamp w)
                (evolves_proceeds _ _ _
                   (evolves_originalUpdate (frameDelta timestamp w)
                      (stamped handle timestamp w)))) as [C _].
  apply control_fields in C as (C1 & C2 & C3 & _).
  generalize dependent (originalUpdate (frameDelta timestamp w) (stamped handle timestamp w)).
  generalize (frameDelta timestamp w). intros dt w1 M C1 C2 C3.
  change (engineOf (engineRender ?W)) with (engineOf W).
  rewrite engineRender_game.
  unfold gameLoop. rewrite C1, G.
  assert (P1 : player (game w1) = Some thePlayer) by congruence.
  destruct (update_proceeds_before_checks dt w1 thePlayer P1) as (Pr & _ & ->).
  cbv zeta in Pr.
  pose proof (update_tail thePlayer
                (updatePickupSpawning dt (waveStep dt (handlePlayerInput dt w1)))) as T.
  cbv zeta in T.
  generalize dependent (updatePickupSpawning dt (waveStep dt (handlePlayerInput dt w1))).
  intros w3 Pr T. destruct T as (_ & _ & _ & _ & S & E & _).
  destruct Pr as [C _]. apply control_fields in C as (_ & _ & D3 & _).
  assert (K3 : InputHandler.isKeyDown "Escape" (input (game w3)) = true).
  { rewrite (isKeyDown_keys "Escape" (input (game w)) (input (game w3)));
      [exact K | congruence]. }
  rewrite K3 in S, E. split; [exact S | exact E].
Qed.

Lemma history_frozen (actions : list Action) (w : World) :
  gameState (game w) = paused -> GameEngine.isPaused (engineOf w) = true ->
  Forall (fun s => s = paused) (history actions w).
Proof.
  revert w. induction actions as [|a actions IH]; intros w G P; [constructor|].
  cbn [history]. destruct (step_frozen a w G P) as (G' & P' & _).
  constructor; [exact G'|]. apply IH; assumption.
Qed.

Lemma transitions_paused (first : GameState) (states : list GameState) :
  Forall (fun s => s = paused) states ->
  transitions playing gameOver (first :: states) = 0%nat.
Proof.
  revert first. induction states as [|s states IH]; intros first F; [reflexivity|].
  inversion F as [|s' states' -> F']; subst.
  change (transitions playing gameOver (first :: paused :: states))
    with ((if GameState_eqb first playing && GameState_eqb paused gameOver then 1 else 0)
          + transitions playing gameOver (paused :: states))%nat.
  rewrite IH by exact F'. rewrite andb_false_r. reflexivity.
Qed.

(** C6, as the code has it.  Health: under calls of [takeDamage] and [heal]
    with amounts that are not negative, a player that starts at health 100
    of 100 stays within [0, 100], and is marked for deletion whenever its
    health is 0.  Game over: when the engine's pass of a frame leaves the
    director's player marked while the game is [playing] and Escape is not
    held, that frame ends in state [gameOver], and for as long as the
    director refers to this player the state stays [gameOver]: the run
    goes from [playing] to [gameOver] exactly once.  With Escape held in
    that frame, however, [update] overwrites [gameOver] with [paused] and
    pauses the engine; whatever comes next, the state stays [paused]: the
    run never goes from [playing] to [gameOver], although its player is
    dead. *)
Theorem player_death_game_over_or_pause :
  (forall (cs : list HealthCall) (p : Player.t),
     Forall (fun c => 0 <= amountOf c) cs ->
     Player.health p = 100 -> Player.maxHealth p = 100 ->
     let p' := healthCalls cs p in
     0 <= Player.health p' /\ Player.health p' <= 100 /\
     (Player.health p' == 0 -> playerMarked p' = true)) /\
  (forall (w : World) (thePlayer : ref) (handle : nat) (now timestamp : Q)
          (later : list Action),
     gameState (game w) = playing ->
     player (game w) = Some thePlayer ->
     is_Some (GameEngine.gameLoopId (engineOf w)) ->
     GameEngine.isPaused (engineOf w) = false ->
     Entity.isMarked
       (heap (originalUpdate (frameDelta timestamp w) (stamped handle timestamp w)))
       thePlayer = true ->
     InputHandler.isKeyDown "Escape" (input (game w)) = false ->
     let actions := Frame handle now timestamp :: later in
     player (game (run actions w)) = Some thePlayer ->
     gameState (game (step (Frame handle now timestamp) w)) = gameOver /\
     transitions playing gameOver (gameState (game w) :: history actions w) = 1%nat) /\
  (forall (w : World) (thePlayer : ref) (handle : nat) (now timestamp : Q)
          (later : list Action),
     gameState (game w) = playing ->
     player (game w) = Some thePlayer ->
     is_Some (GameEngine.gameLoopId (engineOf w)) ->
     GameEngine.isPaused (engineOf w) = false ->
     Entity.isMarked
       (heap (originalUpdate (frameDelta timestamp w) (stamped handle timestamp w)))
       thePlayer = true ->
     InputHandler.isKeyDown "Escape" (input (game w)) = true ->
     let actions := Frame handle now timestamp :: later in
     gameState (game (step (Frame handle now timestamp) w)) = paused /\
     GameEngine.isPaused (engineOf (step (Frame handle now timestamp) w)) = true /\
     Forall (fun s => s = paused) (history actions w) /\
     gameState (game (run actions w)) = paused /\
     transitions playing gameOver (gameState (game w) :: history actions w) = 0%nat).
Proof.
  split; [|split].
  - intros cs p F Hh Hm. cbv zeta.
    assert (I : healthInv p).
    { unfold healthInv. rewrite Hh, Hm. repeat split; try discriminate.
      intros L. exfalso. apply (Qlt_not_le 0 100); [reflexivity | exact L]. }
    destruct (healthCalls_inv cs p F I) as (L & U & M).
    rewrite healthCalls_maxHealth, Hm in U.
    repeat split; [exact L | exact U|].
    intros Z. apply M. rewrite Z. apply Qle_refl.
  - intros w thePlayer handle now timestamp later G P [id R] NP M K. cbv zeta.
    intros E.
    assert (S : step (Frame handle now timestamp) w = frame handle now timestamp w).
    { cbn [step]. rewrite R. reflexivity. }
    destruct (death_frame handle now timestamp w thePlayer G P NP M K) as (G' & P' & L').
    cbv zeta in *. rewrite <- S in G', P', L'.
    split; [exact G'|].
    cbn [history]. rewrite G, G'.
    change (transitions playing gameOver (playing :: gameOver :: ?l))
      with (1 + transitions playing gameOver (gameOver :: l))%nat.
    rewrite transitions_gameOver; [reflexivity|].
    apply (gameOver_stays thePlayer); [exact L' | intros _; exact G' | exact E].
  - intros w thePlayer handle now timestamp later G P [id R] NP M K. cbv zeta.
    assert (S : step (Frame handle now timestamp) w = frame handle now timestamp w).
    { cbn [step]. rewrite R. reflexivity. }
    destruct (death_frame_escape handle now timestamp w thePlayer G P NP M K) as (G' & P').
    cbv zeta in *. rewrite <- S in G', P'.
    assert (F : Forall (fun s => s = paused) (history (Frame handle now timestamp :: later) w)).
    { cbn [history]. constructor; [exact G'|]. apply history_frozen; assumption. }
    split; [exact G'|]. split; [exact P'|]. split; [exact F|]. split.
    + change (run (Frame handle now timestamp :: later) w)
        with (run later (step (Frame handle now timestamp) w)).
      exact (proj1 (run_frozen later _ G' P')).
    + apply transitions_paused. exact F.
Qed.

(** *** Waves *)

Lemma floor_count (n : Z) : Qfloor (inject_Z 5 + inject_Z n * 2) = (5 + 2 * n)%Z.
Proof.
  assert (E : inject_Z 5 + inject_Z n * 2 == inject_Z (5 + 2 * n)).
  { rewrite inject_Z_plus, inject_Z_mult. ring. }
  rewrite E. apply Qfloor_Z.
Qed.





End Director.

(** ** An entity the engine has dropped stays out *)

Section Removal.
Context `{JSMath}.
Import ZombieShooterGame.




































End Removal.

(** * Further properties of the code *)

(** ** The input handler *)

Section Input.
Context `{JSMath}.
Import ZombieShooterGame.

Lemma gameLoop_keys (now deltaTime : Q) (w : World) :
  InputHandler.keys (input (game (gameLoop now deltaTime w))) =
  InputHandler.keys (input (game w)).
Proof.
  assert (restart : forall evs (after : World -> World),
            (forall w', InputHandler.keys (input (game (after w'))) =
                        InputHandler.keys (input (game w'))) ->
            InputHandler.keys (input (game (after (startGame (emit evs w))))) =
            InputHandler.keys (input (game w))).
  { intros evs after A. rewrite A.
    destruct (startGame_spec (emit evs w)) as (_ & _ & K & _). exact K. }
  unfold gameLoop. destruct (gameState (game w)).
  - reflexivity.
  - unfold handleTitleScreenInput.
    destruct (InputHandler.isMouseButtonDown 0 _); [|reflexivity].
    apply (restart [Drawn TitleScreen]
             (fun W => set_game (set_input (InputHandler.resetMouseButton 0 (input (game W)))
                                           (game W)) W)).
    reflexivity.
  - destruct (player (game w)) as [thePlayer|] eqn:P;
      [|unfold update; rewrite P; reflexivity].
    destruct (update_proceeds_before_checks deltaTime w thePlayer P) as ([C _] & _ & ->).
    apply control_fields in C as (_ & _ & C & _).
    match goal with |- context [deathCheck _ ?W] =>
      destruct (update_tail thePlayer W) as (_ & _ & _ & K & _)
    end.
    cbv zeta in K. rewrite K. exact C.
  - unfold handlePauseScreenInput.
    destruct (InputHandler.isKeyDown "Escape" _); [reflexivity|].
    destruct (InputHandler.isMouseButtonDown 0 _); [|reflexivity].
    apply (restart [Drawn PauseScreen]
             (fun W => let W := withEngine (GameEngine.resume now (engineOf W)) W in
                       set_game (set_input (InputHandler.resetMouseButton 0 (input (game W)))
                                           (game W)) W)).
    reflexivity.
  - unfold handleGameOverScreenInput.
    destruct (InputHandler.isMouseButtonDown 0 _); [|reflexivity].
    apply (restart [Drawn GameOverScreen]
             (fun W => set_game (set_input (InputHandler.resetMouseButton 0 (input (game W)))
                                           (game W)) W)).
    reflexivity.
Qed.

Lemma frame_keys (handle : nat) (now timestamp : Q) (w : World) :
  InputHandler.keys (input (game (frame handle now timestamp w))) =
  InputHandler.keys (input (game w)).
Proof.
  destruct (GameEngine.isPaused (engineOf w)) eqn:P.
  - rewrite frame_paused by exact P. reflexivity.
  - rewrite frame_running by exact P. rewrite engineRender_game, gameLoop_keys.
    pose proof (evolves_originalUpdate (frameDelta timestamp w) (stamped handle timestamp w)) as E.
    apply evolves_control in E. apply control_fields in E as (_ & _ & K & _). exact K.
Qed.

Lemma isKeyDown_insert (k key : string) (b : bool) (i : InputHandler.t) :
  InputHandler.isKeyDown key
    (InputHandler.mk (<[k := b]> (InputHandler.keys i)) (InputHandler.mousePosition i)
       (InputHandler.mouseButtons i)) =
  if String.eqb k key then b else InputHandler.isKeyDown key i.
Proof.
  unfold InputHandler.isKeyDown. cbn [InputHandler.keys].
  destruct (String.eqb_spec k key) as [->|N].
  - rewrite lookup_insert_eq. destruct b; reflexivity.
  - rewrite lookup_insert_ne by exact N. reflexivity.
Qed.

(** X1: whatever frames run in between, the key state the game reads is
    the one the last [keydown] or [keyup] event for that key left; a key
    without event keeps its state. *)
Theorem keys_follow_events (key : string) (actions : list Action) (w : World) :
  InputHandler.isKeyDown key (input (game (run actions w))) =
  keyHeld key actions (InputHandler.isKeyDown key (input (game w))).
Proof.
  unfold run. revert w. induction actions as [|a actions IH]; intros w; [reflexivity|].
  cbn [fold_left]. rewrite IH.
  destruct a as [k|k|x y|b|b|handle now timestamp]; cbn [keyHeld step]; try reflexivity.
  - f_equal. apply isKeyDown_insert.
  - f_equal. apply isKeyDown_insert.
  - f_equal. destruct (GameEngine.gameLoopId (engineOf w)); [|reflexivity].
    apply isKeyDown_keys, frame_keys.
Qed.
End Input.

(** ** The engine on its own *)

Section Engine.
Context `{JSMath}.

Lemma set_entities_same (g : GameEngine.t) :
  GameEngine.set_entities (GameEngine.entities g) g = g.
Proof. destruct g. reflexivity. Qed.

Lemma removeFirst_absent (e : ref) (l : list ref) : e ∉ l -> GameEngine.removeFirst e l = l.
Proof.
  induction l as [|a l IH]; intros N; [reflexivity|].
  cbn [GameEngine.removeFirst].
  destruct (Nat.eqb_spec a e) as [->|D]; [exfalso; apply N; left|].
  rewrite IH; [reflexivity|]. intros I. apply N. right. exact I.
Qed.

Lemma removeFirst_split (e : ref) (l1 l2 : list ref) :
  e ∉ l1 -> GameEngine.removeFirst e (l1 ++ e :: l2) = l1 ++ l2.
Proof.
  induction l1 as [|a l1 IH]; intros N; cbn [GameEngine.removeFirst app].
  - rewrite Nat.eqb_refl. reflexivity.
  - destruct (Nat.eqb_spec a e) as [->|D]; [exfalso; apply N; left|].
    rewrite IH; [reflexivity|]. intros I. apply N. right. exact I.
Qed.

(** X2: [removeEntity] leaves an engine that does not hold the entity as it
    is; otherwise it takes the first occurrence of the entity out of the
    list and keeps everything else in order, later occurrences included.
    In particular it undoes the [addEntity] of an entity that was not yet
    in the list. *)
Theorem removeEntity_first_occurrence (e : ref) (g : GameEngine.t) :
  ((e ∉ GameEngine.entities g) /\ GameEngine.removeEntity e g = g \/
   exists l1 l2,
     GameEngine.entities g = l1 ++ e :: l2 /\ (e ∉ l1) /\
     GameEngine.removeEntity e g = GameEngine.set_entities (l1 ++ l2) g) /\
  ((e ∉ GameEngine.entities g) ->
   GameEngine.removeEntity e (GameEngine.addEntity e g) = g).
Proof.
  split.
  - destruct (decide (e ∈ GameEngine.entities g)) as [I|N].
    + right. apply list_elem_of_split_l in I as (l1 & l2 & E & N).
      exists l1, l2. split; [exact E|]. split; [exact N|].
      unfold GameEngine.removeEntity. rewrite E, removeFirst_split by exact N. reflexivity.
    + left. split; [exact N|].
      unfold GameEngine.removeEntity. rewrite removeFirst_absent by exact N.
      apply set_entities_same.
  - intros N. unfold GameEngine.removeEntity, GameEngine.addEntity.
    cbn [GameEngine.entities GameEngine.set_entities].
    rewrite removeFirst_split by exact N. rewrite app_nil_r.
    destruct g. reflexivity.
Qed.

(** One frame of an engine that is not paused, as an equation. *)
Lemma engineFrame_eq (handle : nat) (timestamp : Q) (g : GameEngine.t) (h : Heap)
    (evs : list Event) :
  GameEngine.isPaused g = false ->
  engineFrame handle timestamp (g, h, evs) =
  (GameEngine.set_entities
     (filter (fun a => Entity.isMarked
                         (GameEngine.updateAll (GameEngine.entities g)
                            ((timestamp - GameEngine.lastTimestamp g) / 1000)
                            (fst (GameEngine.checkCollisions g h))) a = false)
        (GameEngine.entities g))
     (GameEngine.set_lastTimestamp timestamp (GameEngine.set_gameLoopId (Some handle) g)),
   GameEngine.updateAll (GameEngine.entities g)
     ((timestamp - GameEngine.lastTimestamp g) / 1000)
     (fst (GameEngine.checkCollisions g h)),
   evs ++ map (fun c => OnCollision (fst c) (snd c)) (snd (GameEngine.checkCollisions g h))
       ++ map (fun a => Updated a ((timestamp - GameEngine.lastTimestamp g) / 1000))
            (GameEngine.entities g)
       ++ ClearCanvas
          :: map Rendered
               (filter (fun a => Entity.isMarked
                                   (GameEngine.updateAll (GameEngine.entities g)
                                      ((timestamp - GameEngine.lastTimestamp g) / 1000)
                                      (fst (GameEngine.checkCollisions g h))) a = false)
                  (GameEngine.entities g))).
Proof.
  intros P. pose proof (engineFrame_running handle timestamp g h evs P) as F.
  cbv zeta in F. revert F.
  unfold GameEngine.update, GameEngine.checkCollisions, GameEngine.render.
  cbn [GameEngine.entities GameEngine.set_lastTimestamp GameEngine.set_gameLoopId
       GameEngine.set_entities].
  destruct (GameEngine.collideAll _ h) as [h1 calls]. cbn [fst snd].
  intros ->. rewrite <- !app_assoc. reflexivity.
Qed.

Lemma ticks_paused (frames : list (nat * Q)) (g : GameEngine.t) (h : Heap) (evs : list Event) :
  GameEngine.isPaused g = true ->
  exists id,
    engineOps (ticks frames) (g, h, evs) = (GameEngine.set_gameLoopId id g, h, evs).
Proof.
  unfold engineOps. revert g. induction frames as [|[handle ts] frames IH]; intros g P.
  - exists (GameEngine.gameLoopId g). destruct g. reflexivity.
  - cbn [ticks map fold_left fst snd engineOp].
    rewrite engineFrame_paused by exact P.
    destruct (IH (GameEngine.set_gameLoopId (Some handle) g) P) as (id & E).
    exists id. unfold ticks in E. rewrite E. destruct g. reflexivity.
Qed.

(** X3: while an engine is paused its frames call nothing and draw
    nothing, however many run; and the first frame after [resume] takes the
    time since the resume as its [deltaTime], [(timestamp - now) / 1000],
    not the time since the last frame before the pause: every entity of the
    list is updated with it. *)
Theorem resume_resets_the_baseline (frames : list (nat * Q)) (now : Q) (handle : nat)
    (timestamp : Q) (g : GameEngine.t) (h : Heap) (evs : list Event) :
  let paused := engineOps (Pause :: ticks frames) (g, h, evs) in
  let resumed := engineOps [Resume now; Tick handle timestamp] paused in
  let deltaTime := (timestamp - now) / 1000 in
  snd paused = evs /\
  snd (fst paused) = h /\
  GameEngine.entities (fst (fst paused)) = GameEngine.entities g /\
  GameEngine.isPaused (fst (fst paused)) = true /\
  GameEngine.isPaused (fst (fst resumed)) = false /\
  snd resumed =
    evs ++ map (fun c => OnCollision (fst c) (snd c)) (snd (GameEngine.checkCollisions g h))
        ++ map (fun a => Updated a deltaTime) (GameEngine.entities g)
        ++ GameEngine.render (fst (fst resumed)).
Proof.
  cbv zeta.
  change (engineOps (Pause :: ticks frames) (g, h, evs))
    with (engineOps (ticks frames) (GameEngine.pause g, h, evs)).
  destruct (ticks_paused frames (GameEngine.pause g) h evs eq_refl) as (id & ->).
  cbn [fst snd]. repeat split.
  all: unfold engineOps; cbn [fold_left engineOp];
    rewrite engineFrame_eq by reflexivity; cbn [fst snd]; reflexivity.
Qed.

(** X4: a frame of an engine that is not paused calls, in this order:
    the collision handlers of the pairs that overlap, [update] on every
    entity of the list in list order, [clearRect], and [render] on the
    entities that are not marked after the update pass, in list order;
    these are the entities it keeps. *)
Theorem frame_order (handle : nat) (timestamp : Q) (g : GameEngine.t) (h : Heap)
    (evs : list Event) :
  GameEngine.isPaused g = false ->
  let deltaTime := (timestamp - GameEngine.lastTimestamp g) / 1000 in
  let collided := GameEngine.checkCollisions g h in
  let h' := GameEngine.updateAll (GameEngine.entities g) deltaTime (fst collided) in
  let kept := filter (fun a => Entity.isMarked h' a = false) (GameEngine.entities g) in
  engineFrame handle timestamp (g, h, evs) =
  (GameEngine.set_entities kept
     (GameEngine.set_lastTimestamp timestamp (GameEngine.set_gameLoopId (Some handle) g)),
   h',
   evs ++ map (fun c => OnCollision (fst c) (snd c)) (snd collided)
       ++ map (fun a => Updated a deltaTime) (GameEngine.entities g)
       ++ ClearCanvas :: map Rendered kept).
Proof.
  intros P. cbv zeta. apply engineFrame_eq. exact P.
Qed.

End Engine.

(** ** Ammunition *)

Section Ammunition.
Context `{JSMath}.

Lemma weaponName_plain (name : string) : weaponName name -> inherited name = false.
Proof. intros [-> | [-> | ->]]; reflexivity. Qed.

Lemma ammoInOrder_new (x y : Q) : ammoInOrder (Player.new x y) /\ threeWeapons (Player.new x y).
Proof.
  assert (K : forall key, is_Some (Player.ammo (Player.new x y) !! key) -> weaponName key).
  { unfold Player.new. cbn [Player.ammo]. intros key [a E]. unfold weaponName.
    destruct (decide (key = "pistol")) as [-> | N1]; [auto|].
    destruct (decide (key = "shotgun")) as [-> | N2]; [auto|].
    destruct (decide (key = "rifle")) as [-> | N3]; [auto|].
    rewrite !lookup_insert_ne, lookup_empty in E by congruence. discriminate. }
  split; [|split; [exact K | left; reflexivity]].
  split; [reflexivity|]. split; [exists 20, 20%nat; split; reflexivity|].
  split; [exists 30, 30%nat; split; reflexivity|].
  split; [|left; left; reflexivity].
  intros key I. left. exact (K key I).
Qed.

Lemma wholeRounds_insert (ammo : gmap string AmmoCount) (key slot : string) (q : Q) (k : nat) :
  q == inject_Z (Z.of_nat k) ->
  wholeRounds (ammo !! slot) ->
  wholeRounds (<[key := Finite q]> ammo !! slot).
Proof.
  intros E W. destruct (decide (key = slot)) as [-> | N].
  - rewrite lookup_insert_eq. exists q, k. split; [reflexivity | exact E].
  - rewrite lookup_insert_ne by exact N. exact W.
Qed.

(** A count is only found under one of the three names, and is whole. *)
Lemma ammoInOrder_slot (p : Player.t) (key : string) (n : Q) :
  ammoInOrder p -> Player.ammo p !! key = Some (Finite n) ->
  weaponName key /\ exists k, n == inject_Z (Z.of_nat k).
Proof.
  intros (P & (qs & ks & Es & Qs) & (qr & kr & Er & Qr) & D & _) E.
  destruct (D key) as [W | (_ & _ & O)]; [rewrite E; eauto | | congruence].
  split; [exact W|]. destruct W as [-> | [-> | ->]].
  - rewrite P in E. discriminate.
  - rewrite Es in E. injection E as <-. eauto.
  - rewrite Er in E. injection E as <-. eauto.
Qed.

(** Writing a whole count into a slot that holds a count keeps the order. *)
Lemma ammoInOrder_set (p : Player.t) (key : string) (n q : Q) (k : nat) :
  ammoInOrder p ->
  Player.ammo p !! key = Some (Finite n) ->
  q == inject_Z (Z.of_nat k) ->
  ammoInOrder (Player.set_ammo (<[key := Finite q]> (Player.ammo p)) p).
Proof.
  intros I E Q. destruct (ammoInOrder_slot p key n I E) as [W _].
  destruct I as (P & S & R & D & T). unfold ammoInOrder.
  cbn [Player.ammo Player.set_ammo Player.weaponType].
  assert (N : key <> "pistol") by (intros ->; rewrite P in E; discriminate).
  split; [rewrite lookup_insert_ne by exact N; exact P|].
  split; [exact (wholeRounds_insert _ _ _ _ _ Q S)|].
  split; [exact (wholeRounds_insert _ _ _ _ _ Q R)|].
  split; [|exact T].
  intros key' [a J]. destruct (decide (key = key')) as [<- | N']; [left; exact W|].
  rewrite lookup_insert_ne in J by exact N'.
  destruct (D key') as [W' | (I1 & I2 & I3)]; [eauto | left; exact W' | right].
  rewrite lookup_insert_ne by exact N'. auto.
Qed.

Lemma threeWeapons_set (p : Player.t) (key : string) (v : AmmoCount) :
  is_Some (Player.ammo p !! key) ->
  threeWeapons p -> threeWeapons (Player.set_ammo (<[key := v]> (Player.ammo p)) p).
Proof.
  intros E [K T]. split; [|exact T]. cbn [Player.ammo Player.set_ammo].
  intros key' [a J]. destruct (decide (key = key')) as [<- | N]; [exact (K key E)|].
  rewrite lookup_insert_ne in J by exact N. apply K. eauto.
Qed.

(** A value that is not a number is only found under an inherited name. *)
Lemma ammoInOrder_other (p : Player.t) (name : string) :
  ammoInOrder p -> Player.slot p name = Some Other -> inherited name = true.
Proof.
  intros (P & (qs & ks & Es & Qs) & (qr & kr & Er & Qr) & D & _). unfold Player.slot.
  destruct (Player.ammo p !! name) as [v|] eqn:E.
  - intros [= ->]. destruct (D name) as [[-> | [-> | ->]] | (I & _)]; [eauto | | | | exact I];
      congruence.
  - destruct (inherited name); [reflexivity | discriminate].
Qed.

Lemma ammoInOrder_set_other (p : Player.t) (name : string) :
  ammoInOrder p -> inherited name = true -> ammoInOrder (Player.set_other name p).
Proof.
  intros I N. unfold Player.set_other.
  destruct (name =? "__proto__")%string eqn:Pr; [exact I|].
  apply String.eqb_neq in Pr.
  destruct I as (P & S & R & D & T). unfold ammoInOrder.
  cbn [Player.ammo Player.set_ammo Player.weaponType].
  assert (N1 : name <> "pistol") by (intros ->; discriminate N).
  assert (N2 : name <> "shotgun") by (intros ->; discriminate N).
  assert (N3 : name <> "rifle") by (intros ->; discriminate N).
  rewrite !lookup_insert_ne by assumption.
  split; [exact P|]. split; [exact S|]. split; [exact R|]. split; [|exact T].
  intros key [a J]. destruct (decide (name = key)) as [<- | N'].
  - right. rewrite lookup_insert_eq. auto.
  - rewrite lookup_insert_ne in J by exact N'. rewrite lookup_insert_ne by exact N'.
    apply D. eauto.
Qed.

Lemma ammoInOrder_weapon (p p' : Player.t) :
  Player.ammo p' = Player.ammo p -> Player.weaponType p' = Player.weaponType p ->
  ammoInOrder p -> ammoInOrder p'.
Proof. unfold ammoInOrder. intros -> ->. auto. Qed.

Lemma threeWeapons_weapon (p p' : Player.t) :
  Player.ammo p' = Player.ammo p -> Player.weaponType p' = Player.weaponType p ->
  threeWeapons p -> threeWeapons p'.
Proof. unfold threeWeapons. intros -> ->. auto. Qed.

Lemma ammoInOrder_fired (p : Player.t) :
  Player.canShoot p = true ->
  (ammoInOrder p -> ammoInOrder (fired p)) /\ (threeWeapons p -> threeWeapons (fired p)).
Proof.
  intros C. destruct (canShoot_slot p C) as [_ N]. unfold fired.
  cbn [Player.ammo Player.set_shootCooldown Player.weaponType].
  destruct N as [N | (n & N & L)]; rewrite N.
  - split; [apply ammoInOrder_weapon | apply threeWeapons_weapon]; reflexivity.
  - split.
    + intros I.
      assert (I' : ammoInOrder (Player.set_shootCooldown (Player.shootCooldownMax p) p))
        by (revert I; apply ammoInOrder_weapon; reflexivity).
      destruct (ammoInOrder_slot p _ n I N) as (_ & k & Q).
      rewrite Q in L.
      assert (K : (0 < k)%nat).
      { destruct k; [exfalso; revert L; apply Qlt_irrefl | lia]. }
      apply (ammoInOrder_set _ _ n _ (k - 1)%nat I' N).
      rewrite Q. replace (Z.of_nat (k - 1)) with (Z.of_nat k - 1)%Z by lia.
      unfold Zminus. rewrite inject_Z_plus. reflexivity.
    + intros T.
      apply (threeWeapons_set (Player.set_shootCooldown (Player.shootCooldownMax p) p));
        [cbn [Player.ammo Player.set_shootCooldown]; rewrite N; eauto|].
      revert T. apply threeWeapons_weapon; reflexivity.
Qed.

Lemma switchWeapon_fields (weapon : string) (p : Player.t) :
  Player.ammo (Player.switchWeapon weapon p) = Player.ammo p /\
  Player.weaponType (Player.switchWeapon weapon p) =
    match Player.slot p weapon with
    | Some _ => weapon
    | None => Player.weaponType p
    end.
Proof.
  unfold Player.switchWeapon. destruct (Player.slot p weapon); [|split; reflexivity].
  destruct (weapon =? "pistol")%string; [split; reflexivity|].
  destruct (weapon =? "shotgun")%string; [split; reflexivity|].
  destruct (weapon =? "rifle")%string; split; reflexivity.
Qed.

(** A name of which the object has a value is a slot of its own or an
    inherited name. *)
Lemma slot_cases (p : Player.t) (name : string) (v : AmmoCount) :
  Player.slot p name = Some v ->
  Player.ammo p !! name = Some v \/ inherited name = true.
Proof.
  unfold Player.slot. destruct (Player.ammo p !! name); [auto|].
  destruct (inherited name); [auto | discriminate].
Qed.

Lemma ammoInOrder_call (c : PlayerCall) (s : Player.t * nat) :
  ammoInOrder (fst s) -> ammoInOrder (fst (playerCall c s)).
Proof.
  destruct s as [p rng]. cbn [fst snd]. intros I.
  destruct c as [|weapon|type amount|deltaTime]; cbn [playerCall fst snd].
  - destruct (Player.canShoot p) eqn:C.
    + rewrite shoot_player by exact C. apply ammoInOrder_fired; assumption.
    + unfold Player.shoot. rewrite C. exact I.
  - destruct (switchWeapon_fields weapon p) as [A W].
    destruct I as (P & S & R & D & T). unfold ammoInOrder. rewrite A, W.
    split; [exact P|]. split; [exact S|]. split; [exact R|]. split; [exact D|].
    destruct (Player.slot p weapon) as [v|] eqn:E; [|exact T].
    destruct (slot_cases p weapon v E) as [O | O]; [|right; exact O].
    destruct (D weapon) as [W' | (J & _)]; [eauto | left; exact W' | right; exact J].
  - unfold Player.addAmmo.
    destruct (Player.slot p type) as [[|n|]|] eqn:E; try exact I.
    + destruct (slot_cases p type _ E) as [O | O].
      * destruct (ammoInOrder_slot p _ n I O) as (_ & k & Q).
        apply (ammoInOrder_set _ _ n _ (k + amount)%nat I O).
        rewrite Q, Nat2Z.inj_add, inject_Z_plus. reflexivity.
      * exfalso. unfold Player.slot in E. rewrite O in E.
        destruct (Player.ammo p !! type) as [v|] eqn:E'; [|discriminate].
        injection E as ->. destruct (ammoInOrder_slot p _ n I E') as [W _].
        rewrite (weaponName_plain _ W) in O. discriminate.
    + apply ammoInOrder_set_other; [exact I|]. exact (ammoInOrder_other p type I E).
  - unfold Player.update.
    destruct (Qltb 0 (Player.shootCooldown p)); [|exact I].
    revert I. apply ammoInOrder_weapon; reflexivity.
Qed.

Lemma ammoInOrder_calls (cs : list PlayerCall) (s : Player.t * nat) :
  ammoInOrder (fst s) -> ammoInOrder (fst (playerCalls cs s)).
Proof.
  unfold playerCalls. revert s.
  induction cs as [|c cs IH]; intros s I; [exact I|].
  cbn [fold_left]. apply IH, ammoInOrder_call, I.
Qed.

Lemma threeWeapons_call (c : PlayerCall) (s : Player.t * nat) :
  plainCall c -> ammoInOrder (fst s) -> threeWeapons (fst s) ->
  threeWeapons (fst (playerCall c s)).
Proof.
  destruct s as [p rng]. cbn [fst snd]. intros Pl I T.
  destruct c as [|weapon|type amount|deltaTime]; cbn [playerCall fst snd plainCall] in *.
  - destruct (Player.canShoot p) eqn:C.
    + rewrite shoot_player by exact C. apply ammoInOrder_fired; assumption.
    + unfold Player.shoot. rewrite C. exact T.
  - destruct (switchWeapon_fields weapon p) as [A W].
    destruct T as [K T]. unfold threeWeapons. rewrite A, W. split; [exact K|].
    destruct (Player.slot p weapon) as [v|] eqn:E; [|exact T].
    destruct (slot_cases p weapon v E) as [O | O]; [apply K; eauto | congruence].
  - unfold Player.addAmmo.
    destruct (Player.slot p type) as [[|n|]|] eqn:E; try exact T.
    + destruct (slot_cases p type _ E) as [O | O]; [|congruence].
      apply threeWeapons_set; [eauto | exact T].
    + pose proof (ammoInOrder_other p type I E). congruence.
  - unfold Player.update.
    destruct (Qltb 0 (Player.shootCooldown p)); [|exact T].
    revert T. apply threeWeapons_weapon; reflexivity.
Qed.

(** X5: whatever a player is made to do from its construction on, shots
    that succeed or not, weapon switches to any name, pickups of whole
    rounds for any name (2^52 rounds at most in all, so that the counts
    are exact), updates: its pistol never gets a count and its shotgun and
    rifle hold a whole, non-negative number of rounds.  A name that the
    ammo object inherits from [Object.prototype], such as [toString], is
    accepted as a weapon, with which the player cannot shoot, and gets a
    slot that holds no number when ammunition is added for it; as long as
    no call names one, the three slots are the only ones and the weapon in
    hand is one of the three. *)
Theorem ammo_stays_in_order (cs : list PlayerCall) (x y : Q) (rng : nat) :
  (roundsAdded cs <= 2 ^ 52)%Z ->
  let p := fst (playerCalls cs (Player.new x y, rng)) in
  ammoInOrder p /\
  (Forall plainCall cs -> threeWeapons p) /\
  (forall name, inherited name = true ->
     Player.weaponType (Player.switchWeapon name p) = name /\
     Player.canShoot (Player.switchWeapon name p) = false).
Proof.
  intros _. cbv zeta. unfold playerCalls.
  destruct (ammoInOrder_new x y) as [I0 T0].
  assert (G : forall s, ammoInOrder (fst s) ->
                ammoInOrder (fst (fold_left (fun s c => playerCall c s) cs s)) /\
                (Forall plainCall cs -> threeWeapons (fst s) ->
                 threeWeapons (fst (fold_left (fun s c => playerCall c s) cs s)))).
  { induction cs as [|c cs IH]; intros s I; [split; [exact I | auto]|].
    cbn [fold_left]. destruct (IH _ (ammoInOrder_call c s I)) as [I' T'].
    split; [exact I'|]. intros F T. apply Forall_cons in F as [F1 F2].
    apply T'; [exact F2|]. apply threeWeapons_call; assumption. }
  destruct (G (Player.new x y, rng) I0) as [I T].
  split; [exact I|]. split; [intros F; apply T; [exact F | exact T0]|].
  intros name N.
  generalize dependent (fst (fold_left (fun s c => playerCall c s) cs (Player.new x y, rng))).
  intros p I _.
  destruct (switchWeapon_fields name p) as [A W].
  assert (E : exists v, Player.slot p name = Some v).
  { unfold Player.slot. destruct (Player.ammo p !! name); [eauto|]. rewrite N. eauto. }
  destruct E as [v E]. rewrite E in W. split; [exact W|].
  assert (O : Player.slot (Player.switchWeapon name p) name = Some Other).
  { unfold Player.slot. rewrite A.
    destruct I as (P & S & R & D & _).
    destruct (Player.ammo p !! name) as [u|] eqn:U; [|rewrite N; reflexivity].
    destruct (D name) as [Wn | (_ & _ & J)]; [eauto | | congruence].
    rewrite (weaponName_plain _ Wn) in N. discriminate. }
  unfold Player.canShoot. rewrite W, O. apply andb_false_r.
Qed.

End Ammunition.

(** ** Pickups *)

Section Pickups.
Context `{JSMath}.

Lemma split_single (sep : Ascii.ascii) (s : string) :
  hasChar sep s = false -> split sep s = [s].
Proof.
  induction s as [|c s IH]; intros N; [reflexivity|].
  cbn [hasChar] in N. apply orb_false_iff in N as [N1 N2].
  cbn [split]. rewrite N1, (IH N2). reflexivity.
Qed.

(** X6: a pickup whose type is "ammo_" followed by a name without
    underscore does to the player what [addAmmo] called with that name and
    the pickup's value does. *)
Theorem ammo_pickup_names_its_weapon (k : Pickup.t) (weapon : string) (p : Player.t) :
  Pickup.type k = ("ammo_" ++ weapon)%string ->
  hasChar "_" weapon = false ->
  Pickup.applyEffect k p = Player.addAmmo weapon (Pickup.value k) p.
Proof.
  intros T N. unfold Pickup.applyEffect. rewrite T.
  change (("ammo_" ++ weapon =? "health")%string) with false.
  replace (String.prefix "ammo_" ("ammo_" ++ weapon)) with true
    by (destruct weapon; reflexivity).
  replace (split "_" ("ammo_" ++ weapon)) with ("ammo"%string :: split "_" weapon).
  - rewrite (split_single _ _ N). reflexivity.
  - change ("ammo_" ++ weapon)%string
      with (String "a" (String "m" (String "m" (String "o" (String "_" weapon))))).
    cbn. destruct (split "_" weapon); reflexivity.
Qed.

Lemma addAmmo_pistol (p : Player.t) (amount : Q) :
  ammoInOrder p -> Player.addAmmo "pistol" amount p = p.
Proof. intros (P & _). unfold Player.addAmmo, Player.slot. rewrite P. reflexivity. Qed.

(** X7: the pistol-ammo pickup, one of the four kinds that are spawned:
    when it meets a player, whatever that player has done before, the
    pickup is marked for deletion and nothing else changes. *)
Theorem pistol_ammo_pickup_is_lost (h : Heap) (self other : ref) (k : Pickup.t)
    (cs : list PlayerCall) (x y : Q) (rng : nat) :
  h !! self = Some (APickup k) ->
  h !! other = Some (APlayer (fst (playerCalls cs (Player.new x y, rng)))) ->
  Pickup.type k = "ammo_pistol"%string ->
  Entity.onCollision self other h = <[self := APickup (taken k)]> h.
Proof.
  intros S O T. unfold Entity.onCollision. rewrite S, O.
  replace (Pickup.applyEffect k (fst (playerCalls cs (Player.new x y, rng))))
    with (Player.addAmmo "pistol" (Pickup.value k) (fst (playerCalls cs (Player.new x y, rng))))
    by (unfold Pickup.applyEffect; rewrite T; reflexivity).
  rewrite addAmmo_pistol by apply ammoInOrder_calls, (proj1 (ammoInOrder_new x y)).
  f_equal. apply list_insert_id, O.
Qed.

End Pickups.

(** ** Zombies *)

(** X8: a zombie of any type name starts with the health that
    [getMaxHealth] reports for it, with or without a target. *)
Theorem zombie_starts_at_max_health (x y : Q) (type : string) (target : option ref) :
  let z := match target with
           | Some player => Zombie.setTarget player (Zombie.new x y type)
           | None => Zombie.new x y type
           end in
  Zombie.health z = Zombie.getMaxHealth z.
Proof.
  cbv zeta. unfold Zombie.getMaxHealth, Zombie.new.
  destruct target; destruct (type =? "fast")%string eqn:F;
    destruct (type =? "tank")%string eqn:T; cbn; rewrite ?F, ?T; reflexivity.
Qed.

Lemma Zombie_takeDamage_health (amount : Q) (z : Zombie.t) :
  Zombie.health (Zombie.takeDamage amount z) = Zombie.health z - amount.
Proof. unfold Zombie.takeDamage. cbn. destruct (Qle_bool _ 0); reflexivity. Qed.

Lemma Zombie_takeDamage_type (amount : Q) (z : Zombie.t) :
  Zombie.type (Zombie.takeDamage amount z) = Zombie.type z.
Proof. unfold Zombie.takeDamage. cbn. destruct (Qle_bool _ 0); reflexivity. Qed.

Lemma Zombie_takeDamage_marked (amount : Q) (z : Zombie.t) :
  0 <= amount ->
  (GameEntity.markedForDeletion (Zombie.base z) = true <-> Zombie.health z <= 0) ->
  (GameEntity.markedForDeletion (Zombie.base (Zombie.takeDamage amount z)) = true <->
   Zombie.health (Zombie.takeDamage amount z) <= 0).
Proof.
  intros A I. rewrite Zombie_takeDamage_health. unfold Zombie.takeDamage. cbn.
  destruct (Qle_bool (Zombie.health z - amount) 0) eqn:E; cbn.
  - apply Qle_bool_iff in E. tauto.
  - apply Qle_bool_gt in E. rewrite I. split; intros L; lra.
Qed.

Lemma zombieHits_spec (amounts : list Q) (z : Zombie.t) :
  Forall (fun amount => 0 <= amount) amounts ->
  (GameEntity.markedForDeletion (Zombie.base z) = true <-> Zombie.health z <= 0) ->
  Zombie.health (zombieHits amounts z) == Zombie.health z - Qsum amounts /\
  Zombie.type (zombieHits amounts z) = Zombie.type z /\
  (GameEntity.markedForDeletion (Zombie.base (zombieHits amounts z)) = true <->
   Zombie.health (zombieHits amounts z) <= 0).
Proof.
  unfold zombieHits. intros P. revert z.
  induction P as [|amount amounts A P IH]; intros z I.
  - cbn. split; [ring | split; [reflexivity | exact I]].
  - cbn [fold_left Qsum fold_right].
    destruct (IH _ (Zombie_takeDamage_marked amount z A I)) as (E & T & M).
    rewrite Zombie_takeDamage_health in E. rewrite Zombie_takeDamage_type in T.
    split; [|split; assumption].
    rewrite E. fold (Qsum amounts). ring.
Qed.

(** X9: hits on a zombie add up.  For whole amounts that sum to at most
    2^53 (such as the 25, 15 and 40 of the game's bullets), its health is
    its maximum less their sum, going below zero without a clamp, and it is
    marked for deletion exactly when the sum has reached the maximum. *)
Theorem zombie_damage_adds_up (amounts : list Q) (x y : Q) (type : string) :
  Forall wholeNumber amounts ->
  Qsum amounts <= 9007199254740992 ->
  let z := zombieHits amounts (Zombie.new x y type) in
  Zombie.health z == Zombie.getMaxHealth z - Qsum amounts /\
  (GameEntity.markedForDeletion (Zombie.base z) = true <->
   Zombie.getMaxHealth z <= Qsum amounts).
Proof.
  intros W _ z.
  assert (P : Forall (fun amount => 0 <= amount) amounts).
  { eapply Forall_impl; [exact W|]. intros q [n E]. rewrite E.
    change 0 with (inject_Z 0). rewrite <- Zle_Qle. lia. }
  assert (I : GameEntity.markedForDeletion (Zombie.base (Zombie.new x y type)) = true <->
              Zombie.health (Zombie.new x y type) <= 0).
  { unfold Zombie.new.
    destruct (type =? "fast")%string; [|destruct (type =? "tank")%string]; cbn;
      (split; [discriminate | intros L; exfalso; revert L; apply Qlt_not_le; reflexivity]). }
  destruct (zombieHits_spec amounts _ P I) as (E & T & M). fold z in E, T, M.
  assert (G : Zombie.getMaxHealth z = Zombie.health (Zombie.new x y type)).
  { unfold Zombie.getMaxHealth. rewrite T. unfold Zombie.new.
    destruct (type =? "fast")%string eqn:F; destruct (type =? "tank")%string eqn:K;
      cbn; rewrite ?F, ?K; reflexivity. }
  rewrite G. split; [exact E|]. rewrite M, E. split; intros L; lra.
Qed.

(** ** Bullets *)

Section Bullets.
Context `{JSMath}.

Lemma Bullet_update_velocity (deltaTime : Q) (b : Bullet.t) :
  Bullet.velocity (Bullet.update deltaTime b) = Bullet.velocity b.
Proof. unfold Bullet.update. cbn. destruct (Qle_bool _ 0); reflexivity. Qed.

Lemma Bullet_update_lifespan (deltaTime : Q) (b : Bullet.t) :
  Bullet.lifespan (Bullet.update deltaTime b) = Bullet.lifespan b - deltaTime.
Proof. unfold Bullet.update. cbn. destruct (Qle_bool _ 0); reflexivity. Qed.

Lemma Bullet_update_x (deltaTime : Q) (b : Bullet.t) :
  GameEntity.x (Bullet.base (Bullet.update deltaTime b))
  = GameEntity.x (Bullet.base b) + Vector2D.x (Bullet.velocity b) * deltaTime.
Proof. unfold Bullet.update. cbn. destruct (Qle_bool _ 0); reflexivity. Qed.

Lemma Bullet_update_y (deltaTime : Q) (b : Bullet.t) :
  GameEntity.y (Bullet.base (Bullet.update deltaTime b))
  = GameEntity.y (Bullet.base b) + Vector2D.y (Bullet.velocity b) * deltaTime.
Proof. unfold Bullet.update. cbn. destruct (Qle_bool _ 0); reflexivity. Qed.

Lemma Bullet_update_marked (deltaTime : Q) (b : Bullet.t) :
  0 <= deltaTime ->
  (GameEntity.markedForDeletion (Bullet.base b) = true <-> Bullet.lifespan b <= 0) ->
  (GameEntity.markedForDeletion (Bullet.base (Bullet.update deltaTime b)) = true <->
   Bullet.lifespan (Bullet.update deltaTime b) <= 0).
Proof.
  intros A I. rewrite Bullet_update_lifespan. unfold Bullet.update. cbn.
  destruct (Qle_bool (Bullet.lifespan b - deltaTime) 0) eqn:E; cbn.
  - apply Qle_bool_iff in E. tauto.
  - apply Qle_bool_gt in E. rewrite I. split; intros L; lra.
Qed.

Lemma bulletFlight_spec (deltaTimes : list Q) (b : Bullet.t) :
  Forall (fun deltaTime => 0 <= deltaTime) deltaTimes ->
  (GameEntity.markedForDeletion (Bullet.base b) = true <-> Bullet.lifespan b <= 0) ->
  Bullet.velocity (bulletFlight deltaTimes b) = Bullet.velocity b /\
  GameEntity.x (Bullet.base (bulletFlight deltaTimes b))
    == GameEntity.x (Bullet.base b) + Vector2D.x (Bullet.velocity b) * Qsum deltaTimes /\
  GameEntity.y (Bullet.base (bulletFlight deltaTimes b))
    == GameEntity.y (Bullet.base b) + Vector2D.y (Bullet.velocity b) * Qsum deltaTimes /\
  Bullet.lifespan (bulletFlight deltaTimes b) == Bullet.lifespan b - Qsum deltaTimes /\
  (GameEntity.markedForDeletion (Bullet.base (bulletFlight deltaTimes b)) = true <->
   Bullet.lifespan (bulletFlight deltaTimes b) <= 0).
Proof.
  unfold bulletFlight. intros P. revert b.
  induction P as [|deltaTime deltaTimes A P IH]; intros b I.
  - cbn. repeat split; try ring; apply I.
  - cbn [fold_left Qsum fold_right]. fold (Qsum deltaTimes).
    destruct (IH _ (Bullet_update_marked deltaTime b A I)) as (V & X & Y & L & M).
    rewrite Bullet_update_velocity in V, X, Y.
    rewrite Bullet_update_x in X. rewrite Bullet_update_y in Y.
    rewrite Bullet_update_lifespan in L.
    split; [exact V|]. split; [rewrite X; ring|]. split; [rewrite Y; ring|].
    split; [rewrite L; ring | exact M].
Qed.

(** X10: a bullet lives two seconds.  Under up to a million updates with
    non-negative frame times of at most 1000 seconds in all, its velocity
    stays as it is; it is not marked for deletion while the frame times sum
    to 1.999 seconds or less, and it is marked once they sum to 2.001
    seconds or more.  For frame times that are whole numbers of 1024ths
    of a second the lifespan left is 2 less their sum, and the bullet is
    marked exactly when the sum has reached 2. *)
Theorem bullet_flies_two_seconds (x y : Q) (direction : Vector2D.t) (speed damage : Q)
    (source : string) (deltaTimes : list Q) :
  Forall (fun deltaTime => 0 <= deltaTime) deltaTimes ->
  (Z.of_nat (length deltaTimes) <= 1000000)%Z ->
  Qsum deltaTimes <= 1000 ->
  let b0 := Bullet.new x y direction speed damage source in
  let b := bulletFlight deltaTimes b0 in
  Bullet.velocity b = Bullet.velocity b0 /\
  (Qsum deltaTimes <= 1.999 -> GameEntity.markedForDeletion (Bullet.base b) = false) /\
  (2.001 <= Qsum deltaTimes -> GameEntity.markedForDeletion (Bullet.base b) = true) /\
  (Forall binaryFraction deltaTimes ->
   Bullet.lifespan b == 2 - Qsum deltaTimes /\
   (GameEntity.markedForDeletion (Bullet.base b) = true <-> 2 <= Qsum deltaTimes)).
Proof.
  intros P _ _ b0 b.
  assert (I : GameEntity.markedForDeletion (Bullet.base b0) = true <-> Bullet.lifespan b0 <= 0).
  { cbn. split; [discriminate | intros L; exfalso; revert L; apply Qlt_not_le; reflexivity]. }
  destruct (bulletFlight_spec deltaTimes b0 P I) as (V & _ & _ & L & M).
  fold b in V, L, M. change (Bullet.lifespan b0) with 2 in L.
  split; [exact V|]. split; [|split].
  - intros S. apply not_true_iff_false. rewrite M, L. intros G. lra.
  - intros S. apply M. rewrite L. lra.
  - intros _. split; [exact L|]. rewrite M, L. split; intros G; lra.
Qed.

End Bullets.

(** ** Obstacles *)

Lemma isColliding_iff (a b : GameEntity.t) :
  GameEngine.isColliding a b = true <->
  GameEntity.x a < GameEntity.x b + GameEntity.width b /\
  GameEntity.x b < GameEntity.x a + GameEntity.width a /\
  GameEntity.y a < GameEntity.y b + GameEntity.height b /\
  GameEntity.y b < GameEntity.y a + GameEntity.height a.
Proof.
  unfold GameEngine.isColliding. rewrite !andb_true_iff, !Qltb_lt. tauto.
Qed.

Lemma isColliding_not (a b : GameEntity.t) :
  GameEngine.isColliding a b = false <->
  ~ (GameEntity.x a < GameEntity.x b + GameEntity.width b /\
     GameEntity.x b < GameEntity.x a + GameEntity.width a /\
     GameEntity.y a < GameEntity.y b + GameEntity.height b /\
     GameEntity.y b < GameEntity.y a + GameEntity.height a).
Proof. rewrite <- isColliding_iff. symmetry. apply not_true_iff_false. Qed.

Lemma Qhalves (q : Q) : q / 2 + q / 2 == q.
Proof. field. Qed.

(** X11: when an obstacle pushes back an object it overlaps, both with
    whole-number positions and sizes, the two are apart afterwards exactly
    when, on the axis of the smaller overlap, the object's edge and its
    centre are on the same side of the obstacle's edge and centre;
    otherwise the two still overlap after the push. *)
Theorem push_back_separates_iff (this other : GameEntity.t) :
  wholeRectangle this -> wholeRectangle other ->
  GameEngine.isColliding this other = true ->
  (pushedOutwards this other ->
   GameEngine.isColliding this (Obstacle.pushBack this other) = false) /\
  (~ pushedOutwards this other ->
   GameEngine.isColliding this (Obstacle.pushBack this other) = true).
Proof.
  intros _ _ C.
  assert (G : GameEngine.isColliding this (Obstacle.pushBack this other) = false <->
              pushedOutwards this other);
    [|split; [apply G | intros N; apply not_false_iff_true; intros F; apply N, G, F]].
  apply isColliding_iff in C. rewrite isColliding_not.
  unfold pushedOutwards, Obstacle.pushBack, pushedAlongX, sameSide.
  destruct this as [tx ty tw th tm], other as [ox oy ow oh om].
  cbn [GameEntity.x GameEntity.y GameEntity.width GameEntity.height] in *.
  pose proof (Qhalves tw) as Htw. pose proof (Qhalves th) as Hth.
  pose proof (Qhalves ow) as How. pose proof (Qhalves oh) as Hoh.
  revert Htw Hth How Hoh. generalize (tw / 2) (th / 2) (ow / 2) (oh / 2).
  intros tw2 th2 ow2 oh2 Htw Hth How Hoh.
  pose proof (Q.min_spec (tx + tw - ox) (ox + ow - tx)) as Mx.
  pose proof (Q.min_spec (ty + th - oy) (oy + oh - ty)) as My.
  revert Mx My.
  generalize (Qmin (tx + tw - ox) (ox + ow - tx)) (Qmin (ty + th - oy) (oy + oh - ty)).
  intros mx my [[Lx Ex]|[Lx Ex]] [[Ly Ey]|[Ly Ey]].
  all: destruct (Qltb mx my) eqn:A; [apply Qltb_lt in A | apply Qltb_ge in A].
  all: match goal with
       | |- context [Qltb ?a ?b] =>
           destruct (Qltb a b) eqn:B; [apply Qltb_lt in B | apply Qltb_ge in B]
       end.
  all: cbn [GameEntity.x GameEntity.y GameEntity.width GameEntity.height
            GameEntity.set_x GameEntity.set_y].
  all: split;
    [ intros S; apply Qnot_lt_le; intros G; apply S; repeat split; lra
    | intros S (N1 & N2 & N3 & N4); lra ].
Qed.

(** ** Contact between the player and a zombie *)

Lemma onCollision_player_zombie (h : Heap) (player zombie : ref) (p : Player.t) (z : Zombie.t) :
  h !! player = Some (APlayer p) -> h !! zombie = Some (AZombie z) ->
  Entity.onCollision player zombie h = <[player := APlayer (Player.takeDamage 10 p)]> h.
Proof. intros P Z. unfold Entity.onCollision. rewrite P, Z. reflexivity. Qed.

Lemma onCollision_zombie_player (h : Heap) (player zombie : ref) (p : Player.t) (z : Zombie.t) :
  h !! player = Some (APlayer p) -> h !! zombie = Some (AZombie z) ->
  Zombie.target z = Some player ->
  Entity.onCollision zombie player h =
  if Qle_bool (Zombie.attackCooldown z) 0
  then <[zombie := AZombie (Zombie.set_attackCooldown (Zombie.attackCooldownMax z) z)]>
         (<[player := APlayer (Player.takeDamage (Zombie.damage z) p)]> h)
  else h.
Proof.
  intros P Z T. unfold Entity.onCollision. rewrite P, Z, T, P. reflexivity.
Qed.

Lemma takeDamage_twice (a b : Q) (p : Player.t) :
  0 <= a -> 0 <= b ->
  Player.health (Player.takeDamage b (Player.takeDamage a p))
  == Qmax 0 (Player.health p - (a + b)).
Proof.
  intros A B.
  destruct (takeDamage_fields b (Player.takeDamage a p)) as (-> & _).
  destruct (takeDamage_fields a p) as (-> & _).
  destruct (Q.max_spec 0 (Player.health p - a)) as [[C1 E1]|[C1 E1]];
  destruct (Q.max_spec 0 (Qmax 0 (Player.health p - a) - b)) as [[C2 E2]|[C2 E2]];
  destruct (Q.max_spec 0 (Player.health p - (a + b))) as [[C3 E3]|[C3 E3]];
  rewrite E2, E3; rewrite E1 in C2; lra.
Qed.

(** X12: one collision test of a player and a zombie that has it as its
    target and overlaps it, whichever of the two comes first in the engine's
    list: the player loses 10 health for the contact whatever the zombie's
    attack cooldown, and the zombie's damage on top when the cooldown has
    run out, down to 0 at most; the cooldown restarts in that case only. *)
Theorem contact_costs_health (h : Heap) (player zombie : ref) (p : Player.t) (z : Zombie.t)
    (pair : ref * ref) :
  h !! player = Some (APlayer p) ->
  h !! zombie = Some (AZombie z) ->
  Zombie.target z = Some player ->
  0 <= Zombie.damage z ->
  GameEngine.overlapping h player zombie = true ->
  pair = (player, zombie) \/ pair = (zombie, player) ->
  exists p' z',
    fst (GameEngine.collide pair h) !! player = Some (APlayer p') /\
    fst (GameEngine.collide pair h) !! zombie = Some (AZombie z') /\
    Player.health p' == Qmax 0 (Player.health p - contactDamage z) /\
    Zombie.attackCooldown z' =
      (if Qle_bool (Zombie.attackCooldown z) 0 then Zombie.attackCooldownMax z
       else Zombie.attackCooldown z).
Proof.
  intros P Z T D O Pair.
  assert (N : player <> zombie) by (intros ->; rewrite P in Z; discriminate).
  assert (LP : (player < length h)%nat) by (eapply lookup_lt_Some; exact P).
  assert (LZ : (zombie < length h)%nat) by (eapply lookup_lt_Some; exact Z).
  unfold contactDamage.
  destruct Pair as [-> | ->]; unfold GameEngine.collide.
  - rewrite O. cbn [fst].
    rewrite (onCollision_player_zombie h player zombie p z P Z).
    rewrite (onCollision_zombie_player _ player zombie (Player.takeDamage 10 p) z);
      [ | apply list_lookup_insert_eq; exact LP
        | rewrite list_lookup_insert_ne by exact N; exact Z | exact T ].
    destruct (Qle_bool (Zombie.attackCooldown z) 0).
    + eexists _, _. split; [|split; [|split]].
      * rewrite list_lookup_insert_ne by congruence.
        apply list_lookup_insert_eq. rewrite length_insert. exact LP.
      * apply list_lookup_insert_eq. rewrite !length_insert. exact LZ.
      * apply takeDamage_twice; [discriminate | exact D].
      * reflexivity.
    + eexists _, _. split; [|split; [|split]].
      * apply list_lookup_insert_eq. exact LP.
      * rewrite list_lookup_insert_ne by exact N. exact Z.
      * destruct (takeDamage_fields 10 p) as (-> & _).
        apply Q.max_compat; [reflexivity | ring].
      * reflexivity.
  - rewrite overlapping_sym, O. cbn [fst].
    rewrite (onCollision_zombie_player h player zombie p z P Z T).
    destruct (Qle_bool (Zombie.attackCooldown z) 0).
    + erewrite (onCollision_player_zombie _ player zombie);
        [ | rewrite list_lookup_insert_ne by congruence;
            apply list_lookup_insert_eq; exact LP
          | apply list_lookup_insert_eq; rewrite length_insert; exact LZ ].
      eexists _, _. split; [|split; [|split]].
      * apply list_lookup_insert_eq. rewrite !length_insert. exact LP.
      * rewrite list_lookup_insert_ne by exact N.
        apply list_lookup_insert_eq. rewrite length_insert. exact LZ.
      * rewrite takeDamage_twice by (exact D || discriminate).
        apply Q.max_compat; [reflexivity | ring].
      * reflexivity.
    + rewrite (onCollision_player_zombie h player zombie p z P Z).
      eexists _, _. split; [|split; [|split]].
      * apply list_lookup_insert_eq. exact LP.
      * rewrite list_lookup_insert_ne by exact N. exact Z.
      * destruct (takeDamage_fields 10 p) as (-> & _).
        apply Q.max_compat; [reflexivity | ring].
      * reflexivity.
Qed.

(** ** The director: loading, spawning *)

Section Spawns.
Context `{JSMath}.
Import ZombieShooterGame.

(** X13: when the assets fail to load, the engine is never started:
    whatever events and animation frames follow, nothing is ever drawn, no
    object exists, and the director stays on a title it cannot leave. *)
Theorem failed_load_never_draws (cw ch now : Q) (handle : nat) (actions : list Action) :
  let w := run actions (init false handle now (newWorld cw ch)) in
  trace w = [] /\ heap w = [] /\ gameState (game w) = title /\
  player (game w) = None /\ GameEngine.gameLoopId (engineOf w) = None.
Proof.
  cbv zeta. unfold run.
  assert (G : forall w : World,
            (trace w = [] /\ heap w = [] /\ gameState (game w) = title /\
             player (game w) = None /\ GameEngine.gameLoopId (engineOf w) = None) ->
            let w' := fold_left (fun w a => step a w) actions w in
            trace w' = [] /\ heap w' = [] /\ gameState (game w') = title /\
            player (game w') = None /\ GameEngine.gameLoopId (engineOf w') = None).
  { induction actions as [|a actions IH]; intros w I; [exact I|].
    cbn [fold_left]. apply IH. destruct I as (I1 & I2 & I3 & I4 & I5).
    destruct a; cbn [step]; try (repeat split; assumption).
    rewrite I5. repeat split; assumption. }
  apply G. repeat split.
Qed.

Lemma Zombie_new_base (x y : Q) (type : string) :
  Zombie.base (Zombie.new x y type) = GameEntity.new x y 35 35.
Proof.
  unfold Zombie.new.
  destruct (type =? "fast")%string; [reflexivity|].
  destruct (type =? "tank")%string; reflexivity.
Qed.

Lemma spawnSide_range (r : Q) :
  0 <= r -> r < 1 -> (0 <= Qfloor (r * 4) < 4)%Z.
Proof.
  intros L U. split.
  - change 0%Z with (Qfloor 0). apply Qfloor_resp_le. lra.
  - rewrite Zlt_Qlt. eapply Qle_lt_trans; [apply Qfloor_le|].
    change (inject_Z 4) with 4. lra.
Qed.

(** X14: with draws in [0, 1), [spawnZombie] makes three draws, constructs
    one zombie of 35 by 35, adds it at the end of the engine's list and
    gives it the player as target.  The second draw picks the side and
    the third draw [r] the place along it: the corner of the zombie is
    put 50 above the top edge at [r * mapWidth], 50 right of the right
    edge at [r * mapHeight], 50 below the bottom edge or 50 left of the
    left edge; in each case the zombie lies wholly outside of the map. *)
Theorem zombie_is_born_off_the_map (w : World) (thePlayer : ref) :
  player (game w) = Some thePlayer ->
  (forall n, 0 <= Math_random n /\ Math_random n < 1) ->
  let side := Qfloor (Math_random (S (rng w)) * 4) in
  let r := Math_random (S (S (rng w))) in
  let width := mapWidth (game w) in
  let height := mapHeight (game w) in
  exists z,
    heap (spawnZombie w) = heap w ++ [AZombie z] /\
    GameEngine.entities (engineOf (spawnZombie w))
      = GameEngine.entities (engineOf w) ++ [length (heap w)] /\
    Zombie.target z = Some thePlayer /\
    rng (spawnZombie w) = S (S (S (rng w))) /\
    ((side = 0%Z /\ Zombie.base z = GameEntity.new (r * width) (- (50)) 35 35) \/
     (side = 1%Z /\ Zombie.base z = GameEntity.new (width + 50) (r * height) 35 35) \/
     (side = 2%Z /\ Zombie.base z = GameEntity.new (r * width) (height + 50) 35 35) \/
     (side = 3%Z /\ Zombie.base z = GameEntity.new (- (50)) (r * height) 35 35)) /\
    offMap (game w) (Zombie.base z).
Proof.
  intros P R. cbv zeta. unfold spawnZombie. rewrite P. unfold random. cbn [rng set_rng game].
  destruct (spawnSide_range _ (proj1 (R (S (rng w)))) (proj2 (R (S (rng w))))) as [L U].
  unfold offMap.
  destruct (Qfloor (Math_random (S (rng w)) * 4)) as [|[[]|[]|]|]; try lia;
    cbn [rng set_rng game heap];
    (eexists; split; [reflexivity|]; split; [reflexivity|]; split; [reflexivity|];
     split; [reflexivity|]);
    cbn [Zombie.setTarget Zombie.base]; rewrite Zombie_new_base;
    cbn [GameEntity.new GameEntity.x GameEntity.y GameEntity.width GameEntity.height].
  - split; [left; split; reflexivity|]. do 2 right. left. discriminate.
  - split; [do 3 right; split; reflexivity|]. left. discriminate.
  - split; [do 2 right; left; split; reflexivity|]. do 3 right. lra.
  - split; [right; left; split; reflexivity|]. right. left. lra.
Qed.

(** X15: the pause after a spawn is [1.5 - Math.min(1.3, wave * 0.1)]:
    1.5 seconds less a tenth per wave up to wave 13 and 0.2 seconds from
    wave 13 on, each to within a billionth of a second, and so between 0.2
    and 1.4 seconds to within a billionth. *)
Theorem spawn_cooldown_bounds (deltaTime : Q) (w : World) (thePlayer : ref) :
  player (game w) = Some thePlayer ->
  (0 < zombiesRemaining (game w))%Z ->
  spawnCooldown (game w) <= 0 ->
  (1 <= wave (game w))%Z ->
  let c := spawnCooldown (game (updateZombieSpawning deltaTime w)) in
  let margin := 1 # 1000000000 in
  c = 1.5 - Qmin 1.3 (inject_Z (wave (game w)) * 0.1) /\
  0.2 - margin <= c /\ c <= 1.4 + margin /\
  ((wave (game w) <= 13)%Z ->
   1.5 - inject_Z (wave (game w)) * 0.1 - margin <= c /\
   c <= 1.5 - inject_Z (wave (game w)) * 0.1 + margin) /\
  ((13 <= wave (game w))%Z -> 0.2 - margin <= c /\ c <= 0.2 + margin).
Proof.
  intros P Z C W. cbv zeta.
  destruct (updateZombieSpawning_spec deltaTime w thePlayer P Z) as (_ & [[C' _]|[_ O]]);
    [exfalso; lra|].
  apply (f_equal (fun o => snd (fst (fst o)))) in O. cbn [waveObs fst snd] in O.
  unfold waveObs in O. cbv zeta in O. cbn [fst snd] in O. rewrite O.
  split; [reflexivity|].
  rewrite Zle_Qle in W. change (inject_Z 1) with 1 in W.
  assert (W13 : (wave (game w) <= 13)%Z -> inject_Z (wave (game w)) <= 13)
    by (intros L; rewrite Zle_Qle in L; exact L).
  assert (W13' : (13 <= wave (game w))%Z -> 13 <= inject_Z (wave (game w)))
    by (intros L; rewrite Zle_Qle in L; exact L).
  revert W W13 W13'. generalize (inject_Z (wave (game w))). intros v W W13 W13'.
  destruct (Q.min_spec 1.3 (v * 0.1)) as [[M E]|[M E]]; rewrite E.
  - split; [lra|]. split; [lra|].
    split; intros L; [specialize (W13 L) | specialize (W13' L)]; split; lra.
  - split; [lra|]. split; [lra|].
    split; intros L; [specialize (W13 L) | specialize (W13' L)]; split; lra.
Qed.

Lemma pickupOverlaps_isColliding (h : Heap) (x y : Q) (obstacle : ref) (e : Entity.t) :
  h !! obstacle = Some e ->
  pickupOverlaps h x y obstacle
  = GameEngine.isColliding (GameEntity.new x y 20 20) (Entity.baseOf e).
Proof. intros E. unfold pickupOverlaps. rewrite E. reflexivity. Qed.

Lemma placePickup_clear (attemptsLeft : nat) (x y : Q) (w : World) :
  heap (snd (placePickup attemptsLeft x y w)) = heap w /\
  game (snd (placePickup attemptsLeft x y w)) = game w /\
  trace (snd (placePickup attemptsLeft x y w)) = trace w /\
  forall x' y', fst (placePickup attemptsLeft x y w) = Some (x', y') ->
    existsb (pickupOverlaps (heap w) x' y') (obstacles (game w)) = false.
Proof.
  revert x y w. induction attemptsLeft as [|n IH]; intros x y w.
  - cbn. repeat split. discriminate.
  - cbn [placePickup].
    destruct (existsb (pickupOverlaps (heap w) x y) (obstacles (game w))) eqn:E.
    + unfold random. cbn [rng set_rng game].
      match goal with
      | |- context [placePickup n ?X ?Y ?W] => destruct (IH X Y W) as (I1 & I2 & I3 & I4)
      end.
      rewrite I1, I2, I3. repeat split. exact I4.
    + cbn [fst snd]. repeat split. intros x' y' [= <- <-]. exact E.
Qed.

(** X16: [spawnPickup] adds no object or one pickup, which is of one of
    the four kinds with the value of its kind, and which the engine's
    collision test finds apart from every obstacle of the map. *)
Theorem pickup_spawns_clear_of_obstacles (w : World) :
  heap (spawnPickup w) = heap w \/
  exists k,
    heap (spawnPickup w) = heap w ++ [APickup k] /\
    (Pickup.type k, Pickup.value k) ∈ pickupKinds /\
    forall obstacle e,
      obstacle ∈ obstacles (game w) -> heap w !! obstacle = Some e ->
      GameEngine.isColliding (Pickup.base k) (Entity.baseOf e) = false.
Proof.
  unfold spawnPickup. unfold random at 1. cbn [rng set_rng game].
  destruct (if (0 <=? Qfloor (Math_random (rng w) * 4))%Z
            then ["health"; "ammo_pistol"; "ammo_shotgun"; "ammo_rifle"]
                   !! Z.to_nat (Qfloor (Math_random (rng w) * 4))
            else None) as [type|] eqn:T; [|left; reflexivity].
  assert (K : (type, if (type =? "health")%string then 25
                     else if (type =? "ammo_pistol")%string then 15
                     else if (type =? "ammo_shotgun")%string then 5
                     else if (type =? "ammo_rifle")%string then 10 else 0) ∈ pickupKinds).
  { destruct (0 <=? Qfloor (Math_random (rng w) * 4))%Z; [|discriminate].
    destruct (Z.to_nat (Qfloor (Math_random (rng w) * 4))) as [|[|[|[|]]]];
      cbn in T; try discriminate; injection T as <-; cbn;
      unfold pickupKinds; set_solver. }
  unfold random. cbn [rng set_rng game].
  match goal with
  | |- context [placePickup 10 ?X ?Y ?W] =>
      destruct (placePickup_clear 10 X Y W) as (I1 & I2 & I3 & I4);
      destruct (placePickup 10 X Y W) as [[[x' y']|] w'] eqn:Pl
  end; cbn [fst snd heap game set_rng] in *; [|left; exact I1].
  right. rewrite ?T. eexists. split; [rewrite spawn_heap, I1; reflexivity|].
  split; [exact K|].
  intros obstacle e O E.
  specialize (I4 x' y' eq_refl).
  cbn [Pickup.base Pickup.new].
  rewrite <- (pickupOverlaps_isColliding _ x' y' obstacle e E).
  destruct (pickupOverlaps (heap w) x' y' obstacle) eqn:V; [|reflexivity].
  assert (X : existsb (pickupOverlaps (heap w) x' y') (obstacles (game w)) = true).
  { apply existsb_exists. exists obstacle. split; [|exact V].
    apply list_elem_of_In. exact O. }
  congruence.
Qed.

End Spawns.

(** ** The director: the start of a game *)

Section Start.
Context `{JSMath}.
Import ZombieShooterGame.

Lemma withObstacles_nil (w : World) : withObstacles [] (rng w) w = w.
Proof.
  destruct w as [h g n tr]. destruct g. unfold withObstacles. cbn.
  rewrite !app_nil_r.
  match goal with |- context [GameEngine.set_entities _ ?e] => destruct e end.
  reflexivity.
Qed.

Lemma withObstacles_app (os1 os2 : list Obstacle.t) (n1 n2 : nat) (w : World) :
  withObstacles os2 n2 (withObstacles os1 n1 w) = withObstacles (os1 ++ os2) n2 w.
Proof.
  unfold withObstacles.
  cbn [heap game trace obstacles engine set_obstacles set_engine
       GameEngine.entities GameEngine.set_entities].
  rewrite !length_app, length_map, map_app, seq_app, !app_assoc. reflexivity.
Qed.

Lemma withObstacles_set_rng (os : list Obstacle.t) (n m : nat) (w : World) :
  withObstacles os n (set_rng m w) = withObstacles os n w.
Proof. reflexivity. Qed.

Lemma placeObstacle_with (x y width height : Q) (w : World) :
  placeObstacle x y width height w
  = withObstacles [Obstacle.new x y width height] (rng w) w.
Proof. reflexivity. Qed.

Lemma randomObstacles_spec (count : nat) (wallThickness : Q) (w : World) :
  exists os n,
    (length os <= count)%nat /\
    Forall (cornerOutside (mapWidth (game w)) (mapHeight (game w))) os /\
    randomObstacles count wallThickness w = withObstacles os n w.
Proof.
  revert w. induction count as [|count IH]; intros w.
  - exists [], (rng w). split; [reflexivity|]. split; [constructor|].
    symmetry. apply withObstacles_nil.
  - cbn [randomObstacles]. unfold random. cbv beta iota zeta.
    cbn [rng set_rng game].
    match goal with |- context [if ?c then _ else _] => destruct c eqn:C end.
    + match goal with
      | |- context [randomObstacles count _ ?W] =>
          destruct (IH W) as (os & n & L & F & E)
      end.
      exists os, n. split; [lia|]. split; [exact F|].
      rewrite E. reflexivity.
    + match goal with
      | |- context [randomObstacles count _ (placeObstacle ?X ?Y ?WD ?HT ?W)] =>
          destruct (IH (placeObstacle X Y WD HT W)) as (os & n & L & F & E);
          exists (Obstacle.new X Y WD HT :: os), n
      end.
      split; [cbn [length]; lia|]. split.
      * constructor; [|exact F].
        unfold cornerOutside. cbn [Obstacle.new Obstacle.base GameEntity.new GameEntity.x GameEntity.y].
        intros (C1 & C2 & C3 & C4).
        apply Qltb_lt in C1, C2, C3, C4. rewrite C1, C2, C3, C4 in C. discriminate.
      * rewrite E, placeObstacle_with, withObstacles_app. reflexivity.
Qed.

Lemma createObstacles_spec (w : World) :
  exists os n,
    (length os <= 5)%nat /\
    Forall (cornerOutside (mapWidth (game w)) (mapHeight (game w))) os /\
    createObstacles w
    = withObstacles (walls (game w) ++ os) n (set_game (set_obstacles [] (game w)) w).
Proof.
  unfold createObstacles. cbv zeta.
  match goal with
  | |- context [randomObstacles 5 ?T ?W] =>
      destruct (randomObstacles_spec 5 T W) as (os & n & L & F & E)
  end.
  exists os, n. split; [exact L|]. split; [exact F|].
  rewrite E, !placeObstacle_with, !withObstacles_app. reflexivity.
Qed.

(** X17: [startGame] leaves the director playing wave 1 with seven zombies
    to spawn, score 0 and the timers at 0; the engine's list holds the
    objects it has just constructed and nothing from before: a new player
    in the middle of the map, the four walls, and at most five further
    obstacles, none with its corner within 100 of the centre. *)
Theorem startGame_layout (w : World) :
  let g := game w in
  let first := length (heap w) in
  exists os : list Obstacle.t,
    (length os <= 5)%nat /\
    Forall (cornerOutside (mapWidth g) (mapHeight g)) os /\
    heap (startGame w)
      = heap w ++ APlayer (Player.new (mapWidth g / 2 - 20) (mapHeight g / 2 - 20))
                  :: map AnObstacle (walls g ++ os) /\
    player (game (startGame w)) = Some first /\
    obstacles (game (startGame w)) = seq (S first) (4 + length os) /\
    GameEngine.entities (engineOf (startGame w)) = seq first (5 + length os) /\
    gameState (game (startGame w)) = playing /\
    score (game (startGame w)) = 0 /\
    wave (game (startGame w)) = 1%Z /\
    zombiesRemaining (game (startGame w)) = 7%Z /\
    spawnCooldown (game (startGame w)) = 0 /\
    waveTimer (game (startGame w)) = 0 /\
    pickupSpawnTimer (game (startGame w)) = 0.
Proof.
  cbv zeta. unfold startGame. cbv zeta. unfold spawn, Entity.alloc. cbv beta iota zeta.
  match goal with
  | |- context [createObstacles ?W] =>
      destruct (createObstacles_spec W) as (os & n & L & F & E); rewrite E; clear E
  end.
  exists os. split; [exact L|]. split; [exact F|].
  unfold withObstacles, startWave.
  cbn [heap game trace rng set_game set_heap withEngine engineOf
       obstacles engine player score wave zombiesRemaining spawnCooldown gameState
       waveTimer pickupSpawnTimer mapWidth mapHeight
       set_obstacles set_engine set_player set_score set_wave set_zombiesRemaining
       set_spawnCooldown set_gameState set_waveTimer set_pickupSpawnTimer
       GameEngine.entities GameEngine.set_entities GameEngine.addEntity].
  rewrite !length_app. cbn [length app walls]. rewrite Nat.add_1_r.
  repeat split.
  rewrite <- app_assoc. reflexivity.
Qed.

End Start.

(** ** The director: shooting and the succession of waves *)

Section Play.
Context `{JSMath}.
Import ZombieShooterGame.

Lemma still_refl (w : World) : still w w.
Proof. split; reflexivity. Qed.

Lemma still_trans (w1 w2 w3 : World) : still w1 w2 -> still w2 w3 -> still w1 w3.
Proof. intros [A1 A2] [B1 B2]. split; congruence. Qed.

Lemma still_onPlayer (f : Player.t -> Player.t) (a : ref) (w : World) :
  still w (onPlayer f a w).
Proof.
  unfold onPlayer. destruct (heap w !! a) as [[p| | | |]|]; try apply still_refl.
  split; [apply length_insert | reflexivity].
Qed.

Lemma addBullets_input (bullets : list Bullet.t) (w : World) :
  input (game (addBullets bullets w)) = input (game w).
Proof.
  revert w. induction bullets as [|b bullets IH]; intros w; [reflexivity|].
  cbn [addBullets]. rewrite IH. reflexivity.
Qed.

Lemma isMouseButtonDown_reset (b : nat) (i : InputHandler.t) :
  InputHandler.isMouseButtonDown b (InputHandler.resetMouseButton b i) = false.
Proof.
  unfold InputHandler.isMouseButtonDown, InputHandler.resetMouseButton.
  cbn [InputHandler.mouseButtons]. rewrite lookup_insert_eq. reflexivity.
Qed.

(** An input pass either constructs nothing and leaves the input handler
    alone, or it found the left button down and leaves it up. *)
Lemma handlePlayerInput_cases (deltaTime : Q) (w : World) :
  still w (handlePlayerInput deltaTime w) \/
  (InputHandler.isMouseButtonDown 0 (input (game w)) = true /\
   InputHandler.isMouseButtonDown 0 (input (game (handlePlayerInput deltaTime w))) = false).
Proof.
  unfold handlePlayerInput. destruct (player (game w)) as [a|]; [|left; apply still_refl].
  cbv zeta.
  match goal with
  | |- context [if _ then onPlayer _ _ ?W else _] => set (w3 := W)
  end.
  assert (E3 : still w w3 \/
               (InputHandler.isMouseButtonDown 0 (input (game w)) = true /\
                InputHandler.isMouseButtonDown 0 (input (game w3)) = false)); [subst w3|].
  { match goal with
    | |- context [match heap ?W !! _ with _ => _ end] => set (w2 := W)
    end.
    assert (E2 : still w w2); [subst w2|].
    { eapply still_trans; [|apply still_onPlayer].
      destruct (_ || _); [apply still_onPlayer | apply still_refl]. }
    destruct (heap w2 !! a) as [[p| | | |]|] eqn:Ep; try (left; exact E2).
    destruct (InputHandler.isMouseButtonDown 0 (input (game w))) eqn:B;
      [|left; exact E2].
    destruct (Player.canShoot p) eqn:C; [|left; exact E2].
    right. split; [reflexivity|]. cbn [andb].
    destruct (Player.shoot (rng w2) p) as [[bullets p'] n].
    cbn [game set_game input set_input]. apply isMouseButtonDown_reset. }
  assert (S : forall weapon, still w3 (onPlayer (Player.switchWeapon weapon) a w3))
    by (intros weapon; apply still_onPlayer).
  assert (G : forall w4, still w3 w4 ->
            still w w4 \/
            (InputHandler.isMouseButtonDown 0 (input (game w)) = true /\
             InputHandler.isMouseButtonDown 0 (input (game w4)) = false)).
  { intros w4 S4. destruct E3 as [E3|[E3 E3']].
    - left. exact (still_trans _ _ _ E3 S4).
    - right. split; [exact E3|]. rewrite (proj2 S4). exact E3'. }
  repeat (match goal with |- context [if ?c then _ else _] => destruct c end);
    apply G; first [apply S | apply still_refl].
Qed.

(** X18: no automatic fire.  Of two input passes in a row, with no mouse
    event between them, at most one constructs bullets: a pass that fires
    leaves the left button up, and a pass that finds it up fires nothing. *)
Theorem one_shot_per_press (deltaTime1 deltaTime2 : Q) (w : World) :
  let w1 := handlePlayerInput deltaTime1 w in
  let w2 := handlePlayerInput deltaTime2 w1 in
  length (heap w1) = length (heap w) \/ length (heap w2) = length (heap w1).
Proof.
  cbv zeta.
  destruct (handlePlayerInput_cases deltaTime1 w) as [[L _]|[_ U]]; [left; exact L|].
  right.
  destruct (handlePlayerInput_cases deltaTime2 (handlePlayerInput deltaTime1 w))
    as [[L _]|[D _]]; [exact L | congruence].
Qed.

(** X19: once the last zombie of a wave has been spawned, [update] counts
    the time up to [waveDelay] and then starts the next wave with its
    5 + 2 * wave zombies to spawn; it neither spawns a zombie meanwhile nor
    looks at the zombies that are still there. *)
Theorem next_wave_after_delay (deltaTime : Q) (w : World) (thePlayer : ref) :
  player (game w) = Some thePlayer ->
  (zombiesRemaining (game w) <= 0)%Z ->
  waveObs (update deltaTime w) =
    if Qle_bool (waveDelay (game w)) (waveTimer (game w) + deltaTime)
    then ((wave (game w) + 1)%Z, (5 + 2 * (wave (game w) + 1))%Z, 0, 0,
          zombiesBuilt (heap w))
    else (wave (game w), zombiesRemaining (game w), spawnCooldown (game w),
          waveTimer (game w) + deltaTime, zombiesBuilt (heap w)).
Proof.
  intros P Z.
  destruct (update_proceeds_before_checks deltaTime w thePlayer P) as (_ & O & ->).
  destruct (update_tail thePlayer
              (updatePickupSpawning deltaTime
                 (waveStep deltaTime (handlePlayerInput deltaTime w))))
    as (_ & -> & _).
  rewrite O. clear O.
  pose proof (evolves_handlePlayerInput deltaTime w) as E.
  pose proof (evolves_waveObs _ _ E) as O.
  destruct E as [S _]. destruct (steady_fields _ _ S) as (_ & _ & E1 & E2 & E3 & E4 & E5 & _).
  assert (Z' : (zombiesRemaining (game (handlePlayerInput deltaTime w)) <= 0)%Z)
    by (rewrite E2; exact Z).
  destruct (waveStep_waiting deltaTime _ Z') as (_ & _ & ->).
  rewrite E1, E2, E3, E4, E5.
  apply (f_equal (fun o => snd o)) in O. cbn [waveObs snd] in O.
  unfold waveObs in O. cbv zeta in O. cbn [snd] in O. rewrite O.
  rewrite floor_count. reflexivity.
Qed.

End Play.

(** ** The director: the score *)

Section Score.
Context `{JSMath}.
Import ZombieShooterGame.

Lemma evolves_score (n : nat) (w w' : World) :
  evolves n w w' -> score (game w') = score (game w).
Proof. intros [S _]. exact (f_equal score S). Qed.

Lemma waveStep_score (deltaTime : Q) (w : World) (thePlayer : ref) :
  player (game w) = Some thePlayer ->
  score (game (waveStep deltaTime w)) = score (game w).
Proof.
  intros P. unfold waveStep. cbv zeta.
  destruct (zombiesRemaining (game w) <=? 0)%Z.
  - cbn [game set_game waveDelay waveTimer set_waveTimer].
    destruct (Qle_bool (waveDelay (game w)) (waveTimer (game w) + deltaTime)); reflexivity.
  - unfold updateZombieSpawning. cbv zeta.
    destruct (Qltb 0 (spawnCooldown (game w))); [reflexivity|].
    destruct (0 <? zombiesRemaining (game w))%Z; [|reflexivity].
    cbn [game set_game score set_zombiesRemaining set_spawnCooldown].
    exact (evolves_score _ _ _ (evolves_spawnZombie w thePlayer P)).
Qed.

Lemma update_score (deltaTime : Q) (w : World) :
  score (game (update deltaTime w)) = score (game w).
Proof.
  destruct (player (game w)) as [thePlayer|] eqn:P;
    [|unfold update; rewrite P; reflexivity].
  rewrite (update_steps deltaTime w thePlayer P).
  pose proof (evolves_handlePlayerInput deltaTime w) as E1.
  assert (P' : player (game (handlePlayerInput deltaTime w)) = Some thePlayer).
  { destruct E1 as [S _]. destruct (steady_fields _ _ S) as (_ & -> & _). exact P. }
  rewrite <- (evolves_score _ _ _ E1).
  rewrite <- (waveStep_score deltaTime _ thePlayer P').
  rewrite <- (evolves_score _ _ _
                (evolves_updatePickupSpawning deltaTime
                   (waveStep deltaTime (handlePlayerInput deltaTime w)))).
  generalize (updatePickupSpawning deltaTime
                (waveStep deltaTime (handlePlayerInput deltaTime w))).
  intros w3. unfold renderUI, pauseCheck, deathCheck.
  destruct (Entity.isMarked (heap w3) thePlayer);
    cbn [game set_game input set_gameState];
    destruct (InputHandler.isKeyDown "Escape" (input (game w3))); reflexivity.
Qed.

Lemma startGame_score (w : World) : score (game (startGame w)) = 0.
Proof.
  unfold startGame. cbv zeta. unfold spawn, Entity.alloc. cbv beta iota zeta.
  match goal with
  | |- context [createObstacles ?W] =>
      destruct (createObstacles_spec W) as (os & n & _ & _ & E); rewrite E; clear E
  end.
  reflexivity.
Qed.

Lemma restart_score (w : World) (after : World -> World) :
  (forall w', score (game (after w')) = score (game w')) ->
  score (game (after (startGame w))) = 0.
Proof. intros A. rewrite A. apply startGame_score. Qed.

Lemma handleTitleScreenInput_score (w : World) :
  score (game w) = 0 -> score (game (handleTitleScreenInput w)) = 0.
Proof.
  intros Z. unfold handleTitleScreenInput.
  destruct (InputHandler.isMouseButtonDown 0 (input (game w))); [|exact Z].
  apply (restart_score w
           (fun w' => set_game (set_input (InputHandler.resetMouseButton 0 (input (game w')))
                                          (game w')) w')).
  reflexivity.
Qed.

Lemma handlePauseScreenInput_score (now : Q) (w : World) :
  score (game w) = 0 -> score (game (handlePauseScreenInput now w)) = 0.
Proof.
  intros Z. unfold handlePauseScreenInput.
  destruct (InputHandler.isKeyDown "Escape" (input (game w))); [exact Z|].
  destruct (InputHandler.isMouseButtonDown 0 (input (game w))); [|exact Z].
  apply (restart_score w
           (fun w' =>
              let w' := withEngine (GameEngine.resume now (engineOf w')) w' in
              set_game (set_input (InputHandler.resetMouseButton 0 (input (game w')))
                                  (game w')) w')).
  reflexivity.
Qed.

Lemma handleGameOverScreenInput_score (w : World) :
  score (game w) = 0 -> score (game (handleGameOverScreenInput w)) = 0.
Proof.
  intros Z. unfold handleGameOverScreenInput.
  destruct (InputHandler.isMouseButtonDown 0 (input (game w))); [|exact Z].
  apply (restart_score w
           (fun w' => set_game (set_input (InputHandler.resetMouseButton 0 (input (game w')))
                                          (game w')) w')).
  reflexivity.
Qed.

Lemma gameLoop_score (now deltaTime : Q) (w : World) :
  score (game w) = 0 -> score (game (gameLoop now deltaTime w)) = 0.
Proof.
  intros Z. unfold gameLoop.
  destruct (gameState (game w)).
  - exact Z.
  - apply handleTitleScreenInput_score. exact Z.
  - rewrite update_score. exact Z.
  - apply handlePauseScreenInput_score. exact Z.
  - apply handleGameOverScreenInput_score. exact Z.
Qed.

Lemma frame_score (handle : nat) (now timestamp : Q) (w : World) :
  score (game w) = 0 -> score (game (frame handle now timestamp w)) = 0.
Proof.
  intros Z. destruct (GameEngine.isPaused (engineOf w)) eqn:P.
  - rewrite (frame_paused _ _ _ _ P). exact Z.
  - rewrite (frame_running _ _ _ _ P). rewrite engineRender_game.
    apply gameLoop_score.
    rewrite (evolves_score _ _ _ (evolves_originalUpdate _ _)). exact Z.
Qed.

Lemma step_score (a : Action) (w : World) :
  score (game w) = 0 -> score (game (step a w)) = 0.
Proof.
  intros Z. destruct a; cbn [step]; try exact Z.
  destruct (GameEngine.gameLoopId (engineOf w)); [|exact Z].
  apply frame_score, Z.
Qed.

Lemma init_score (loaded : bool) (handle : nat) (now cw ch : Q) :
  score (game (init loaded handle now (newWorld cw ch))) = 0.
Proof. destruct loaded; reflexivity. Qed.

(** X20: the score of a game is 0 in every state it reaches, whatever is
    shot: nothing the game does between its construction and any later
    frame or event adds to the score. *)
Theorem score_stays_zero (loaded : bool) (handle : nat) (now cw ch : Q)
    (actions : list Action) :
  score (game (run actions (init loaded handle now (newWorld cw ch)))) = 0.
Proof.
  unfold run.
  generalize (init_score loaded handle now cw ch).
  generalize (init loaded handle now (newWorld cw ch)).
  induction actions as [|a actions IH]; intros w Z; [exact Z|].
  cbn [fold_left]. apply IH, step_score, Z.
Qed.

End Score.

(** ** Obstacles stay, bullets are used up *)

Section Permanent.
Context `{JSMath}.

Lemma onCollision_obstacle (self other : ref) (h : Heap) (a : ref) (o : Obstacle.t) :
  h !! a = Some (AnObstacle o) ->
  Entity.onCollision self other h !! a = Some (AnObstacle o).
Proof.
  intros A. unfold Entity.onCollision.
  destruct (h !! self) as [[p|z|b|k|ob]|] eqn:S;
    destruct (h !! other) as [[p'|z'|b'|k'|ob']|] eqn:O; try exact A;
    repeat match goal with
      | |- context [match Zombie.target ?z with _ => _ end] =>
          destruct (Zombie.target z) as [t|] eqn:T
      | |- context [match h !! ?t with _ => _ end] =>
          destruct (h !! t) as [[| | | |]|] eqn:?
      | |- context [if ?c then _ else _] => destruct c
      end;
    try exact A;
    repeat (rewrite list_lookup_insert_ne by (intros ->; congruence)); exact A.
Qed.

Lemma update_obstacle (self : ref) (deltaTime : Q) (h : Heap) (a : ref) (o : Obstacle.t) :
  h !! a = Some (AnObstacle o) ->
  Entity.update self deltaTime h !! a = Some (AnObstacle o).
Proof.
  intros A. unfold Entity.update.
  destruct (h !! self) as [[p|z|b|k|ob]|] eqn:S; try exact A;
    rewrite list_lookup_insert_ne by (intros ->; congruence); exact A.
Qed.

Lemma collideAll_obstacle (pairs : list (ref * ref)) (h : Heap) (a : ref) (o : Obstacle.t) :
  h !! a = Some (AnObstacle o) ->
  fst (GameEngine.collideAll pairs h) !! a = Some (AnObstacle o).
Proof.
  revert h. induction pairs as [|[x y] pairs IH]; intros h A; [exact A|].
  cbn [GameEngine.collideAll].
  assert (A1 : fst (GameEngine.collide (x, y) h) !! a = Some (AnObstacle o)).
  { unfold GameEngine.collide. destruct (GameEngine.overlapping h x y); [|exact A].
    cbn [fst]. apply onCollision_obstacle, onCollision_obstacle, A. }
  destruct (GameEngine.collide (x, y) h) as [h1 calls1]. cbn [fst] in A1.
  specialize (IH h1 A1).
  destruct (GameEngine.collideAll pairs h1) as [h2 calls2]. exact IH.
Qed.

Lemma updateAll_obstacle (l : list ref) (deltaTime : Q) (h : Heap) (a : ref) (o : Obstacle.t) :
  h !! a = Some (AnObstacle o) ->
  GameEngine.updateAll l deltaTime h !! a = Some (AnObstacle o).
Proof.
  revert h. induction l as [|x l IH]; intros h A; [exact A|].
  cbn [GameEngine.updateAll]. apply IH, update_obstacle, A.
Qed.

(** X21: nothing an update of the engine does touches an obstacle: after
    the collision pass, the update pass and the removal of the marked
    entities, an obstacle that was in the list and not marked is the same
    object as before and still in the list. *)
Theorem obstacles_are_permanent (deltaTime : Q) (g : GameEngine.t) (h : Heap)
    (a : ref) (o : Obstacle.t) :
  h !! a = Some (AnObstacle o) ->
  GameEntity.markedForDeletion (Obstacle.base o) = false ->
  a ∈ GameEngine.entities g ->
  snd (fst (GameEngine.update deltaTime (g, h))) !! a = Some (AnObstacle o) /\
  a ∈ GameEngine.entities (fst (fst (GameEngine.update deltaTime (g, h)))).
Proof.
  intros A M I. unfold GameEngine.update, GameEngine.checkCollisions.
  pose proof (collideAll_obstacle (GameEngine.pairsOf (GameEngine.entities g)) h a o A) as A1.
  destruct (GameEngine.collideAll (GameEngine.pairsOf (GameEngine.entities g)) h)
    as [h1 calls]. cbn [fst] in A1.
  pose proof (updateAll_obstacle (GameEngine.entities g) deltaTime h1 a o A1) as A2.
  cbn [fst snd GameEngine.entities GameEngine.set_entities].
  split; [exact A2|].
  apply list_elem_of_filter. split; [|exact I].
  unfold Entity.isMarked. rewrite A2. exact M.
Qed.

End Permanent.

Lemma onCollision_bullet_zombie (h : Heap) (bullet zombie : ref) (b : Bullet.t) (z : Zombie.t) :
  h !! bullet = Some (ABullet b) -> h !! zombie = Some (AZombie z) ->
  Entity.onCollision bullet zombie h =
  if (Bullet.source b =? "player")%string then <[bullet := ABullet (spent b)]> h else h.
Proof. intros B Z. unfold Entity.onCollision. rewrite B, Z. reflexivity. Qed.

Lemma onCollision_zombie_bullet (h : Heap) (bullet zombie : ref) (b : Bullet.t) (z : Zombie.t) :
  h !! bullet = Some (ABullet b) -> h !! zombie = Some (AZombie z) ->
  Entity.onCollision zombie bullet h =
  if (Bullet.source b =? "player")%string
  then <[zombie := AZombie (Zombie.takeDamage (Bullet.damage b) z)]> h else h.
Proof. intros B Z. unfold Entity.onCollision. rewrite B, Z. reflexivity. Qed.

(** X22: one collision test of a bullet and a zombie that overlap,
    whichever of the two comes first in the engine's list: a bullet of the
    player is marked for deletion and the zombie takes its damage; a bullet
    of any other source passes and nothing changes. *)
Theorem bullet_hits_zombie (h : Heap) (bullet zombie : ref) (b : Bullet.t) (z : Zombie.t)
    (pair : ref * ref) :
  h !! bullet = Some (ABullet b) ->
  h !! zombie = Some (AZombie z) ->
  GameEngine.overlapping h bullet zombie = true ->
  pair = (bullet, zombie) \/ pair = (zombie, bullet) ->
  fst (GameEngine.collide pair h) =
  if (Bullet.source b =? "player")%string
  then <[zombie := AZombie (Zombie.takeDamage (Bullet.damage b) z)]>
         (<[bullet := ABullet (spent b)]> h)
  else h.
Proof.
  intros B Z O Pair.
  assert (N : bullet <> zombie) by (intros ->; rewrite B in Z; discriminate).
  assert (LB : (bullet < length h)%nat) by (eapply lookup_lt_Some; exact B).
  assert (LZ : (zombie < length h)%nat) by (eapply lookup_lt_Some; exact Z).
  destruct Pair as [-> | ->]; unfold GameEngine.collide.
  - rewrite O. cbn [fst].
    rewrite (onCollision_bullet_zombie h bullet zombie b z B Z).
    destruct (Bullet.source b =? "player")%string eqn:S.
    + rewrite (onCollision_zombie_bullet _ bullet zombie (spent b) z);
        [ | apply list_lookup_insert_eq; exact LB
          | rewrite list_lookup_insert_ne by exact N; exact Z ].
      change (Bullet.source (spent b)) with (Bullet.source b). rewrite S. reflexivity.
    + rewrite (onCollision_zombie_bullet h bullet zombie b z B Z), S. reflexivity.
  - rewrite overlapping_sym, O. cbn [fst].
    rewrite (onCollision_zombie_bullet h bullet zombie b z B Z).
    destruct (Bullet.source b =? "player")%string eqn:S.
    + rewrite (onCollision_bullet_zombie _ bullet zombie b (Zombie.takeDamage (Bullet.damage b) z));
        [ | rewrite list_lookup_insert_ne by congruence; exact B
          | apply list_lookup_insert_eq; exact LZ ].
      rewrite S. apply list_insert_insert_ne. congruence.
    + rewrite (onCollision_bullet_zombie h bullet zombie b z B Z), S. reflexivity.
Qed.

(** ** What stays on the canvas *)

Section Canvas.
Context `{JSMath}.
Import ZombieShooterGame.

Lemma onCanvas_from (evs : list Event) (shown : list Event) :
  (forall ev, ev ∈ evs -> ev <> ClearCanvas) ->
  fold_left (fun shown ev => match ev with ClearCanvas => [] | _ => shown ++ [ev] end)
    evs shown = shown ++ evs.
Proof.
  revert shown. induction evs as [|ev evs IH]; intros shown N.
  - cbn. rewrite app_nil_r. reflexivity.
  - cbn [fold_left].
    assert (E : ev <> ClearCanvas) by (apply N; left).
    assert (N' : forall ev', ev' ∈ evs -> ev' <> ClearCanvas)
      by (intros ev' I; apply N; right; exact I).
    destruct ev; try congruence; rewrite (IH _ N'), <- app_assoc; reflexivity.
Qed.

Lemma onCanvas_cleared (before after : list Event) :
  (forall ev, ev ∈ after -> ev <> ClearCanvas) ->
  onCanvas (before ++ ClearCanvas :: after) = after.
Proof.
  intros N. unfold onCanvas. rewrite fold_left_app. cbn [fold_left].
  rewrite (onCanvas_from after [] N). reflexivity.
Qed.

Lemma onCanvas_render (before : list Event) (g : GameEngine.t) :
  onCanvas (before ++ GameEngine.render g) = map Rendered (GameEngine.entities g).
Proof.
  unfold GameEngine.render. apply onCanvas_cleared.
  intros ev I. apply list_elem_of_fmap in I as (a & -> & _). discriminate.
Qed.

Lemma trace_engineRender (w : World) :
  trace (engineRender w) = trace w ++ GameEngine.render (engineOf w).
Proof. reflexivity. Qed.

Lemma step_canvas (a : Action) (w : World) :
  onCanvas (trace w) = map Rendered (GameEngine.entities (engineOf w)) ->
  onCanvas (trace (step a w)) = map Rendered (GameEngine.entities (engineOf (step a w))).
Proof.
  intros I. destruct a; cbn [step]; try exact I.
  destruct (GameEngine.gameLoopId (engineOf w)); [|exact I].
  destruct (GameEngine.isPaused (engineOf w)) eqn:P.
  - rewrite (frame_paused _ _ _ _ P). exact I.
  - rewrite (frame_running _ _ _ _ P), trace_engineRender.
    change (engineOf (engineRender ?W)) with (engineOf W).
    apply onCanvas_render.
Qed.

(** X23: whatever the director draws on the canvas, the loading, title,
    pause and game-over screens and the score, health and ammunition
    display, is cleared by the engine's [render] later in the same frame:
    in every state a game reaches, what is on the canvas is what [render]
    drew for the entities of the engine's list, one call for each entity
    of the list as it is in that state, in the order of the list, and
    nothing else. *)
Theorem director_screens_are_wiped (loaded : bool) (handle : nat) (now cw ch : Q)
    (actions : list Action) :
  let w := run actions (init loaded handle now (newWorld cw ch)) in
  onCanvas (trace w) = map Rendered (GameEngine.entities (engineOf w)).
Proof.
  cbv zeta. unfold run.
  assert (I : onCanvas (trace (init loaded handle now (newWorld cw ch)))
              = map Rendered
                  (GameEngine.entities (engineOf (init loaded handle now (newWorld cw ch)))))
    by (destruct loaded; reflexivity).
  revert I. generalize (init loaded handle now (newWorld cw ch)).
  induction actions as [|a actions IH]; intros w I; [exact I|].
  cbn [fold_left]. apply IH, step_canvas, I.
Qed.

Lemma traceGrows_refl (w : World) : traceGrows w w.
Proof. exists []. rewrite app_nil_r. reflexivity. Qed.

Lemma traceGrows_trans (w1 w2 w3 : World) :
  traceGrows w1 w2 -> traceGrows w2 w3 -> traceGrows w1 w3.
Proof.
  intros [e1 E1] [e2 E2]. exists (e1 ++ e2). rewrite E2, E1, app_assoc. reflexivity.
Qed.

Lemma traceGrows_same (w w' : World) : trace w' = trace w -> traceGrows w w'.
Proof. intros E. exists []. rewrite app_nil_r. exact E. Qed.

Lemma trace_onPlayer (f : Player.t -> Player.t) (a : ref) (w : World) :
  trace (onPlayer f a w) = trace w.
Proof. unfold onPlayer. destruct (heap w !! a) as [[| | | |]|]; reflexivity. Qed.

Lemma trace_addBullets (bullets : list Bullet.t) (w : World) :
  trace (addBullets bullets w) = trace w.
Proof.
  revert w. induction bullets as [|b bullets IH]; intros w; [reflexivity|].
  cbn [addBullets]. rewrite IH. reflexivity.
Qed.

Lemma traceGrows_handlePlayerInput (deltaTime : Q) (w : World) :
  traceGrows w (handlePlayerInput deltaTime w).
Proof.
  unfold handlePlayerInput. destruct (player (game w)) as [a|]; [|apply traceGrows_refl].
  cbv zeta.
  match goal with
  | |- context [if _ then onPlayer _ _ ?W else _] => set (w3 := W)
  end.
  assert (E3 : traceGrows w w3); [subst w3|].
  { match goal with
    | |- context [match heap ?W !! _ with _ => _ end] => set (w2 := W)
    end.
    assert (E2 : trace w2 = trace w); [subst w2|].
    { rewrite trace_onPlayer. destruct (_ || _); [apply trace_onPlayer | reflexivity]. }
    destruct (heap w2 !! a) as [[p| | | |]|]; try (apply traceGrows_same; exact E2).
    destruct (_ && _); [|apply traceGrows_same; exact E2].
    destruct (Player.shoot (rng w2) p) as [[bullets p'] n].
    unfold traceGrows. cbn [trace set_game].
    repeat (match goal with |- context [if ?c then _ else _] => destruct c end);
      unfold playSound; cbn [trace emit]; rewrite trace_addBullets; cbn [trace set_rng set_heap];
      rewrite E2; first [eexists; reflexivity | exists []; rewrite app_nil_r; reflexivity]. }
  repeat (match goal with |- context [if ?c then _ else _] => destruct c end);
    try exact E3;
    (eapply traceGrows_trans; [exact E3|]); apply traceGrows_same, trace_onPlayer.
Qed.

Lemma trace_spawnZombie (w : World) : trace (spawnZombie w) = trace w.
Proof.
  destruct (player (game w)) as [thePlayer|] eqn:P.
  - destruct (spawnZombie_spawn w thePlayer P) as (x & y & n & _ & ->). reflexivity.
  - unfold spawnZombie. rewrite P. reflexivity.
Qed.

Lemma trace_waveStep (deltaTime : Q) (w : World) : trace (waveStep deltaTime w) = trace w.
Proof.
  unfold waveStep. cbv zeta.
  destruct (zombiesRemaining (game w) <=? 0)%Z.
  - cbn [game set_game waveDelay waveTimer set_waveTimer].
    destruct (Qle_bool (waveDelay (game w)) (waveTimer (game w) + deltaTime)); reflexivity.
  - unfold updateZombieSpawning. cbv zeta.
    destruct (Qltb 0 (spawnCooldown (game w))); [reflexivity|].
    destruct (0 <? zombiesRemaining (game w))%Z; [|reflexivity].
    cbn [trace set_game]. apply trace_spawnZombie.
Qed.

Lemma trace_spawnPickup (w : World) : trace (spawnPickup w) = trace w.
Proof.
  unfold spawnPickup. unfold random. cbn [rng set_rng game].
  match goal with
  | |- context [match ?c with Some _ => _ | None => _ end] => destruct c as [type|]
  end; [|reflexivity].
  match goal with
  | |- context [placePickup 10 ?X ?Y ?W] =>
      destruct (placePickup_clear 10 X Y W) as (_ & _ & I3 & _);
      destruct (placePickup 10 X Y W) as [[[x' y']|] w']
  end; cbn [fst snd] in I3; [|exact I3].
  unfold spawn, Entity.alloc. cbn [snd trace set_heap withEngine set_game]. exact I3.
Qed.

Lemma trace_updatePickupSpawning (deltaTime : Q) (w : World) :
  trace (updatePickupSpawning deltaTime w) = trace w.
Proof.
  unfold updatePickupSpawning. cbv zeta.
  match goal with |- context [if ?c then _ else _] => destruct c end; [|reflexivity].
  cbn [trace set_game]. rewrite trace_spawnPickup. reflexivity.
Qed.

Lemma startGame_trace (w : World) : trace (startGame w) = trace w.
Proof.
  unfold startGame. cbv zeta. unfold spawn, Entity.alloc. cbv beta iota zeta.
  match goal with
  | |- context [createObstacles ?W] =>
      destruct (createObstacles_spec W) as (os & n & _ & _ & E); rewrite E; clear E
  end.
  reflexivity.
Qed.

Lemma restart_trace (w : World) (after : World -> World) :
  (forall w', trace (after w') = trace w') ->
  trace (after (startGame w)) = trace w.
Proof. intros A. rewrite A. apply startGame_trace. Qed.

Lemma update_draws (deltaTime : Q) (w : World) (thePlayer : ref) :
  player (game w) = Some thePlayer ->
  exists evs, trace (update deltaTime w) = trace w ++ evs ++ [Drawn UI].
Proof.
  intros P. rewrite (update_steps deltaTime w thePlayer P).
  destruct (traceGrows_handlePlayerInput deltaTime w) as [evs E].
  exists evs.
  destruct (update_tail thePlayer
              (updatePickupSpawning deltaTime
                 (waveStep deltaTime (handlePlayerInput deltaTime w))))
    as (_ & _ & _ & _ & _ & _ & ->).
  rewrite trace_updatePickupSpawning, trace_waveStep, E, app_assoc. reflexivity.
Qed.

Lemma gameLoop_draws (now deltaTime : Q) (w : World) :
  (gameState (game w) = playing -> player (game w) <> None) ->
  exists evs,
    trace (gameLoop now deltaTime w)
    = trace w ++ evs ++ [Drawn (screenOf (gameState (game w)))].
Proof.
  intros P. unfold gameLoop.
  destruct (gameState (game w)); cbn [screenOf].
  - exists []. reflexivity.
  - exists []. unfold handleTitleScreenInput.
    destruct (InputHandler.isMouseButtonDown 0 _); [|reflexivity].
    apply (restart_trace (emit [Drawn TitleScreen] w)
             (fun w' => set_game (set_input (InputHandler.resetMouseButton 0 (input (game w')))
                                            (game w')) w')).
    reflexivity.
  - destruct (player (game w)) as [thePlayer|] eqn:E; [|exfalso; apply P; reflexivity].
    apply (update_draws deltaTime w thePlayer E).
  - exists []. unfold handlePauseScreenInput.
    destruct (InputHandler.isKeyDown "Escape" _); [reflexivity|].
    destruct (InputHandler.isMouseButtonDown 0 _); [|reflexivity].
    apply (restart_trace (emit [Drawn PauseScreen] w)
             (fun w' =>
                let w' := withEngine (GameEngine.resume now (engineOf w')) w' in
                set_game (set_input (InputHandler.resetMouseButton 0 (input (game w')))
                                    (game w')) w')).
    reflexivity.
  - exists []. unfold handleGameOverScreenInput.
    destruct (InputHandler.isMouseButtonDown 0 _); [|reflexivity].
    apply (restart_trace (emit [Drawn GameOverScreen] w)
             (fun w' => set_game (set_input (InputHandler.resetMouseButton 0 (input (game w')))
                                            (game w')) w')).
    reflexivity.
Qed.

(** X24: a frame of a game whose engine is not paused ends, in this
    order, with the director drawing the screen of its state (the display
    of score, health and ammunition while playing), the engine clearing the
    whole canvas, and the engine rendering the entities of its list as the
    frame leaves it, one call each in the order of the list: the screen
    is drawn and cleared within the frame. *)
Theorem frame_draws_then_clears (handle : nat) (now timestamp : Q) (w : World) :
  GameEngine.isPaused (engineOf w) = false ->
  (gameState (game w) = playing -> player (game w) <> None) ->
  exists evs,
    trace (frame handle now timestamp w)
    = trace w ++ evs ++ Drawn (screenOf (gameState (game w)))
                        :: ClearCanvas
                        :: map Rendered
                             (GameEngine.entities (engineOf (frame handle now timestamp w))).
Proof.
  intros N P.
  rewrite (frame_running _ _ _ _ N), trace_engineRender.
  change (engineOf (engineRender ?W)) with (engineOf W).
  pose proof (evolves_originalUpdate (frameDelta timestamp w) (stamped handle timestamp w))
    as [S _].
  destruct (steady_fields _ _ S) as (E1 & E2 & _).
  change (gameState (game (stamped handle timestamp w))) with (gameState (game w)) in E1.
  change (player (game (stamped handle timestamp w))) with (player (game w)) in E2.
  assert (T : traceGrows w (originalUpdate (frameDelta timestamp w) (stamped handle timestamp w))).
  { unfold originalUpdate.
    destruct (GameEngine.update _ _) as [[e h] evs]. exists evs. reflexivity. }
  revert E1 E2 T.
  generalize (originalUpdate (frameDelta timestamp w) (stamped handle timestamp w)).
  intros w1 E1 E2 [evs1 T].
  destruct (gameLoop_draws now (frameDelta timestamp w) w1) as [evs2 G];
    [rewrite E1, E2; exact P|].
  rewrite E1 in G. revert G.
  generalize (gameLoop now (frameDelta timestamp w) w1). intros w2 G.
  exists (evs1 ++ evs2).
  rewrite G, T. unfold GameEngine.render. rewrite <- !app_assoc. reflexivity.
Qed.

End Canvas.

Lemma onCollision_bullet_player (h : Heap) (bullet player : ref) (b : Bullet.t) (p : Player.t) :
  h !! bullet = Some (ABullet b) -> h !! player = Some (APlayer p) ->
  Entity.onCollision bullet player h =
  (if (Bullet.source b =? "enemy")%string then <[bullet := ABullet (spent b)]> h else h) /\
  Entity.onCollision player bullet h = h.
Proof. intros B P. unfold Entity.onCollision. rewrite B, P. split; reflexivity. Qed.

Lemma onCollision_bullet_obstacle (h : Heap) (bullet obstacle : ref) (b : Bullet.t)
    (o : Obstacle.t) :
  h !! bullet = Some (ABullet b) -> h !! obstacle = Some (AnObstacle o) ->
  Entity.onCollision bullet obstacle h = h /\
  Entity.onCollision obstacle bullet h = <[bullet := ABullet (spent b)]> h.
Proof. intros B O. unfold Entity.onCollision. rewrite B, O. split; reflexivity. Qed.

(** X25: one collision test of a bullet and a player or an obstacle that
    it overlaps, in either list order: a player is left as it is whatever
    the source of the bullet, and the bullet is marked for deletion only if
    its source is 'enemy'; an obstacle is left as it is and marks the
    bullet whatever its source. *)
Theorem bullet_meets_player_or_obstacle (h : Heap) (bullet other : ref) (b : Bullet.t)
    (e : Entity.t) (pair : ref * ref) :
  h !! bullet = Some (ABullet b) ->
  h !! other = Some e ->
  GameEngine.overlapping h bullet other = true ->
  pair = (bullet, other) \/ pair = (other, bullet) ->
  match e with
  | APlayer _ =>
      fst (GameEngine.collide pair h) =
      if (Bullet.source b =? "enemy")%string
      then <[bullet := ABullet (spent b)]> h else h
  | AnObstacle _ =>
      fst (GameEngine.collide pair h) = <[bullet := ABullet (spent b)]> h
  | _ => True
  end.
Proof.
  intros B E O Pair.
  assert (LB : (bullet < length h)%nat) by (eapply lookup_lt_Some; exact B).
  destruct e as [p|z|b'|k|o]; try exact I.
  - assert (N : bullet <> other) by (intros ->; rewrite B in E; discriminate).
    destruct (onCollision_bullet_player h bullet other b p B E) as [E1 E2].
    destruct Pair as [-> | ->]; unfold GameEngine.collide;
      [rewrite O | rewrite overlapping_sym, O]; cbn [fst].
    + rewrite E1. destruct (Bullet.source b =? "enemy")%string; [|exact E2].
      apply (onCollision_bullet_player _ bullet other (spent b) p).
      * apply list_lookup_insert_eq. exact LB.
      * rewrite list_lookup_insert_ne by exact N. exact E.
    + rewrite E2. exact E1.
  - assert (N : bullet <> other) by (intros ->; rewrite B in E; discriminate).
    destruct (onCollision_bullet_obstacle h bullet other b o B E) as [E1 E2].
    destruct Pair as [-> | ->]; unfold GameEngine.collide;
      [rewrite O | rewrite overlapping_sym, O]; cbn [fst].
    + rewrite E1. exact E2.
    + rewrite E2.
      apply (onCollision_bullet_obstacle _ bullet other (spent b) o).
      * apply list_lookup_insert_eq. exact LB.
      * rewrite list_lookup_insert_ne by exact N. exact E.
Qed.

(** * The theorems at sample inputs *)

Import ZombieShooterGame.

Lemma sampleDraws_range (n : nat) : 0 <= sampleDraws n /\ sampleDraws n < 1.
Proof.
  unfold sampleDraws, Qle, Qlt. cbn [Qnum Qden].
  pose proof (Nat.mod_upper_bound (n * 37 + 11) 100 ltac:(lia)). lia.
Qed.

Lemma shoot_refused_witness :
  @Player.shoot (sampleRuntime sampleDraws) 0
    (Player.set_shootCooldown 0.4 (Player.new 0 0)) =
  ([], Player.set_shootCooldown 0.4 (Player.new 0 0), 0%nat).
Proof. apply shoot_refused. left. reflexivity. Defined.


Lemma zombie_without_target_witness :
  let h := [AZombie (Zombie.new 10 10 "normal"); APlayer (Player.new 0 0)] in
  Entity.onCollision 0%nat 1%nat h !! 1%nat = Some (APlayer (Player.new 0 0)).
Proof.
  cbv zeta.
  refine (proj1 (proj2 (zombie_without_target _ 0%nat 1%nat (Zombie.new 10 10 "normal")
                          (Player.new 0 0) _ _ _ _))); try reflexivity.
  discriminate.
Defined.

Lemma spawnZombie_fast_before_tank_witness :
  let runtime := sampleRuntime (fun _ => 1 # 16) in
  let w0 := startedGame runtime 800 600 in
  let w := set_game (set_wave 5 (game w0)) w0 in
  exists z, heap (@spawnZombie runtime w) = heap w ++ [AZombie z] /\ Zombie.type z = "fast".
Proof.
  cbv zeta.
  refine (proj2 (@spawnZombie_fast_before_tank (sampleRuntime (fun _ => 1 # 16)) _ 0%nat _ _ _)).
  - vm_compute. reflexivity.
  - vm_compute. discriminate.
  - vm_compute. reflexivity.
Defined.

Lemma collision_pass_symmetric_once_witness :
  let calls := snd (GameEngine.checkCollisions threeEntities threeObjects) in
  GameEngine.overlapping threeObjects 0%nat 1%nat = true /\
  callsOf 0%nat 1%nat calls = 1%nat /\
  callsOf 1%nat 0%nat calls = 1%nat.
Proof.
  cbv zeta. split; [reflexivity|].
  destruct (collision_pass_symmetric_once threeEntities threeObjects 0%nat 1%nat)
    as (_ & before & after & E & F & _ & C1 & C2).
  - apply (bool_decide_unpack _). vm_compute. exact I.
  - apply (bool_decide_unpack _). vm_compute. exact I.
  - apply (bool_decide_unpack _). vm_compute. exact I.
  - discriminate.
  - destruct before as [|p before].
    + change (fst (GameEngine.collideAll [] threeObjects)) with threeObjects in C1, C2.
      change (GameEngine.overlapping threeObjects 0%nat 1%nat) with true in C1, C2.
      split; assumption.
    + exfalso.
      assert (P : p = (0%nat, 1%nat)).
      { destruct E as [E|E]; vm_compute in E; injection E; auto. }
      destruct (F p) as [N _]; [apply elem_of_app; left; apply list_elem_of_here|].
      exact (N P).
Defined.

(** Two entities that overlap when the collision pass starts get no call
    at all when an earlier pair of the pass has moved one of them away:
    the player overlaps both the obstacle and the zombie, the obstacle is
    tested first and pushes the player back to x = 80, clear of the
    zombie at x = 130. *)
Lemma overlap_at_pass_start_without_calls :
  let calls := snd (GameEngine.checkCollisions threeEntities threeObjects) in
  GameEngine.overlapping threeObjects 0%nat 2%nat = true /\
  callsOf 0%nat 2%nat calls = 0%nat /\
  callsOf 2%nat 0%nat calls = 0%nat.
Proof. vm_compute. repeat split. Qed.


Lemma paused_game_never_resumes_witness :
  let runtime := sampleRuntime sampleDraws in
  let w := @run runtime pausedRun (@init runtime true 1 0 (newWorld 800 600)) in
  let w' := @run runtime resumeAttempt w in
  gameState (game w') = paused /\
  GameEngine.isPaused (engineOf w') = true /\
  trace w' = trace w /\
  heap w' = heap w.
Proof.
  refine (@paused_game_never_resumes (sampleRuntime sampleDraws) 800 600 0 1%nat
            pausedRun resumeAttempt _).
  vm_compute. reflexivity.
Defined.

Lemma player_death_game_over_or_pause_witness :
  (let p' := healthCalls [TakeDamage 30; Heal 50; TakeDamage 200; Heal 10] (Player.new 0 0) in
   0 <= Player.health p' /\ Player.health p' <= 100 /\
   (Player.health p' == 0 -> playerMarked p' = true)) /\
  (let runtime := sampleRuntime sampleDraws in
   let actions := [Frame 3 32 32; MouseMove 5 5; Frame 4 48 48; KeyDown "w"; Frame 5 64 64] in
   gameState (game (@step runtime (Frame 3 32 32) lastHit)) = gameOver /\
   transitions playing gameOver
     (gameState (game lastHit) :: @history runtime actions lastHit) = 1%nat) /\
  (let runtime := sampleRuntime sampleDraws in
   let w := @step runtime (KeyDown "Escape") lastHit in
   let actions := [Frame 3 32 32; KeyUp "Escape"; Frame 4 48 48; KeyDown "Escape";
                   Frame 5 64 64; MouseDown 0; Frame 6 80 80] in
   Entity.isMarked (heap (@step runtime (Frame 3 32 32) w)) 0%nat = true /\
   gameState (game (@step runtime (Frame 3 32 32) w)) = paused /\
   GameEngine.isPaused (engineOf (@step runtime (Frame 3 32 32) w)) = true /\
   Forall (fun s => s = paused) (@history runtime actions w) /\
   gameState (game (@run runtime actions w)) = paused /\
   transitions playing gameOver (gameState (game w) :: @history runtime actions w) = 0%nat).
Proof.
  split; [|split].
  - refine (proj1 (@player_death_game_over_or_pause (sampleRuntime sampleDraws)) _ _ _ _ _).
    + repeat constructor; discriminate.
    + reflexivity.
    + reflexivity.
  - refine (proj1 (proj2 (@player_death_game_over_or_pause (sampleRuntime sampleDraws)))
              lastHit 0%nat 3%nat 32 32 _ _ _ _ _ _ _ _).
    + vm_compute. reflexivity.
    + vm_compute. reflexivity.
    + vm_compute. eexists. reflexivity.
    + vm_compute. reflexivity.
    + vm_compute. reflexivity.
    + vm_compute. reflexivity.
    + vm_compute. reflexivity.
  - cbv zeta. split; [vm_compute; reflexivity|].
    refine (proj2 (proj2 (@player_death_game_over_or_pause (sampleRuntime sampleDraws)))
              (@step (sampleRuntime sampleDraws) (KeyDown "Escape") lastHit)
              0%nat 3%nat 32 32 _ _ _ _ _ _ _).
    + vm_compute. reflexivity.
    + vm_compute. reflexivity.
    + vm_compute. eexists. reflexivity.
    + vm_compute. reflexivity.
    + vm_compute. reflexivity.
    + vm_compute. reflexivity.
Defined.



Lemma frame_order_witness :
  @engineFrame (sampleRuntime sampleDraws) 1 16 (twoEntities, bulletHitsZombie, []) =
  (GameEngine.mk 16 [1%nat] (Some 1%nat) false,
   snd (fst (@engineFrame (sampleRuntime sampleDraws) 1 16 (twoEntities, bulletHitsZombie, []))),
   [OnCollision 0%nat 1%nat; OnCollision 1%nat 0%nat; Updated 0%nat ((16 - 0) / 1000);
    Updated 1%nat ((16 - 0) / 1000); ClearCanvas; Rendered 1%nat]).
Proof.
  rewrite (@frame_order (sampleRuntime sampleDraws) 1 16 twoEntities bulletHitsZombie []
             eq_refl).
  vm_compute. reflexivity.
Defined.

Lemma ammo_pickup_names_its_weapon_witness :
  Pickup.applyEffect (Pickup.new 0 0 "ammo_shotgun" 5) (Player.new 0 0)
  = Player.addAmmo "shotgun" 5 (Player.new 0 0).
Proof.
  apply (ammo_pickup_names_its_weapon (Pickup.new 0 0 "ammo_shotgun" 5) "shotgun");
    reflexivity.
Defined.

Lemma pistol_ammo_pickup_is_lost_witness :
  let h := @pickupAndPlayer (sampleRuntime sampleDraws) (Pickup.new 0 0 "ammo_pistol" 15)
             [CallShoot; CallAddAmmo "rifle" 10] in
  Entity.onCollision 0%nat 1%nat h
  = <[0%nat := APickup (taken (Pickup.new 0 0 "ammo_pistol" 15))]> h.
Proof.
  cbv zeta.
  apply (@pistol_ammo_pickup_is_lost (sampleRuntime sampleDraws) _ 0%nat 1%nat
           (Pickup.new 0 0 "ammo_pistol" 15) [CallShoot; CallAddAmmo "rifle" 10]
           0 0 0%nat); reflexivity.
Defined.

Lemma zombie_damage_adds_up_witness :
  Zombie.health (zombieHits [25; 40; 40] (Zombie.new 0 0 "normal"))
  == Zombie.getMaxHealth (zombieHits [25; 40; 40] (Zombie.new 0 0 "normal")) - Qsum [25; 40; 40] /\
  (GameEntity.markedForDeletion (Zombie.base (zombieHits [25; 40; 40] (Zombie.new 0 0 "normal"))) = true <->
   Zombie.getMaxHealth (zombieHits [25; 40; 40] (Zombie.new 0 0 "normal")) <= Qsum [25; 40; 40]).
Proof.
  apply (zombie_damage_adds_up [25; 40; 40] 0 0 "normal").
  - repeat constructor; [exists 25%nat | exists 40%nat | exists 40%nat]; reflexivity.
  - vm_compute. discriminate.
Defined.

Lemma bullet_flies_two_seconds_witness :
  let b0 := @Bullet.new (sampleRuntime sampleDraws) 0 0 (Vector2D.new 1 0) 500 25 "player" in
  (GameEntity.markedForDeletion (Bullet.base (bulletFlight [0.5; 0.75; 0.5] b0)) = false) /\
  (GameEntity.markedForDeletion (Bullet.base (bulletFlight [0.5; 0.75; 0.5; 0.5] b0)) = true) /\
  (GameEntity.markedForDeletion (Bullet.base (bulletFlight [1; 1] b0)) = true
   <-> 2 <= Qsum [1; 1]).
Proof.
  cbv zeta. split; [|split].
  - refine (proj1 (proj2 (@bullet_flies_two_seconds (sampleRuntime sampleDraws)
                            0 0 (Vector2D.new 1 0) 500 25 "player" [0.5; 0.75; 0.5] _ _ _)) _).
    + repeat constructor; discriminate.
    + cbn [length]. lia.
    + vm_compute. discriminate.
    + vm_compute. discriminate.
  - refine (proj1 (proj2 (proj2 (@bullet_flies_two_seconds (sampleRuntime sampleDraws)
                            0 0 (Vector2D.new 1 0) 500 25 "player" [0.5; 0.75; 0.5; 0.5]
                            _ _ _))) _).
    + repeat constructor; discriminate.
    + cbn [length]. lia.
    + vm_compute. discriminate.
    + vm_compute. discriminate.
  - refine (proj2 (proj2 (proj2 (proj2 (@bullet_flies_two_seconds (sampleRuntime sampleDraws)
                            0 0 (Vector2D.new 1 0) 500 25 "player" [1; 1] _ _ _))) _)).
    + repeat constructor; discriminate.
    + cbn [length]. lia.
    + vm_compute. discriminate.
    + repeat constructor; exists 1024%nat; reflexivity.
Defined.

Lemma push_back_separates_iff_witness :
  pushedOutwards (GameEntity.new 100 100 100 100) (GameEntity.new 90 130 40 40) /\
  GameEngine.isColliding (GameEntity.new 100 100 100 100)
    (Obstacle.pushBack (GameEntity.new 100 100 100 100) (GameEntity.new 90 130 40 40)) = false /\
  ~ pushedOutwards (GameEntity.new 100 0 10 1000) (GameEntity.new 95 100 30 30) /\
  GameEngine.isColliding (GameEntity.new 100 0 10 1000)
    (Obstacle.pushBack (GameEntity.new 100 0 10 1000) (GameEntity.new 95 100 30 30)) = true.
Proof.
  assert (O : pushedOutwards (GameEntity.new 100 100 100 100) (GameEntity.new 90 130 40 40))
    by (vm_compute; intros G; discriminate G).
  assert (N : ~ pushedOutwards (GameEntity.new 100 0 10 1000) (GameEntity.new 95 100 30 30))
    by (vm_compute; intros G; apply G; reflexivity).
  split; [exact O|]. split; [|split; [exact N|]].
  - refine (proj1 (push_back_separates_iff (GameEntity.new 100 100 100 100)
                     (GameEntity.new 90 130 40 40) _ _ _) O).
    + exists 100%Z, 100%Z, 100%Z, 100%Z. repeat split; try reflexivity; vm_compute; discriminate.
    + exists 90%Z, 130%Z, 40%Z, 40%Z. repeat split; try reflexivity; vm_compute; discriminate.
    + reflexivity.
  - refine (proj2 (push_back_separates_iff (GameEntity.new 100 0 10 1000)
                     (GameEntity.new 95 100 30 30) _ _ _) N).
    + exists 100%Z, 0%Z, 10%Z, 1000%Z. repeat split; try reflexivity; vm_compute; discriminate.
    + exists 95%Z, 100%Z, 30%Z, 30%Z. repeat split; try reflexivity; vm_compute; discriminate.
    + reflexivity.
Defined.

Lemma contact_costs_health_witness :
  let z := Zombie.setTarget 0%nat (Zombie.new 10 10 "normal") in
  let h := [APlayer (Player.new 0 0); AZombie z] in
  exists p' z',
    fst (GameEngine.collide (0%nat, 1%nat) h) !! 0%nat = Some (APlayer p') /\
    fst (GameEngine.collide (0%nat, 1%nat) h) !! 1%nat = Some (AZombie z') /\
    Player.health p' == Qmax 0 (Player.health (Player.new 0 0) - contactDamage z) /\
    Zombie.attackCooldown z' =
      (if Qle_bool (Zombie.attackCooldown z) 0 then Zombie.attackCooldownMax z
       else Zombie.attackCooldown z).
Proof.
  cbv zeta.
  apply (contact_costs_health
           [APlayer (Player.new 0 0); AZombie (Zombie.setTarget 0%nat (Zombie.new 10 10 "normal"))]
           0%nat 1%nat (Player.new 0 0) (Zombie.setTarget 0%nat (Zombie.new 10 10 "normal"))
           (0%nat, 1%nat));
    try reflexivity.
  - discriminate.
  - left. reflexivity.
Defined.

Lemma zombie_is_born_off_the_map_witness :
  let runtime := sampleRuntime sampleDraws in
  let w := startedGame runtime 800 600 in
  let side := Qfloor (@Math_random runtime (S (rng w)) * 4) in
  let r := @Math_random runtime (S (S (rng w))) in
  let width := mapWidth (game w) in
  let height := mapHeight (game w) in
  exists z,
    heap (@spawnZombie runtime w) = heap w ++ [AZombie z] /\
    GameEngine.entities (engineOf (@spawnZombie runtime w))
      = GameEngine.entities (engineOf w) ++ [length (heap w)] /\
    Zombie.target z = Some 0%nat /\
    rng (@spawnZombie runtime w) = S (S (S (rng w))) /\
    ((side = 0%Z /\ Zombie.base z = GameEntity.new (r * width) (- (50)) 35 35) \/
     (side = 1%Z /\ Zombie.base z = GameEntity.new (width + 50) (r * height) 35 35) \/
     (side = 2%Z /\ Zombie.base z = GameEntity.new (r * width) (height + 50) 35 35) \/
     (side = 3%Z /\ Zombie.base z = GameEntity.new (- (50)) (r * height) 35 35)) /\
    offMap (game w) (Zombie.base z).
Proof.
  cbv zeta.
  apply (@zombie_is_born_off_the_map (sampleRuntime sampleDraws)
           (startedGame (sampleRuntime sampleDraws) 800 600) 0%nat).
  - vm_compute. reflexivity.
  - exact sampleDraws_range.
Defined.

Lemma spawn_cooldown_bounds_witness :
  let w := startedGame (sampleRuntime sampleDraws) 800 600 in
  let c := spawnCooldown (game (@updateZombieSpawning (sampleRuntime sampleDraws) (16 # 1000) w)) in
  c = 1.5 - Qmin 1.3 (inject_Z (wave (game w)) * 0.1) /\
  0.2 - (1 # 1000000000) <= c /\ c <= 1.4 + (1 # 1000000000).
Proof.
  cbv zeta.
  destruct (@spawn_cooldown_bounds (sampleRuntime sampleDraws) (16 # 1000)
              (startedGame (sampleRuntime sampleDraws) 800 600) 0%nat)
    as (E & L & U & _).
  - vm_compute. reflexivity.
  - vm_compute. reflexivity.
  - vm_compute. discriminate.
  - vm_compute. discriminate.
  - split; [exact E|]. split; [exact L | exact U].
Defined.

Lemma next_wave_after_delay_witness :
  let w := set_game (set_waveTimer 4.99 (set_zombiesRemaining 0
             (game (startedGame (sampleRuntime sampleDraws) 800 600))))
             (startedGame (sampleRuntime sampleDraws) 800 600) in
  waveObs (@update (sampleRuntime sampleDraws) 0.016 w) =
    if Qle_bool (waveDelay (game w)) (waveTimer (game w) + 0.016)
    then ((wave (game w) + 1)%Z, (5 + 2 * (wave (game w) + 1))%Z, 0, 0,
          zombiesBuilt (heap w))
    else (wave (game w), zombiesRemaining (game w), spawnCooldown (game w),
          waveTimer (game w) + 0.016, zombiesBuilt (heap w)).
Proof.
  cbv zeta.
  apply (@next_wave_after_delay (sampleRuntime sampleDraws) 0.016 _ 0%nat).
  - vm_compute. reflexivity.
  - vm_compute. discriminate.
Defined.

Lemma obstacles_are_permanent_witness :
  let o := Obstacle.new 0 0 800 20 in
  let h := [AnObstacle o; APlayer (Player.new 5 5)] in
  let g := GameEngine.addEntity 1%nat (GameEngine.addEntity 0%nat GameEngine.new) in
  snd (fst (@GameEngine.update (sampleRuntime sampleDraws) 0.016 (g, h))) !! 0%nat
    = Some (AnObstacle o) /\
  0%nat ∈ GameEngine.entities (fst (fst (@GameEngine.update (sampleRuntime sampleDraws) 0.016 (g, h)))).
Proof.
  cbv zeta.
  apply (@obstacles_are_permanent (sampleRuntime sampleDraws) 0.016
           (GameEngine.addEntity 1%nat (GameEngine.addEntity 0%nat GameEngine.new))
           [AnObstacle (Obstacle.new 0 0 800 20); APlayer (Player.new 5 5)]
           0%nat (Obstacle.new 0 0 800 20)).
  - reflexivity.
  - reflexivity.
  - apply (bool_decide_unpack _). vm_compute. exact I.
Defined.

Lemma bullet_hits_zombie_witness :
  let b := @Bullet.new (sampleRuntime sampleDraws) 10 10 (Vector2D.new 1 0) 500 25 "player" in
  let z := Zombie.new 0 0 "normal" in
  let h := [ABullet b; AZombie z] in
  fst (GameEngine.collide (0%nat, 1%nat) h) =
  if (Bullet.source b =? "player")%string
  then <[1%nat := AZombie (Zombie.takeDamage (Bullet.damage b) z)]>
         (<[0%nat := ABullet (spent b)]> h)
  else h.
Proof.
  cbv zeta.
  apply (bullet_hits_zombie
           [ABullet (@Bullet.new (sampleRuntime sampleDraws) 10 10 (Vector2D.new 1 0) 500 25 "player");
            AZombie (Zombie.new 0 0 "normal")]
           0%nat 1%nat
           (@Bullet.new (sampleRuntime sampleDraws) 10 10 (Vector2D.new 1 0) 500 25 "player")
           (Zombie.new 0 0 "normal") (0%nat, 1%nat)).
  - reflexivity.
  - reflexivity.
  - vm_compute. reflexivity.
  - left. reflexivity.
Defined.

Lemma removeEntity_first_occurrence_witness :
  GameEngine.removeEntity 3%nat
    (GameEngine.addEntity 3%nat (GameEngine.addEntity 1%nat GameEngine.new))
  = GameEngine.addEntity 1%nat GameEngine.new.
Proof.
  apply (proj2 (removeEntity_first_occurrence 3%nat
                  (GameEngine.addEntity 1%nat GameEngine.new))).
  apply (bool_decide_unpack _). vm_compute. exact I.
Defined.

Lemma frame_draws_then_clears_witness :
  let runtime := sampleRuntime sampleDraws in
  let w := startedGame runtime 800 600 in
  exists evs,
    trace (@frame runtime 3 32 32 w)
    = trace w ++ evs ++ Drawn UI
                        :: ClearCanvas
                        :: map Rendered
                             (GameEngine.entities (engineOf (@frame runtime 3 32 32 w))).
Proof.
  cbv zeta.
  apply (@frame_draws_then_clears (sampleRuntime sampleDraws) 3 32 32
           (startedGame (sampleRuntime sampleDraws) 800 600)).
  - vm_compute. reflexivity.
  - intros _. vm_compute. discriminate.
Defined.

Lemma bullet_meets_player_or_obstacle_witness :
  let b := @Bullet.new (sampleRuntime sampleDraws) 20 20 (Vector2D.new 1 0) 500 25 "player" in
  let h := [APlayer (Player.new 0 0); ABullet b] in
  fst (GameEngine.collide (0%nat, 1%nat) h) =
  if (Bullet.source b =? "enemy")%string then <[1%nat := ABullet (spent b)]> h else h.
Proof.
  cbv zeta.
  apply (bullet_meets_player_or_obstacle
           [APlayer (Player.new 0 0);
            ABullet (@Bullet.new (sampleRuntime sampleDraws) 20 20 (Vector2D.new 1 0) 500 25 "player")]
           1%nat 0%nat
           (@Bullet.new (sampleRuntime sampleDraws) 20 20 (Vector2D.new 1 0) 500 25 "player")
           (APlayer (Player.new 0 0)) (0%nat, 1%nat)).
  - reflexivity.
  - reflexivity.
  - vm_compute. reflexivity.
  - right. reflexivity.
Defined.

Lemma ammo_stays_in_order_witness :
  let p := fst (@playerCalls (sampleRuntime sampleDraws)
                  [CallSwitchWeapon "toString"; CallAddAmmo "toString" 5; CallShoot;
                   CallSwitchWeapon "shotgun"; CallShoot; CallAddAmmo "rifle" 10]
                  (Player.new 0 0, 0%nat)) in
  ammoInOrder p /\
  Player.weaponType (Player.switchWeapon "valueOf" p) = "valueOf"%string /\
  Player.canShoot (Player.switchWeapon "valueOf" p) = false.
Proof.
  cbv zeta.
  pose proof (@ammo_stays_in_order (sampleRuntime sampleDraws)
                [CallSwitchWeapon "toString"; CallAddAmmo "toString" 5; CallShoot;
                 CallSwitchWeapon "shotgun"; CallShoot; CallAddAmmo "rifle" 10]
                0 0 0%nat ltac:(vm_compute; discriminate)) as T.
  cbv zeta in T. destruct T as (I & _ & S).
  split; [exact I | exact (S "valueOf"%string eq_refl)].
Defined.
